(** * A shallow embedding of the forum media crawler (app.py, bot.py)

    The two source files share the fetcher (make_request), the post
    extractor (process_post) and the crawl loop; they differ in the
    date-window table (generate_links) and in the range splitter
    (split_url).  Shared code is embedded once, the two variants of
    generate_links and split_url live in the modules [App] and [Bot].

    Conventions of the embedding.
    - A calendar date ("%Y-%m-%d" string in the source) is a [Date] record;
      a datetime at midnight is its proleptic Gregorian ordinal, a [Z]
      (Python's date.toordinal).  timedelta(days=k) is addition of k.
    - datetime.now() is passed in.  Every comparison the source makes
      against it has a midnight datetime on the other side, so only the
      date of now matters: for a midnight d and now = n + t with
      0 <= t < 1 day, d > now holds exactly when ord d > ord n.
    - Network and HTML parsing are oracles: a probe returns the page
      count or fails, a fetch returns a parsed document or fails.
    - Python str is modelled by [string] (bytes); lower() is ASCII.
    - Threads: the calls of process_post of one user run on a thread
      pool.  A call is a sequence of steps, the tests and statements
      that read or write the shared objects, and a schedule says which
      thread acts next; every statement about the crawl is about all
      schedules unless it names one. *)

From stdpp Require Import base gmap sets list strings sorting.
From Stdlib Require Import ZArith Lia Ascii String DecimalString.

Open Scope string_scope.
Open Scope list_scope.
Open Scope Z_scope.

(** ** Python built-ins on strings *)
Module Py.

Definition is_upper (c : ascii) : bool :=
  let n := nat_of_ascii c in (65 <=? n)%nat && (n <=? 90)%nat.

Definition lower_ascii (c : ascii) : ascii :=
  if is_upper c then ascii_of_nat (nat_of_ascii c + 32) else c.

(** str.lower() *)
Fixpoint lower (s : string) : string :=
  match s with
  | EmptyString => EmptyString
  | String c s' => String (lower_ascii c) (lower s')
  end.

(** s.startswith(p) *)
Fixpoint startswith (s p : string) : bool :=
  match p, s with
  | EmptyString, _ => true
  | String _ _, EmptyString => false
  | String a p', String b s' =>
      if Ascii.eqb a b then startswith s' p' else false
  end.

(** s.endswith(p) *)
Definition endswith (s p : string) : bool :=
  startswith (String.rev s) (String.rev p).

(** sub in s *)
Fixpoint contains (s sub : string) : bool :=
  if startswith s sub then true
  else match s with
       | EmptyString => false
       | String _ s' => contains s' sub
       end.

(** s.replace(a, b) for single characters a, b *)
Fixpoint replace_char (a b : ascii) (s : string) : string :=
  match s with
  | EmptyString => EmptyString
  | String c s' =>
      String (if Ascii.eqb c a then b else c) (replace_char a b s')
  end.

(** the characters str.split() and str.strip() treat as white space *)
Definition isspace (c : ascii) : bool :=
  let n := nat_of_ascii c in
  ((9 <=? n)%nat && (n <=? 13)%nat) || ((28 <=? n)%nat && (n <=? 32)%nat).

(** s.split(): maximal runs of non-space characters *)
Fixpoint split_go (cur : option string) (s : string) : list string :=
  match s with
  | EmptyString => option_list (String.rev <$> cur)
  | String c s' =>
      if isspace c
      then option_list (String.rev <$> cur) ++ split_go None s'
      else split_go (Some (String c (default EmptyString cur))) s'
  end.

Definition split (s : string) : list string := split_go None s.

(** s.split(sep)[0] for a single character sep *)
Fixpoint split_first (sep : ascii) (s : string) : string :=
  match s with
  | EmptyString => EmptyString
  | String c s' =>
      if Ascii.eqb c sep then EmptyString else String c (split_first sep s')
  end.

Definition is_digit (c : ascii) : bool :=
  let n := nat_of_ascii c in (48 <=? n)%nat && (n <=? 57)%nat.

Definition digit_value (c : ascii) : Z := Z.of_nat (nat_of_ascii c) - 48.

Fixpoint lstrip (s : string) : string :=
  match s with
  | String c s' => if isspace c then lstrip s' else s
  | EmptyString => EmptyString
  end.

Definition strip (s : string) : string :=
  String.rev (lstrip (String.rev (lstrip s))).

(** digit ("_"? digit)*: the body of a decimal literal accepted by int() *)
Fixpoint int_digits (s : string) (acc : Z) (after_digit : bool) : option Z :=
  match s with
  | EmptyString => if after_digit then Some acc else None
  | String c s' =>
      if is_digit c then int_digits s' (10 * acc + digit_value c) true
      else if Ascii.eqb c "_"
           then (if after_digit then int_digits s' acc false else None)
           else None
  end.

(** int(s); None stands for ValueError *)
Definition int (s : string) : option Z :=
  match strip s with
  | String "-" s' => Z.opp <$> int_digits s' 0 false
  | String "+" s' => int_digits s' 0 false
  | s' => int_digits s' 0 false
  end.

(** str(n), as in an f-string *)
Definition str (n : Z) : string := NilZero.string_of_int (Z.to_int n).

(** range(hi, lo - 1, -1) *)
Definition range_down (hi lo : Z) : list Z :=
  (fun k : nat => hi - Z.of_nat k) <$> seq 0 (Z.to_nat (hi - lo + 1)).

(** range(n) *)
Definition range (n : Z) : list Z := Z.of_nat <$> seq 0 (Z.to_nat n).

End Py.

(** ** datetime: calendar dates and their ordinals *)
Module Calendar.

Record Date := mkDate { year : Z; month : Z; day : Z }.

Definition is_leap (y : Z) : bool :=
  (y mod 4 =? 0) && (negb (y mod 100 =? 0) || (y mod 400 =? 0)).

Definition days_in_month (y m : Z) : Z :=
  if m =? 2 then (if is_leap y then 29 else 28)
  else if (m =? 4) || (m =? 6) || (m =? 9) || (m =? 11) then 30 else 31.

Definition days_before_year (y : Z) : Z :=
  let y1 := y - 1 in y1 * 365 + y1 / 4 - y1 / 100 + y1 / 400.

Definition days_before_month (y m : Z) : Z :=
  fold_right Z.add 0
    ((fun k : nat => days_in_month y (Z.of_nat k + 1))
       <$> seq 0 (Z.to_nat (m - 1))).

(** date.toordinal() *)
Definition toordinal (d : Date) : Z :=
  days_before_year (year d) + days_before_month (year d) (month d) + day d.

Definition valid (d : Date) : bool :=
  (1 <=? year d) && (year d <=? 9999) &&
  (1 <=? month d) && (month d <=? 12) &&
  (1 <=? day d) && (day d <=? days_in_month (year d) (month d)).

(** datetime.strptime(s, "%Y-%m-%d") on the date written in s; None
    stands for ValueError *)
Definition strptime (d : Date) : option Z :=
  if valid d then Some (toordinal d) else None.

(** datetime(2010, 1, 1) *)
Definition D2010 : Z := Eval vm_compute in toordinal (mkDate 2010 1 1).

End Calendar.

(** ** The search URL built by generate_links and rewritten by split_url

    f"{base_url}?q={encoded_username}&c[newer_than]={start_date}
      &c[older_than]={end_date}&c[title_only]={title_flag}&o=date";
    re.sub on the c[newer_than] / c[older_than] parameter is an update of
    the corresponding field. *)
Record SearchUrl (D : Type) := mkUrl {
  q : string;
  newer_than : D;
  older_than : D;
  title_flag : Z
}.
Arguments mkUrl {D} _ _ _ _.
Arguments q {D} _.
Arguments newer_than {D} _.
Arguments older_than {D} _.
Arguments title_flag {D} _.

Definition sub_newer_than {D} (d : D) (u : SearchUrl D) : SearchUrl D :=
  mkUrl (q u) d (older_than u) (title_flag u).

Definition sub_older_than {D} (d : D) (u : SearchUrl D) : SearchUrl D :=
  mkUrl (q u) (newer_than u) d (title_flag u).

(** ** make_request (identical in both files) *)
Module Fetcher.

Definition MAX_RETRIES : Z := 3.
Definition initial_timeout : Z := 8.
Definition timeout_increment : Z := 5.

(** what scraper.request + raise_for_status does on one attempt *)
Inductive Outcome :=
| Response (body : string)
| RequestException (text : string)   (* str(e) *)
| OtherException.                    (* not caught by make_request *)

Inductive Event :=
| Request (timeout : Z)
| Sleep (seconds : Z).

Inductive Result :=
| Returned (body : string)
| ScraperError (message : string)
| Propagated
| ReturnedNone.                      (* loop ran off its end *)

Definition failure_message (url text : string) : string :=
  "Failed for " +:+ url +:+ " after " +:+ Py.str MAX_RETRIES
    +:+ " attempts: " +:+ text.

(** the body of "for attempt in range(MAX_RETRIES)" *)
Fixpoint attempts (url : string) (outcome : Z -> Outcome) (todo : list Z)
  : list Event * Result :=
  match todo with
  | [] => ([], ReturnedNone)
  | attempt :: todo' =>
      let current_timeout := initial_timeout + attempt * timeout_increment in
      match outcome attempt with
      | Response body => ([Request current_timeout], Returned body)
      | OtherException => ([Request current_timeout], Propagated)
      | RequestException text =>
          let wait503 :=
            if Py.contains text "503 Service Unavailable"
            then [Sleep 10] else [] in
          if attempt =? MAX_RETRIES - 1
          then (Request current_timeout :: wait503,
                ScraperError (failure_message url text))
          else
            let '(evs, r) := attempts url outcome todo' in
            (Request current_timeout :: wait503
               ++ Sleep (1 * (attempt + 1)) :: evs, r)
      end
  end.

Definition make_request (url : string) (outcome : Z -> Outcome)
  : list Event * Result :=
  attempts url outcome (Py.range MAX_RETRIES).

(** observations on a trace *)
Definition timeouts (tr : list Event) : list Z :=
  omap (fun e => match e with Request t => Some t | Sleep _ => None end) tr.

Fixpoint leading_sleep (tr : list Event) : Z :=
  match tr with
  | Sleep n :: tr' => n + leading_sleep tr'
  | _ => 0
  end.

(** seconds slept after the i-th request (0-indexed) and before the
    next request or the end of the call *)
Fixpoint sleep_after (i : nat) (tr : list Event) : Z :=
  match tr with
  | [] => 0
  | Sleep _ :: tr' => sleep_after i tr'
  | Request _ :: tr' =>
      match i with
      | O => leading_sleep tr'
      | S i' => sleep_after i' tr'
      end
  end.

End Fetcher.

(** a row of the months table: ("MM-DD", "MM-DD") as (month, day) pairs *)
Abbreviation MonthDay := (Z * Z)%type.

(** one element of the list generate_links returns:
    (year, url, start_date, end_date) *)
Abbreviation Link := (Z * SearchUrl Calendar.Date * Calendar.Date * Calendar.Date)%type.

(** one element of the list split_url returns: (url, start_date, end_date),
    the dates as ordinals *)
Abbreviation Range := (SearchUrl Z * Z * Z)%type.

Definition MAX_PAGES_PER_SEARCH : Z := 10.

(** ** app.py: generate_links and split_url *)
Module App.
Import Calendar.

Definition months : list (MonthDay * MonthDay) :=
  [ ((12,13),(1,3));  ((11,28),(12,18)); ((11,13),(12,3)); ((10,29),(11,18));
    ((10,13),(11,3)); ((9,28),(10,18));  ((9,13),(10,3));  ((8,29),(9,18));
    ((8,13),(9,3));   ((7,29),(8,18));   ((7,13),(8,3));   ((6,28),(7,18));
    ((6,13),(7,3));   ((5,29),(6,18));   ((5,13),(6,3));   ((4,28),(5,18));
    ((4,13),(5,3));   ((3,29),(4,18));   ((3,13),(4,3));   ((2,26),(3,18));
    ((2,13),(3,3));   ((1,29),(2,18));   ((1,13),(2,3));   ((12,29),(1,18)) ].

Section GenerateLinks.
Variable now : Date.
Variables (encoded_username : string) (title_flag : Z).

(** the body of the inner loop; None when the iteration ends in
    "continue" *)
Definition link_for (year : Z) (row : MonthDay * MonthDay) : option Link :=
  let '(start_month, end_month) := row in
  let start_year_adj := if start_month.1 =? 12 then year - 1 else year in
  let end_year_adj := if end_month.1 =? 1 then year + 1 else year in
  let start_date := mkDate start_year_adj start_month.1 start_month.2 in
  let end_date := mkDate end_year_adj end_month.1 end_month.2 in
  match strptime start_date, strptime end_date with
  | Some start_dt, Some end_dt =>
      if start_dt >? toordinal now then None
      else
        let end_date := if end_dt >? toordinal now then now else end_date in
        if start_dt >=? end_dt then None
        else Some (year,
                   mkUrl encoded_username start_date end_date title_flag,
                   start_date, end_date)
  | _, _ => None
  end.

Definition links_between (start_year end_year : Z) : list Link :=
  year ← Py.range_down end_year start_year;
  omap (link_for year) months.
End GenerateLinks.

(** None stands for ValueError("Invalid username") *)
Definition generate_links (now : Date) (start_year end_year : Z)
    (username : string) (title_only : bool) : option (list Link) :=
  if String.eqb username "" then None
  else
    let current_year := year now in
    let start_year := Z.max 2010 start_year in
    let end_year := Z.min end_year current_year in
    let encoded_username := Py.replace_char " " "+" username in
    let title_flag := if title_only then 1 else 0 in
    Some (links_between now encoded_username title_flag start_year end_year).

Section SplitUrl.
Variable now : Z.
(** total_pages as read from the pagination control of the first
    result page of a URL; None when make_request or the parse raises *)
Variable probe : SearchUrl Z -> option Z.

(** fuel bounds the depth of the recursion; None: depth exceeded *)
Fixpoint split_url (fuel : nat) (url : SearchUrl Z)
    (start_date end_date max_pages : Z) : option (list Range) :=
  match fuel with
  | O => None
  | S fuel' =>
      let start_dt := start_date in
      let end_dt := end_date in
      if start_dt >=? end_dt then Some [(url, start_date, end_date)]
      else
        let buffered_start_dt := start_dt - 3 in
        let buffered_end_dt := end_dt + 3 in
        let buffered_end_dt :=
          if buffered_end_dt >? now then now else buffered_end_dt in
        let buffered_start_dt :=
          if buffered_start_dt <? D2010 then D2010 else buffered_start_dt in
        let buffered_url :=
          sub_older_than buffered_end_dt
            (sub_newer_than buffered_start_dt url) in
        match probe buffered_url with
        | None => Some [(buffered_url, buffered_start_dt, buffered_end_dt)]
        | Some total_pages =>
            if total_pages <? max_pages
            then Some [(buffered_url, buffered_start_dt, buffered_end_dt)]
            else
              let total_days := buffered_end_dt - buffered_start_dt in
              if total_days <=? 1
              then Some [(buffered_url, buffered_start_dt, buffered_end_dt)]
              else
                let mid_dt := buffered_start_dt + total_days / 2 in
                let first_range_start := buffered_start_dt in
                let first_range_end := mid_dt + 3 in
                let second_range_start := mid_dt - 3 in
                let second_range_end := buffered_end_dt in
                let first_range_end :=
                  if first_range_end >? now then now else first_range_end in
                let second_range_start :=
                  if second_range_start >? now then now
                  else second_range_start in
                let first_url :=
                  sub_older_than first_range_end
                    (sub_newer_than first_range_start buffered_url) in
                let second_url :=
                  sub_older_than second_range_end
                    (sub_newer_than second_range_start buffered_url) in
                match split_url fuel' first_url
                        first_range_start first_range_end max_pages with
                | None => None
                | Some firsts =>
                    match split_url fuel' second_url
                            second_range_start second_range_end max_pages with
                    | None => None
                    | Some seconds => Some (firsts ++ seconds)
                    end
                end
        end
  end.
End SplitUrl.

End App.

(** ** bot.py: generate_links and split_url *)
Module Bot.
Import Calendar.

Definition months : list (MonthDay * MonthDay) :=
  [ ((11,28),(1,3)); ((10,29),(12,3));
    ((9,28),(11,3)); ((8,29),(10,3));
    ((7,29),(9,3));  ((6,28),(8,3));
    ((5,29),(7,3));  ((4,28),(6,3));
    ((3,29),(5,3));  ((2,26),(4,3));
    ((1,29),(3,3));  ((12,29),(2,3)) ].

(** start_month > end_month on zero-padded "MM-DD" strings *)
Definition md_gt (a b : MonthDay) : bool :=
  (a.1 >? b.1) || ((a.1 =? b.1) && (a.2 >? b.2)).

Section GenerateLinks.
Variable now : Date.
Variables (encoded_username : string) (title_flag : Z).

Definition link_for (year : Z) (row : MonthDay * MonthDay) : option Link :=
  let '(start_month, end_month) := row in
  let start_date := mkDate year start_month.1 start_month.2 in
  let end_year_adjusted :=
    if md_gt start_month end_month then year + 1 else year in
  let end_date := mkDate end_year_adjusted end_month.1 end_month.2 in
  match strptime start_date, strptime end_date with
  | Some start_dt, Some end_dt =>
      if start_dt >? toordinal now then None
      else
        let end_date := if end_dt >? toordinal now then now else end_date in
        Some (year,
              mkUrl encoded_username start_date end_date title_flag,
              start_date, end_date)
  | _, _ => None
  end.

Definition links_between (start_year end_year : Z) : list Link :=
  year ← Py.range_down end_year start_year;
  omap (link_for year) months.
End GenerateLinks.

Definition generate_links (now : Date) (start_year end_year : Z)
    (username : string) (title_only : bool) : option (list Link) :=
  if String.eqb username "" then None
  else
    let current_year := year now in
    let start_year := Z.max 2010 start_year in
    let end_year := Z.min end_year current_year in
    let encoded_username := Py.replace_char " " "+" username in
    let title_flag := if title_only then 1 else 0 in
    Some (links_between now encoded_username title_flag start_year end_year).

Section SplitUrl.
Variable probe : SearchUrl Z -> option Z.

(** the recursive calls leave max_pages to its default *)
Fixpoint split_url (fuel : nat) (url : SearchUrl Z)
    (start_date end_date max_pages : Z) : option (list Range) :=
  match fuel with
  | O => None
  | S fuel' =>
      let start_dt := start_date in
      let end_dt := end_date in
      match probe url with
      | None => Some [(url, start_date, end_date)]
      | Some total_pages =>
          if total_pages <? max_pages
          then Some [(url, start_date, end_date)]
          else
            let total_days := end_dt - start_dt in
            let mid_dt := start_dt + total_days / 2 in
            let first_end := mid_dt - 1 in
            let second_start := mid_dt + 1 in
            let first_url :=
              sub_older_than first_end (sub_newer_than start_date url) in
            let second_url :=
              sub_older_than end_date (sub_newer_than second_start url) in
            match split_url fuel' first_url start_date first_end
                    MAX_PAGES_PER_SEARCH with
            | None => None
            | Some firsts =>
                match split_url fuel' second_url second_start end_date
                        MAX_PAGES_PER_SEARCH with
                | None => None
                | Some seconds => Some (firsts ++ seconds)
                end
            end
      end
  end.
End SplitUrl.

End Bot.

(** ** process_post and extract_post_date (identical in both files) *)
Module Extractor.

Definition BASE_URL : string := "https://desifakes.com".

(** *** The state process_post mutates *)

(** the keys "images", "gifs", "videos" of global_seen and media_by_date *)
Inductive MediaType := Images | Gifs | Videos.

#[global] Instance MediaType_eq_dec : EqDecision MediaType.
Proof. solve_decision. Defined.

(** a dict with exactly these three keys *)
Record PerType (A : Type) := mkPerType { images : A; gifs : A; videos : A }.
Arguments mkPerType {A} _ _ _.
Arguments images {A} _.
Arguments gifs {A} _.
Arguments videos {A} _.

Definition get {A} (t : MediaType) (d : PerType A) : A :=
  match t with Images => images d | Gifs => gifs d | Videos => videos d end.

Definition set {A} (t : MediaType) (x : A) (d : PerType A) : PerType A :=
  match t with
  | Images => mkPerType x (gifs d) (videos d)
  | Gifs => mkPerType (images d) x (videos d)
  | Videos => mkPerType (images d) (gifs d) x
  end.

Abbreviation SeenSets := (PerType (gset string)).
Abbreviation MediaStore := (PerType (gmap string (list string))).

(** the two objects process_post receives by reference *)
Record State := mkState {
  global_seen : SeenSets;
  media_by_date : MediaStore
}.

Definition no_seen : SeenSets := mkPerType ∅ ∅ ∅.
Definition no_media : MediaStore := mkPerType ∅ ∅ ∅.

(** *** The parsed page, as far as process_post inspects it *)

(** soup.find('div', class_='p-title') and its h1.p-title-value *)
Inductive Title :=
| NoTitleDiv
| NoHeading                       (* the div has no such h1 *)
| Heading (text : string).        (* get_text(strip=True) of the h1 *)

Record Article := mkArticle {
  data_content : option string;   (* attribute data-content *)
  art_id : option string;         (* attribute id *)
  data_author : option string;    (* attribute data-author *)
  text : string;                  (* get_text(separator=" ") *)
  time_datetime : option string;  (* datetime attribute of the first
                                     time.u-dt tag; None when there is
                                     no such tag or it has no such
                                     attribute *)
  img_srcs : list string;         (* find_all('img', src=True) *)
  video_srcs : list string;       (* find_all('video', src=True) *)
  source_srcs : list string       (* find_all('source', src=True) *)
}.

Record Document := mkDocument {
  title : Title;
  articles : list Article         (* soup.find_all('article') *)
}.

(** *** Regular expressions *)

Fixpoint after_prefix (p s : string) : option string :=
  match p, s with
  | EmptyString, _ => Some s
  | String _ _, EmptyString => None
  | String a p', String b s' =>
      if Ascii.eqb a b then after_prefix p' s' else None
  end.

Fixpoint take_digits (s : string) : string :=
  match s with
  | String c s' => if Py.is_digit c then String c (take_digits s') else EmptyString
  | EmptyString => EmptyString
  end.

(** post-(\d+) anchored at the start of s: group(1) *)
Definition match_post_id (s : string) : option string :=
  match after_prefix "post-" s with
  | Some rest =>
      match take_digits rest with
      | EmptyString => None
      | ds => Some ds
      end
  | None => None
  end.

(** re.search(r'post-(\d+)', s): group(1) of the leftmost match; the
    digits are the ASCII digits, which is what \d matches in a link
    that holds ASCII characters only *)
Fixpoint search_post_id (s : string) : option string :=
  match match_post_id s with
  | Some ds => Some ds
  | None =>
      match s with
      | EmptyString => None
      | String _ s' => search_post_id s'
      end
  end.

(** c\[newer_than\]=(\d{4})- anchored at the start of s: int(group(1)) *)
Definition match_newer_than (s : string) : option Z :=
  match after_prefix "c[newer_than]=" s with
  | Some (String a (String b (String c (String d (String "-" _))))) =>
      if Py.is_digit a && Py.is_digit b && Py.is_digit c && Py.is_digit d
      then Some (1000 * Py.digit_value a + 100 * Py.digit_value b
                 + 10 * Py.digit_value c + Py.digit_value d)
      else None
  | _ => None
  end.

(** re.search(r'c\[newer_than\]=(\d{4})-', s) *)
Fixpoint search_newer_than (s : string) : option Z :=
  match match_newer_than s with
  | Some y => Some y
  | None =>
      match s with
      | EmptyString => None
      | String _ s' => search_newer_than s'
      end
  end.

(** *** The extractor *)

Definition keywords : list string :=
  ["avatars"; "ozzmodz_badges_badge"; "premium"; "likes"].

(** the test before "Skipping unwanted media"; data_prefix is
    "data:image" for img and "data:" for video and source *)
Definition unwanted (data_prefix src : string) : bool :=
  Py.startswith src data_prefix
  || Py.contains src "addonflare/awardsystem/icons/"
  || existsb (fun keyword => Py.contains (Py.lower src) keyword) keywords.

(** x or y on an optional string: None and "" are falsy *)
Definition py_or (x : option string) (y : string) : string :=
  match x with
  | Some (String c s) => String c s
  | _ => y
  end.

(** the page title matches some part of the user name *)
Definition title_matches (page_title username_lower : string) : bool :=
  match page_title with
  | EmptyString => false
  | _ =>
      existsb
        (fun part =>
           Py.startswith page_title part || Py.endswith page_title part
           || Py.contains (Py.replace_char "-" " " page_title) part)
        (Py.split username_lower)
  end.

(** the filter on articles when the title does not match *)
Definition article_matches (username_lower : string) (a : option Article) : bool :=
  match a with
  | None => false
  | Some a =>
      Py.contains (Py.lower (text a)) username_lower
      || Py.contains (Py.lower (default EmptyString (data_author a))) username_lower
  end.

(** the "if src not in global_seen[media_type]" block *)
Definition record (media_type : MediaType) (post_date src : string)
    (st : State) : State :=
  if decide (src ∈ get media_type (global_seen st)) then st
  else
    let seen := {[src]} ∪ get media_type (global_seen st) in
    let by_date := get media_type (media_by_date st) in
    let by_date :=
      match by_date !! post_date with
      | None => <[post_date := []]> by_date
      | Some _ => by_date
      end in
    let by_date :=
      <[post_date := default [] (by_date !! post_date) ++ [src]]> by_date in
    mkState (set media_type seen (global_seen st))
            (set media_type by_date (media_by_date st)).

Section ProcessPost.
(** urllib.parse.urljoin *)
Variable urljoin : string -> string -> string.
(** datetime.strptime(s, "%Y-%m-%dT%H:%M:%S%z").strftime("%Y-%m-%d");
    None when strptime raises *)
Variable strptime_strftime : string -> option string.
(** make_request(post_link) followed by BeautifulSoup; None when the
    request raises *)
Variable fetch : string -> option Document.

(** extract_post_date; its argument is None when soup.find found no
    article, and then the attribute access raises inside its try *)
Definition extract_post_date (article : option Article) : option string :=
  match article with
  | None => None
  | Some a =>
      match time_datetime a with
      | Some s => strptime_strftime s
      | None => None
      end
  end.

Definition resolve (raw : string) : string :=
  if Py.startswith raw "/" then urljoin BASE_URL raw else raw.

Definition scan_img (post_date : string) (st : State) (raw : string) : State :=
  let src := resolve raw in
  let media_type :=
    if Py.endswith (Py.lower src) ".gif" then Gifs else Images in
  if unwanted "data:image" src then st
  else record media_type post_date src st.

Definition scan_video (post_date : string) (st : State) (raw : string) : State :=
  let src := resolve raw in
  let media_type := Videos in
  if unwanted "data:" src then st
  else record media_type post_date src st.

(** the three inner loops over one article *)
Definition scan_article (post_date : string) (a : Article) (st : State) : State :=
  let st := foldl (scan_img post_date) st (img_srcs a) in
  let st := foldl (scan_video post_date) st (video_srcs a) in
  foldl (scan_video post_date) st (source_srcs a).

(** the year test of the loop body: true when the body ends in
    "continue"; a ValueError from int() lets the post through *)
Definition outside_years (start_year end_year : Z) (post_date : string) : bool :=
  match Py.int (Py.split_first "-" post_date) with
  | Some post_year => (post_year <? start_year) || (post_year >? end_year)
  | None => false
  end.

(** "for article in filtered_articles"; an article that is None makes
    article.find_all raise, which ends process_post *)
Fixpoint process_articles (year start_year end_year : Z)
    (filtered_articles : list (option Article)) (st : State) : State :=
  match filtered_articles with
  | [] => st
  | article :: rest =>
      let post_date :=
        py_or (extract_post_date article) (Py.str year +:+ "-01-01") in
      if outside_years start_year end_year post_date
      then process_articles year start_year end_year rest st
      else
        match article with
        | None => st
        | Some a =>
            process_articles year start_year end_year rest
              (scan_article post_date a st)
        end
  end.

(** soup.find('article', {'data-content': ..., 'id': ...}) *)
Definition find_article (post_id : string) (soup : Document) : option Article :=
  List.find
    (fun a =>
       bool_decide (data_content a = Some ("post-" +:+ post_id))
       && bool_decide (art_id a = Some ("js-post-" +:+ post_id)))
    (articles soup).

(** the articles list of process_post *)
Definition select_articles (post_link : string) (soup : Document)
  : list (option Article) :=
  match search_post_id post_link with
  | Some post_id => [find_article post_id soup]
  | None => Some <$> articles soup
  end.

Definition process_post (post_link username : string)
    (start_year end_year : Z) (st : State) : State :=
  match fetch post_link with
  | None => st
  | Some soup =>
      let year := default end_year (search_newer_than post_link) in
      match title soup with
      | NoHeading => st
      | title_div =>
          let page_title :=
            match title_div with
            | Heading text => Py.lower text
            | _ => EmptyString
            end in
          let username_lower := Py.lower username in
          let articles := select_articles post_link soup in
          match articles with
          | [] => st
          | _ =>
              if title_matches page_title username_lower
              then process_articles year start_year end_year articles st
              else
                let filtered_articles :=
                  List.filter (article_matches username_lower) articles in
                process_articles year start_year end_year filtered_articles st
          end
      end
  end.
End ProcessPost.

End Extractor.

(** * Vocabulary of the statements *)

(** ** The fetcher *)
Module FetcherSpec.
Import Fetcher.

Definition is_503 (text : string) : bool :=
  Py.contains text "503 Service Unavailable".

(** the pause the specification announces after failed attempt i *)
Definition announced_pause (text : string) (attempt : Z) : Z :=
  if is_503 text then 10 else 1 * (attempt + 1).

(** the pause make_request takes after failed attempt i *)
Definition actual_pause (text : string) (attempt : Z) : Z :=
  (if is_503 text then 10 else 0)
  + (if attempt <? MAX_RETRIES - 1 then 1 * (attempt + 1) else 0).

(** the attempts before the i-th all raised a RequestException *)
Definition failed_before (outcome : Z -> Outcome) (i : nat) : Prop :=
  forall j : nat, (j < i)%nat ->
    exists text, outcome (Z.of_nat j) = RequestException text.
End FetcherSpec.

(** ** Windows *)
Definition link_start (l : Link) : Calendar.Date := l.1.2.
Definition link_end (l : Link) : Calendar.Date := l.2.

Definition range_url (r : Range) : SearchUrl Z := r.1.1.
Definition range_start (r : Range) : Z := r.1.2.
Definition range_end (r : Range) : Z := r.2.

(** every day of [lo, hi] lies in some returned window *)
Definition covers (lo hi : Z) (l : list Range) : Prop :=
  forall d, lo <= d <= hi ->
    exists r, r ∈ l /\ range_start r <= d <= range_end r.

(** P holds of every two neighbours of the list *)
Fixpoint chained (P : Range -> Range -> Prop) (l : list Range) : Prop :=
  match l with
  | a :: (b :: _) as l' => P a b /\ chained P l'
  | _ => True
  end.

(** a probe that never falls under the ceiling *)
Definition always_over (probe : SearchUrl Z -> option Z) (max_pages : Z) : Prop :=
  forall u, exists p, probe u = Some p /\ max_pages <= p.

(** ** The splitter of app.py, piece by piece *)
Module AppSpec.
Import Calendar.

Section Pieces.
Variable now : Z.
Variable probe : SearchUrl Z -> option Z.
Variable max_pages : Z.

(** the clamped 3-day buffer at the head of split_url *)
Definition buffered_start (start_date : Z) : Z :=
  if start_date - 3 <? D2010 then D2010 else start_date - 3.

Definition buffered_end (end_date : Z) : Z :=
  if end_date + 3 >? now then now else end_date + 3.

Definition buffered_url (url : SearchUrl Z) (start_date end_date : Z)
  : SearchUrl Z :=
  sub_older_than (buffered_end end_date)
    (sub_newer_than (buffered_start start_date) url).

Definition mid_of (start_date end_date : Z) : Z :=
  buffered_start start_date
  + (buffered_end end_date - buffered_start start_date) / 2.

(** the two children of a bisection *)
Definition first_child (start_date end_date : Z) : Z * Z :=
  (buffered_start start_date,
   if mid_of start_date end_date + 3 >? now then now
   else mid_of start_date end_date + 3).

Definition second_child (start_date end_date : Z) : Z * Z :=
  (if mid_of start_date end_date - 3 >? now then now
   else mid_of start_date end_date - 3,
   buffered_end end_date).

Definition child_url (url : SearchUrl Z) (start_date end_date : Z)
    (c : Z * Z) : SearchUrl Z :=
  sub_older_than c.2
    (sub_newer_than c.1 (buffered_url url start_date end_date)).

(** a returned window names its own bounds in its URL, and either its
    probe failed, or it was probed under the ceiling, or it spans at
    most one day *)
Definition finalized (r : Range) : Prop :=
  newer_than (range_url r) = range_start r /\
  older_than (range_url r) = range_end r /\
  (probe (range_url r) = None \/
   (exists p, probe (range_url r) = Some p /\ p < max_pages) \/
   range_end r - range_start r <= 1).

(** the claim without the failure case: probed under the ceiling, or
    at most one day long *)
Definition under_ceiling_or_indivisible (r : Range) : Prop :=
  (exists p, probe (range_url r) = Some p /\ p < max_pages) \/
  range_end r - range_start r <= 1.

(** two neighbours reach three days past a common midpoint, as far as
    the crawlable range [2010-01-01, now] allows *)
Definition overlap3 (a b : Range) : Prop :=
  exists mid, D2010 < mid < now /\
    range_start b <= Z.max (mid - 3) D2010 /\
    Z.min (mid + 3) now <= range_end a.

Definition split_result (lo hi : Z) (l : list Range) : Prop :=
  (exists r, head l = Some r /\ range_start r <= lo) /\
  (exists r, last l = Some r /\ hi <= range_end r) /\
  Forall finalized l /\ covers lo hi l /\ chained overlap3 l.
End Pieces.
End AppSpec.

(** ** The splitter of bot.py *)
Module BotSpec.
Section Pieces.
Variable probe : SearchUrl Z -> option Z.

(** a returned window of bot.py: its probe failed or stayed under the
    ceiling of the call that returned it *)
Definition bot_finalized (max_pages : Z) (r : Range) : Prop :=
  probe (range_url r) = None \/
  exists p, probe (range_url r) = Some p /\
    (p < max_pages \/ p < MAX_PAGES_PER_SEARCH).

(** two neighbours leave exactly the midpoint day between them *)
Definition gap1 (a b : Range) : Prop := range_start b = range_end a + 2.

Definition bot_split_result (max_pages start_date end_date : Z)
    (l : list Range) : Prop :=
  (exists r, head l = Some r /\ range_start r = start_date) /\
  (exists r, last l = Some r /\ range_end r = end_date) /\
  Forall (bot_finalized max_pages) l /\ chained gap1 l.
End Pieces.
End BotSpec.

(** ** The post extractor *)
Module ExtractorSpec.
Import Extractor.

(** one call of [record]: (media_type, post_date, src) *)
Abbreviation Candidate := (MediaType * string * string)%type.

Definition record_all (cs : list Candidate) (st : State) : State :=
  foldl (fun st c => record c.1.1 c.1.2 c.2 st) st cs.

(** url is filed under post_date in the store of media_type *)
Definition stored (t : MediaType) (d u : string) (m : MediaStore) : Prop :=
  exists l, get t m !! d = Some l /\ u ∈ l.

(** every list of the store is duplicate-free, no URL sits under two
    dates of one media type, and every stored URL is in the seen-set *)
Definition consistent (st : State) : Prop :=
  forall t d l, get t (media_by_date st) !! d = Some l ->
    NoDup l /\
    (forall u, u ∈ l -> u ∈ get t (global_seen st)) /\
    (forall d' l' u, get t (media_by_date st) !! d' = Some l' ->
       u ∈ l -> u ∈ l' -> d = d').

(** the carrier a candidate of a media type comes from decides which
    data-URI test it passed *)
Definition data_prefix (t : MediaType) : string :=
  match t with Videos => "data:" | _ => "data:image" end.

(** the date rule as the specification words it: the real date when
    the post has one, else a year read from the link's c[newer_than] *)
Definition announced_date (strptime_strftime : string -> option string)
    (post_link : string) (a : Article) (d : string) : Prop :=
  match extract_post_date strptime_strftime (Some a) with
  | Some real => d = real
  | None =>
      exists y, search_newer_than post_link = Some y /\
        d = Py.str y +:+ "-01-01"
  end.

Section Candidates.
Variable urljoin : string -> string -> string.
Variable strptime_strftime : string -> option string.
Variable fetch : string -> option Document.

Definition img_candidate (post_date raw : string) : option Candidate :=
  let src := resolve urljoin raw in
  if unwanted "data:image" src then None
  else Some (if Py.endswith (Py.lower src) ".gif" then Gifs else Images,
             post_date, src).

Definition video_candidate (post_date raw : string) : option Candidate :=
  let src := resolve urljoin raw in
  if unwanted "data:" src then None else Some (Videos, post_date, src).

Definition article_candidates (post_date : string) (a : Article)
  : list Candidate :=
  omap (img_candidate post_date) (img_srcs a)
  ++ omap (video_candidate post_date) (video_srcs a)
  ++ omap (video_candidate post_date) (source_srcs a).

(** the date process_post files an article under *)
Definition post_date_of (year : Z) (a : option Article) : string :=
  py_or (extract_post_date strptime_strftime a) (Py.str year +:+ "-01-01").

Fixpoint articles_candidates (year start_year end_year : Z)
    (arts : list (option Article)) : list Candidate :=
  match arts with
  | [] => []
  | article :: rest =>
      if outside_years start_year end_year (post_date_of year article)
      then articles_candidates year start_year end_year rest
      else
        match article with
        | None => []
        | Some a =>
            article_candidates (post_date_of year article) a
            ++ articles_candidates year start_year end_year rest
        end
  end.

(** page_title of process_post, for a page whose title div is usable *)
Definition page_title (soup : Document) : string :=
  match title soup with Heading text => Py.lower text | _ => EmptyString end.

(** the articles process_post works through, after the title and
    the per-article test *)
Definition considered (post_link username : string) (soup : Document)
  : list (option Article) :=
  match title soup with
  | NoHeading => []
  | title_div =>
      let page_title :=
        match title_div with Heading text => Py.lower text | _ => EmptyString end in
      if title_matches page_title (Py.lower username)
      then select_articles post_link soup
      else List.filter (article_matches (Py.lower username))
             (select_articles post_link soup)
  end.

Definition post_candidates (post_link username : string)
    (start_year end_year : Z) : list Candidate :=
  match fetch post_link with
  | None => []
  | Some soup =>
      articles_candidates (default end_year (search_newer_than post_link))
        start_year end_year (considered post_link username soup)
  end.
End Candidates.

(** the two attributes soup.find asks of the article of a post *)
Definition names_post (post_id : string) (a : Article) : Prop :=
  data_content a = Some ("post-" +:+ post_id) /\
  art_id a = Some ("js-post-" +:+ post_id).

(** what process_post asks of an article before it scans it: the page
    has its heading when it has a title block, the page title or the
    article matches the user name, and the date passes the year test *)
Definition passes (username : string) (soup : Document)
    (start_year end_year : Z) (post_date : string) (a : Article) : bool :=
  match title soup with NoHeading => false | _ => true end
  && (title_matches (page_title soup) (Py.lower username)
      || article_matches (Py.lower username) (Some a))
  && negb (outside_years start_year end_year post_date).
End ExtractorSpec.
(** * The crawl loop of telegram_webhook / handle_message

    Only the extraction phase touches global_seen and the media stores,
    so the page-walking phase is summarised by its result, the list
    all_post_links it leaves for a user name.

    For every user the handler submits one call of process_post per
    post link to a ThreadPoolExecutor and then waits for all of them in
    "for future in as_completed(post_futures)".  The calls of one user
    run concurrently on up to MAX_WORKERS threads and share global_seen
    and the user's media store; no lock is taken.  The next user's
    calls are submitted only after that loop has seen every future of
    the current one. *)
Module Crawl.
Import Extractor ExtractorSpec.

Definition APP_MAX_WORKERS : nat := 18.
Definition BOT_MAX_WORKERS : nat := 3.

Record CrawlState := mkCrawl {
  crawl_seen : SeenSets;                            (* global_seen *)
  media_by_date_per_username : gmap string MediaStore
}.

(** the dict comprehension and the set literals before the loop *)
Definition initial (usernames : list string) : CrawlState :=
  mkCrawl no_seen (list_to_map ((fun username => (username, no_media)) <$> usernames)).

(** *** One worker: process_post statement by statement

    Once the page is fetched, a call of process_post goes through one
    block
<<
      if src not in global_seen[media_type]:
          global_seen[media_type].add(src)
          if post_date not in media_by_date[media_type]:
              media_by_date[media_type][post_date] = []
          media_by_date[media_type][post_date].append(src)
>>
    for every candidate (media_type, post_date, src) of the post, in
    the order of post_candidates; everything between the blocks is
    local to the call.  The two tests and the three statements of the
    block are the steps of a worker: another worker may run between any
    two of them. *)
Inductive Pc :=
| CheckSeen      (* if src not in global_seen[media_type] *)
| AddSeen        (* global_seen[media_type].add(src) *)
| CheckDate      (* if post_date not in media_by_date[media_type] *)
| InitDate       (* media_by_date[media_type][post_date] = [] *)
| Append.        (* media_by_date[media_type][post_date].append(src) *)

(** the blocks a call has still to go through, the first of them
    from pc on *)
Record Worker := mkWorker { todo : list Candidate; pc : Pc }.

Definition add_seen (t : MediaType) (src : string) (st : State) : State :=
  mkState (set t ({[src]} ∪ get t (global_seen st)) (global_seen st))
          (media_by_date st).

Definition put_list (t : MediaType) (post_date : string) (l : list string)
    (st : State) : State :=
  mkState (global_seen st)
          (set t (<[post_date := l]> (get t (media_by_date st))) (media_by_date st)).

(** the next step of a worker on the shared objects; None when the call
    has nothing left to do but return.  The KeyError of the append on a
    missing date is caught by "except Exception", which ends the call. *)
Definition work (w : Worker) (st : State) : option (Worker * State) :=
  match todo w with
  | [] => None
  | (t, post_date, src) :: rest =>
      Some
        match pc w with
        | CheckSeen =>
            if decide (src ∈ get t (global_seen st))
            then (mkWorker rest CheckSeen, st)
            else (mkWorker (todo w) AddSeen, st)
        | AddSeen => (mkWorker (todo w) CheckDate, add_seen t src st)
        | CheckDate =>
            match get t (media_by_date st) !! post_date with
            | None => (mkWorker (todo w) InitDate, st)
            | Some _ => (mkWorker (todo w) Append, st)
            end
        | InitDate => (mkWorker (todo w) Append, put_list t post_date [] st)
        | Append =>
            match get t (media_by_date st) !! post_date with
            | Some l => (mkWorker rest CheckSeen, put_list t post_date (l ++ [src]) st)
            | None => (mkWorker [] CheckSeen, st)
            end
        end
  end.

(** *** The pool during one user's extraction phase *)

(** a call submitted to the executor *)
Inductive Future :=
| Pending                  (* waiting in the queue of the executor *)
| Running (w : Worker)     (* taken by a worker thread *)
| Finished                 (* returned; not yet seen by as_completed *)
| Collected.               (* future.result() was called *)

Definition is_pending (f : Future) : bool :=
  match f with Pending => true | _ => false end.

Definition is_running (f : Future) : bool :=
  match f with Running _ => true | _ => false end.

Record Pool := mkPool {
  post_futures : list (string * Future);   (* in the order of submission *)
  processed_count : Z;
  shared : State              (* global_seen and the user's media store *)
}.


Inductive Action :=
| Submit (link : string)   (* executor.submit(process_post, link, ...) *)
| Start                    (* a free worker takes the oldest waiting call
                              and fetches its page *)
| Work (i : nat)           (* the worker of call i takes its next step *)
| Collect (i : nat).       (* as_completed yields future i: future.result() *)


(** the number of calls that are being run *)
Definition busy (p : Pool) : nat :=
  List.length (List.filter (fun x => is_running x.2) (post_futures p)).

(** the futures are those of the links, in order, and all collected *)
Fixpoint all_collected (links : list string) (futures : list (string * Future))
  : bool :=
  match links, futures with
  | [], [] => true
  | link :: links', (link', Collected) :: futures' =>
      String.eqb link link' && all_collected links' futures'
  | _, _ => false
  end.

Definition set_future (i : nat) (link : string) (f : Future) (p : Pool) : Pool :=
  mkPool (<[i := (link, f)]> (post_futures p)) (processed_count p) (shared p).

Section Loop.
Variable urljoin : string -> string -> string.
Variable strptime_strftime : string -> option string.
Variable fetch : string -> option Document.
(** all_post_links after the page phase for a user name *)
Variable all_post_links : string -> list string.
Variables start_year end_year : Z.
Variable max_workers : nat.

(** a worker at the start of process_post(link, username, start_year,
    end_year, media_by_date_per_username[username], global_seen), the
    page fetched *)
Definition start_worker (username link : string) : Worker :=
  mkWorker
    (post_candidates urljoin strptime_strftime fetch link username
       start_year end_year)
    CheckSeen.

(** one action in a pool; None when the action is not possible there *)
Definition step (username : string) (a : Action) (p : Pool) : option Pool :=
  match a with
  | Submit link =>
      Some (mkPool (post_futures p ++ [(link, Pending)]) (processed_count p)
              (shared p))
  | Start =>
      match list_find (fun x => Is_true (is_pending x.2)) (post_futures p) with
      | Some (i, (link, _)) =>
          if decide (busy p < max_workers)%nat
          then Some (set_future i link (Running (start_worker username link)) p)
          else None
      | None => None
      end
  | Work i =>
      match post_futures p !! i with
      | Some (link, Running w) =>
          match work w (shared p) with
          | Some (w', st) =>
              Some (mkPool (<[i := (link, Running w')]> (post_futures p))
                      (processed_count p) st)
          | None => Some (set_future i link Finished p)
          end
      | _ => None
      end
  | Collect i =>
      match post_futures p !! i with
      | Some (link, Finished) =>
          Some (mkPool (<[i := (link, Collected)]> (post_futures p))
                  (processed_count p + 1) (shared p))
      | _ => None
      end
  end.

(** the actions of a schedule, one after another *)
Fixpoint run (username : string) (schedule : list Action) (p : Pool) : option Pool :=
  match schedule with
  | [] => Some p
  | a :: schedule' =>
      match step username a p with
      | None => None
      | Some p' => run username schedule' p'
      end
  end.

(** the loops "for link in all_post_links" and "for future in
    as_completed(post_futures)" of one user under a schedule: every
    link has been submitted, in order, and every future collected.
    None when the schedule is none of this phase. *)
Definition phase (username : string) (schedule : list Action)
    (cs : CrawlState) : option CrawlState :=
  match media_by_date_per_username cs !! username with
  | None => None
  | Some media =>
      match run username schedule (mkPool [] 0 (mkState (crawl_seen cs) media)) with
      | Some p =>
          if all_collected (all_post_links username) (post_futures p)
          then Some (mkCrawl (global_seen (shared p))
                       (<[username := media_by_date (shared p)]>
                          (media_by_date_per_username cs)))
          else None
      | None => None
      end
  end.

(** "for username_idx, username in enumerate(usernames)", the phase of
    each user under its own schedule *)
Fixpoint phases (usernames : list string) (schedules : list (list Action))
    (cs : CrawlState) : option CrawlState :=
  match usernames, schedules with
  | [], [] => Some cs
  | username :: usernames', schedule :: schedules' =>
      match phase username schedule cs with
      | Some cs' => phases usernames' schedules' cs'
      | None => None
      end
  | _, _ => None
  end.

Definition crawl (usernames : list string) (schedules : list (list Action))
  : option CrawlState :=
  phases usernames schedules (initial usernames).
End Loop.

End Crawl.

(** ** The crawl loop *)
Module CrawlSpec.
Import Extractor ExtractorSpec Crawl.

(** every stored URL is in the seen-set *)
Definition stored_is_seen (seen : SeenSets) (m : MediaStore) : Prop :=
  forall t d u, stored t d u m -> u ∈ get t seen.

(** no URL is filed for two users under one media type *)
Definition stores_disjoint (stores : gmap string MediaStore) : Prop :=
  forall user1 user2 m1 m2 t d1 d2 u,
    user1 <> user2 ->
    stores !! user1 = Some m1 -> stores !! user2 = Some m2 ->
    stored t d1 u m1 -> stored t d2 u m2 -> False.

(** every store is consistent with the one seen-set of the crawl, and
    no URL is filed for two users under one media type *)
Definition crawl_consistent (cs : CrawlState) : Prop :=
  (forall user m, media_by_date_per_username cs !! user = Some m ->
     consistent (mkState (crawl_seen cs) m)) /\
  stores_disjoint (media_by_date_per_username cs).

(** the rest of the block of a candidate from pc on, run without
    another worker in between: the state it leaves, and whether the
    block was completed (the append did not raise) *)
Definition resume (c : Candidate) (pc : Pc) (st : State) : State * bool :=
  let '(t, post_date, src) := c in
  let append st :=
    match get t (media_by_date st) !! post_date with
    | Some l => (put_list t post_date (l ++ [src]) st, true)
    | None => (st, false)
    end in
  let from_date st :=
    match get t (media_by_date st) !! post_date with
    | None => append (put_list t post_date [] st)
    | Some _ => append st
    end in
  match pc with
  | CheckSeen =>
      if decide (src ∈ get t (global_seen st)) then (st, true)
      else from_date (add_seen t src st)
  | AddSeen => from_date (add_seen t src st)
  | CheckDate => from_date st
  | InitDate => append (put_list t post_date [] st)
  | Append => append st
  end.

(** the rest of a call, run without another worker in between *)
Definition finish (w : Worker) (st : State) : State :=
  match todo w with
  | [] => st
  | c :: rest =>
      match resume c (pc w) st with
      | (st', true) => record_all rest st'
      | (st', false) => st'
      end
  end.

Section Serial.
Variable urljoin : string -> string -> string.
Variable strptime_strftime : string -> option string.
Variable fetch : string -> option Document.
Variable all_post_links : string -> list string.
Variables start_year end_year : Z.

(** a whole call of process_post on the objects of a user *)
Definition serial_post (username : string) (cs : CrawlState) (link : string)
  : CrawlState :=
  match media_by_date_per_username cs !! username with
  | None => cs
  | Some media =>
      let st :=
        process_post urljoin strptime_strftime fetch link username
          start_year end_year (mkState (crawl_seen cs) media) in
      mkCrawl (global_seen st)
              (<[username := media_by_date st]> (media_by_date_per_username cs))
  end.

(** the calls of one user one after another, in the order of
    submission: what a pool of one worker does *)
Definition serial_phase (cs : CrawlState) (username : string) : CrawlState :=
  foldl (serial_post username) cs (all_post_links username).

Definition serial_crawl (usernames : list string) : CrawlState :=
  foldl serial_phase (initial usernames) usernames.
End Serial.

(** what a worker in the middle of a block knows, st0 being the
    state the phase started from: past the first test, its URL was
    not in the seen-set at the start of the phase; past the add, it is
    in the seen-set *)
Definition worker_ok (st0 st : State) (w : Worker) : Prop :=
  match todo w with
  | [] => True
  | (t, _, src) :: _ =>
      match pc w with
      | CheckSeen => True
      | AddSeen => (src ∉ get t (global_seen st0))
      | CheckDate | InitDate | Append =>
          (src ∉ get t (global_seen st0)) /\ (src ∈ get t (global_seen st))
      end
  end.

(** what holds of a pool whatever the schedule: the seen-set has only
    grown; a stored URL is in the seen-set, and it was stored under
    its date at the start of the phase or was not in the seen-set then;
    and every running worker is as above *)
Definition pool_ok (st0 : State) (p : Pool) : Prop :=
  (forall t, get t (global_seen st0) ⊆ get t (global_seen (shared p))) /\
  (forall t d u,
     stored t d u (media_by_date (shared p)) ->
     u ∈ get t (global_seen (shared p)) /\
     (stored t d u (media_by_date st0) \/ u ∉ get t (global_seen st0))) /\
  (forall i link w,
     post_futures p !! i = Some (link, Running w) ->
     worker_ok st0 (shared p) w).

(** what holds of a pool of one worker: the futures are the returned
    calls, then at most one running call, then the waiting calls, and
    the shared state is the one the whole calls give one after another
    once the running call is let run to its end *)
Definition one_at_a_time (process : State -> string -> State) (st0 : State)
    (p : Pool) : Prop :=
  exists returned current waiting,
    post_futures p = returned ++ current ++ waiting /\
    Forall (fun x => x.2 = Finished \/ x.2 = Collected) returned /\
    Forall (fun x => x.2 = Pending) waiting /\
    ((current = [] /\ shared p = foldl process st0 returned.*1) \/
     (exists link w,
        current = [(link, Running w)] /\
        finish w (shared p) = foldl process st0 (returned.*1 ++ [link]))).
End CrawlSpec.

(** ** Concrete pages, oracles and dates for the runs below *)
Module Examples.
Import Extractor.

(** urljoin on an absolute path of the site *)
Definition urljoin (base raw : string) : string := base +:+ raw.

(** strptime/strftime on a timestamp of the shape
    YYYY-MM-DDTHH:MM:SS+ZZZZ: its first ten characters *)
Definition strptime_strftime (s : string) : option string :=
  if (String.length s =? 24)%nat
  then match String.get 10 s with
       | Some "T"%char => Some (String.substring 0 10 s)
       | _ => None
       end
  else None.

Definition jane_link : string :=
  "https://desifakes.com/threads/jane-doe.1/post-5".

Definition thread_link : string :=
  "https://desifakes.com/threads/jane-doe.1/".

(** a post without a time tag *)
Definition undated_article : Article :=
  mkArticle (Some "post-5") (Some "js-post-5") (Some "uploader")
    "new photos" None ["https://site/a.jpg"] [] [].

Definition undated_page : Document :=
  mkDocument (Heading "Jane Doe - New Photos") [undated_article].

(** a dated post with one picture, one data-URI and one avatar *)
Definition dated_article : Article :=
  mkArticle (Some "post-5") (Some "js-post-5") (Some "uploader")
    "new photos" (Some "2020-03-04T10:00:00+0000")
    ["/a.jpg"; "data:application/octet-stream;base64,AAAA";
     "https://site/avatars/1.png"] ["/v.mp4"] [].

Definition other_article : Article :=
  mkArticle (Some "post-6") (Some "js-post-6") (Some "jane doe")
    "by jane doe" (Some "2020-03-05T10:00:00+0000")
    ["/b.jpg"] [] [].

Definition dated_page : Document :=
  mkDocument (Heading "Jane Doe - New Photos") [dated_article; other_article].

Definition empty_state : State := mkState no_seen no_media.

Definition fetch_undated (_ : string) : option Document := Some undated_page.
Definition fetch_dated (_ : string) : option Document := Some dated_page.

(** every user's page phase ends with the one post link *)
Definition one_link (_ : string) : list string := [jane_link].

Definition process (fetch : string -> option Document) (post_link : string)
    (st : State) : State :=
  process_post urljoin strptime_strftime fetch post_link "Jane Doe" 2019 2020 st.

(** the crawl of app.py over user names that all reach the one post *)
Definition crawl_of (usernames : list string)
    (schedules : list (list Crawl.Action)) : option Crawl.CrawlState :=
  Crawl.crawl urljoin strptime_strftime fetch_dated one_link 2019 2020
    Crawl.APP_MAX_WORKERS usernames schedules.

(** the one post from submission to collection, its call taking n steps *)
Definition one_post (n : nat) : list Crawl.Action :=
  Crawl.Submit jane_link :: Crawl.Start
    :: replicate n (Crawl.Work 0) ++ [Crawl.Collect 0].

(** the call on the fresh post files three URLs and returns; on a post
    whose URLs have all been seen it makes its three tests and returns *)
Definition fresh_post : list Crawl.Action := one_post 15.
Definition seen_post : list Crawl.Action := one_post 4.

(** two posts of one thread page that hold the same two pictures, in
    opposite order; the marker of the link selects the article *)
Definition first_link : string :=
  "https://desifakes.com/threads/jane-doe.1/post-7".

Definition second_link : string :=
  "https://desifakes.com/threads/jane-doe.1/post-8".

Definition first_article : Article :=
  mkArticle (Some "post-7") (Some "js-post-7") (Some "uploader")
    "new photos" (Some "2020-03-07T10:00:00+0000")
    ["/x.jpg"; "/y.jpg"] [] [].

Definition second_article : Article :=
  mkArticle (Some "post-8") (Some "js-post-8") (Some "uploader")
    "more photos" (Some "2020-03-08T10:00:00+0000")
    ["/y.jpg"; "/x.jpg"] [] [].

Definition two_posts_page : Document :=
  mkDocument (Heading "Jane Doe - New Photos") [first_article; second_article].

Definition fetch_two_posts (_ : string) : option Document := Some two_posts_page.

Definition two_links (_ : string) : list string := [first_link; second_link].

(** the pool of app.py working on the two posts for "Jane Doe" *)
Definition two_posts_run (schedule : list Crawl.Action) : option Crawl.Pool :=
  Crawl.run urljoin strptime_strftime fetch_two_posts 2019 2020
    Crawl.APP_MAX_WORKERS "Jane Doe" schedule (Crawl.mkPool [] 0 empty_state).

(** both calls submitted and started *)
Definition both_started : list Crawl.Action :=
  [Crawl.Submit first_link; Crawl.Submit second_link; Crawl.Start; Crawl.Start].

Definition both_collected : list Crawl.Action :=
  [Crawl.Collect 0; Crawl.Collect 1].

(** the first call files its first picture, the second call files its
    first picture, then each finds its second picture seen and returns *)
Definition block_by_block : list Crawl.Action :=
  both_started
  ++ replicate 5 (Crawl.Work 0) ++ replicate 5 (Crawl.Work 1)
  ++ [Crawl.Work 0; Crawl.Work 0; Crawl.Work 1; Crawl.Work 1]
  ++ both_collected.

(** both calls test the seen-set for x.jpg before either adds it *)
Definition test_before_add : list Crawl.Action :=
  both_started
  ++ [Crawl.Work 0] ++ replicate 6 (Crawl.Work 1)
  ++ replicate 4 (Crawl.Work 0) ++ replicate 3 (Crawl.Work 1)
  ++ [Crawl.Work 0; Crawl.Work 0; Crawl.Work 1]
  ++ both_collected.

(** every attempt answers 503 *)
Definition always_503 (_ : Z) : Fetcher.Outcome :=
  Fetcher.RequestException "503 Service Unavailable".

(** the site reports ten pages for every window *)
Definition ten_pages (_ : SearchUrl Z) : option Z := Some 10.
(** ten pages for windows above twenty days, three below *)
Definition busy_above_20 (u : SearchUrl Z) : option Z :=
  if older_than u - newer_than u >? 20 then Some 10 else Some 3.
(** ten pages for windows above three days, three below *)
Definition busy_above_3 (u : SearchUrl Z) : option Z :=
  if older_than u - newer_than u >? 3 then Some 10 else Some 3.
(** ten pages for windows above ten days, three below *)
Definition busy_above_10 (u : SearchUrl Z) : option Z :=
  if older_than u - newer_than u >? 10 then Some 10 else Some 3.
(** the probe request fails *)
Definition probe_fails (_ : SearchUrl Z) : option Z := None.

Definition today : Calendar.Date := Calendar.mkDate 2024 6 13.
Definition today_ord : Z := Eval vm_compute in Calendar.toordinal today.
Definition some_url : SearchUrl Z := mkUrl "jane+doe" 0 0 0.
(** 2020-01-13 and 2020-02-03 *)
Definition jan13 : Z := Eval vm_compute in Calendar.toordinal (Calendar.mkDate 2020 1 13).
Definition feb03 : Z := Eval vm_compute in Calendar.toordinal (Calendar.mkDate 2020 2 3).
End Examples.

(** * Further vocabulary *)

(** the year a generated link is listed under *)
Definition link_year (l : Link) : Z := l.1.1.1.

(** every window of at most [days] days between its bounds is settled
    by its probe: the probe fails or stays under the ceiling *)
Definition settles_within (probe : SearchUrl Z -> option Z) (max_pages days : Z)
  : Prop :=
  forall u, older_than u - newer_than u <= days ->
    probe u = None \/ exists p, probe u = Some p /\ p < max_pages.

(** what a call of make_request costs *)
Definition total_timeout (tr : list Fetcher.Event) : Z :=
  fold_right Z.add 0 (Fetcher.timeouts tr).

Definition total_sleep (tr : list Fetcher.Event) : Z :=
  fold_right Z.add 0
    (omap (fun e => match e with
                    | Fetcher.Sleep n => Some n
                    | Fetcher.Request _ => None
                    end) tr).

(** the first attempt that does not raise a RequestException is attempt k *)
Definition first_answer (outcome : Z -> Fetcher.Outcome) (k : nat) : Prop :=
  FetcherSpec.failed_before outcome k /\
  forall text, outcome (Z.of_nat k) <> Fetcher.RequestException text.

(** every candidate of the post has been seen in the crawl *)
Definition visited (urljoin : string -> string -> string)
    (strptime_strftime : string -> option string)
    (fetch : string -> option Extractor.Document) (start_year end_year : Z)
    (username link : string) (cs : Crawl.CrawlState) : Prop :=
  forall c,
    c ∈ ExtractorSpec.post_candidates urljoin strptime_strftime fetch
          link username start_year end_year ->
    c.2 ∈ Extractor.get c.1.1 (Crawl.crawl_seen cs).

(** * More of the code *)

(** ** Further Python built-ins *)
Module PyMore.

(** sep.join(l) *)
Fixpoint join (sep : string) (l : list string) : string :=
  match l with
  | [] => EmptyString
  | [s] => s
  | s :: l' => s +:+ sep +:+ join sep l'
  end.

(** s.split(sep) for a single character sep: never an empty list *)
Fixpoint split_on_go (sep : ascii) (cur : string) (s : string) : list string :=
  match s with
  | EmptyString => [String.rev cur]
  | String c s' =>
      if Ascii.eqb c sep
      then String.rev cur :: split_on_go sep EmptyString s'
      else split_on_go sep (String c cur) s'
  end.

Definition split_on (sep : ascii) (s : string) : list string :=
  split_on_go sep EmptyString s.

(** s.isdigit() *)
Fixpoint all_digits (s : string) : bool :=
  match s with
  | EmptyString => true
  | String c s' => Py.is_digit c && all_digits s'
  end.

Definition isdigit (s : string) : bool :=
  match s with
  | EmptyString => false
  | _ => all_digits s
  end.

(** s.replace(a, t) for a single character a *)
Fixpoint replace_with (a : ascii) (t : string) (s : string) : string :=
  match s with
  | EmptyString => EmptyString
  | String c s' =>
      if Ascii.eqb c a then t +:+ replace_with a t s'
      else String c (replace_with a t s')
  end.

(** len(l) *)
Definition len {A} (l : list A) : Z := Z.of_nat (List.length l).

(** l[i], also for a negative i; None stands for IndexError *)
Definition index {A} (l : list A) (i : Z) : option A :=
  let j := if i <? 0 then len l + i else i in
  if (0 <=? j) && (j <? len l) then l !! Z.to_nat j else None.

(** l[lo:hi], also for negative bounds *)
Definition slice {A} (l : list A) (lo hi : Z) : list A :=
  let clamp i := if i <? 0 then Z.max 0 (len l + i) else Z.min i (len l) in
  take (Z.to_nat (clamp hi - clamp lo)) (drop (Z.to_nat (clamp lo)) l).

(** range(lo, hi) *)
Definition range_from (lo hi : Z) : list Z :=
  (fun k : nat => lo + Z.of_nat k) <$> seq 0 (Z.to_nat (hi - lo)).

(** range(lo, hi, step) for a positive step *)
Definition range_step (lo hi step : Z) : list Z :=
  (fun k : nat => lo + step * Z.of_nat k)
    <$> seq 0 (Z.to_nat ((hi - lo + step - 1) / step)).

(** s[:n] *)
Definition prefix (n : nat) (s : string) : string := String.substring 0 n s.

(** max(n, *ns) *)
Definition max_of (n : Z) (ns : list Z) : Z := foldr Z.max n ns.

(** list(dict.fromkeys(l)): the first occurrence of every element *)
Fixpoint dedup_go (seen : gset string) (l : list string) : list string :=
  match l with
  | [] => []
  | x :: l' =>
      if decide (x ∈ seen) then dedup_go seen l'
      else x :: dedup_go ({[x]} ∪ seen) l'
  end.

Definition fromkeys (l : list string) : list string := dedup_go ∅ l.

(** sorted(l, key=key, reverse=True) on string keys: descending and
    stable, equal keys keep their order *)
Fixpoint insert_desc {A} (key : A -> string) (x : A) (l : list A) : list A :=
  match l with
  | [] => [x]
  | y :: l' =>
      if String.leb (key y) (key x) then x :: y :: l'
      else y :: insert_desc key x l'
  end.

Definition sorted_desc {A} (key : A -> string) (l : list A) : list A :=
  foldr (insert_desc key) [] l.

End PyMore.

(** ** The command parser of telegram_webhook and handle_message

    What the handler decides from the text of a message, up to the
    values of usernames, title_only, start_year and end_year the crawl
    is started with. *)
Module Command.
Import PyMore.

Inductive Action :=
| Restricted                   (* app.py: chat_id not in ALLOWED_CHAT_IDS *)
| AskForQuery                  (* "Please send a search query" *)
| Stop                         (* cancel_task and its reply *)
| ShowUsage
| AlreadyRunning
| RaiseValueError              (* int() on a year *)
| RaiseIndexError
| Scrape (usernames : list string) (title_only : bool) (start_year end_year : Z).

(** parts[0] == '/start' *)
Definition starts_with_start (parts : list string) : bool :=
  match index parts 0 with
  | Some p => String.eqb p "/start"
  | None => false
  end.

(** usernames_str and title_only_idx *)
Definition names_and_flag_index (parts : list string) : option (string * Z) :=
  let n := len parts in
  if starts_with_start parts
  then
    usernames_str ←
      (if n >? 4 then Some (join " " (slice parts 1 (-3))) else index parts 1);
    Some (usernames_str, if n <=? 4 then 2 else n - 3)
  else
    usernames_str ←
      (if n >? 3 then Some (join " " (slice parts 0 (-3))) else index parts 0);
    Some (usernames_str, if n <=? 3 then 1 else n - 3).

(** int(parts[i]) if cond else default *)
Definition year_or (cond : bool) (parts : list string) (i default : Z)
  : Action + Z :=
  if cond then
    match index parts i with
    | None => inl RaiseIndexError
    | Some p =>
        match Py.int p with
        | None => inl RaiseValueError
        | Some y => inr y
        end
    end
  else inr default.

(** the lines from "if parts[0] == '/start'" to end_year *)
Definition request (current_year : Z) (parts : list string) : Action :=
  let n := len parts in
  match names_and_flag_index parts with
  | None => RaiseIndexError
  | Some (usernames_str, title_only_idx) =>
      let usernames := Py.strip <$> split_on "," usernames_str in
      match
        (if n >? title_only_idx
         then (fun p => String.eqb (Py.lower p) "y") <$> index parts title_only_idx
         else Some false)
      with
      | None => RaiseIndexError
      | Some title_only =>
          match year_or (n >? 2) parts (-2) 2019 with
          | inl e => e
          | inr start_year =>
              match year_or (n >? 1) parts (-1) current_year with
              | inl e => e
              | inr end_year => Scrape usernames title_only start_year end_year
              end
          end
      end
  end.

(** from "if not text" on; running says whether the chat has an entry
    in active_tasks *)
Definition dispatch (current_year : Z) (running : bool) (text : string)
  : Action :=
  if String.eqb text EmptyString then AskForQuery
  else if String.eqb (Py.lower text) "/stop" then Stop
  else
    let parts := Py.split text in
    if (len parts <? 1) || (starts_with_start parts && (len parts <? 2))
    then ShowUsage
    else if running then AlreadyRunning
    else request current_year parts.

(** bot.py *)
Definition handle_message (current_year : Z) (running : bool) (raw : string)
  : Action :=
  dispatch current_year running (Py.strip raw).

(** app.py; allowed says whether chat_id is in ALLOWED_CHAT_IDS *)
Definition telegram_webhook (allowed : bool) (current_year : Z)
    (running : bool) (raw : string) : Action :=
  let text := Py.strip raw in
  if negb allowed then Restricted else dispatch current_year running text.

End Command.

(** ** fetch_page_data and the page loop of the crawl *)
Module Walker.
Import PyMore.

(** a search-result page, as far as fetch_page_data inspects it *)
Record SearchPage := mkPage {
  hrefs : list string;              (* href of every a tag that has one *)
  page_nav : option (list string)   (* texts of the a tags of div.pageNav *)
}.

(** the test on link['href'] *)
Definition is_post_href (href : string) : bool :=
  Py.contains href "threads/" && negb (Py.startswith href "#")
  && negb (Py.contains href "page-").

(** the list the max is taken of; None when int() raises *)
Definition page_numbers (texts : list string) : option (list Z) :=
  mapM Py.int (List.filter isdigit (Py.strip <$> texts)).

Section FetchPageData.
Variable urljoin : string -> string -> string.
(** make_request(full_url) and the parse; the page number is None for
    the URL without a page parameter; None when the request raises *)
Variable get_page : SearchUrl Z -> option Z -> option SearchPage.

(** links *)
Definition post_links (soup : SearchPage) : list string :=
  fromkeys (urljoin Extractor.BASE_URL
              <$> List.filter is_post_href (hrefs soup)).

(** full_url: "page" is falsy for None and for 0 *)
Definition full_url_page (page : option Z) : option Z :=
  match page with
  | Some p => if p =? 0 then None else Some p
  | None => None
  end.

Definition fetch_page_data (url : SearchUrl Z) (page : option Z)
  : list string * Z :=
  match get_page url (full_url_page page) with
  | None => ([], 1)
  | Some soup =>
      let links := post_links soup in
      match page_nav soup with
      | None => (links, 1)
      | Some texts =>
          match page_numbers texts with
          | Some (n :: ns) => (links, max_of n ns)
          | _ => ([], 1)
          end
      end
  end.

(** all_post_links and seen_links *)
Abbreviation Collected := (list string * gset string)%type.

(** all_post_links.extend(link for link in links if link not in
    seen_links); seen_links.update(links) *)
Definition add_links (acc : Collected) (links : list string) : Collected :=
  (acc.1 ++ filter (fun link => link ∉ acc.2) links,
   acc.2 ∪ list_to_set links).

(** the loop over as_completed(page_futures): the results arrive in
    the order the page fetches complete *)
Definition collect (acc : Collected) (results : list (list string))
  : Collected :=
  foldl add_links acc results.

(** all_post_links of one user after the page fetches calls, listed in
    the order they complete *)
Definition all_post_links (calls : list (SearchUrl Z * option Z))
  : list string :=
  (collect ([], ∅) ((fun c => (fetch_page_data c.1 c.2).1) <$> calls)).1.
End FetchPageData.

End Walker.

(** ** The data create_html writes into the page

    The page is a fixed template around the object mediaData; the
    embedding is that object: for every user, in the order of
    usernames, the key and the list of items written for it. *)
Module Gallery.
Import PyMore Extractor.

(** {'type': ..., 'src': ..., 'date': ...} *)
Record Item := mkItem { item_type : string; item_src : string; item_date : string }.

Definition type_name (t : MediaType) : string :=
  match t with Images => "images" | Videos => "videos" | Gifs => "gifs" end.

Definition quote : ascii := ascii_of_nat 34.
Definition backslash : ascii := ascii_of_nat 92.
Definition newline : ascii := ascii_of_nat 10.

(** item.startswith(('http://', 'https://')) *)
Definition is_http (item : string) : bool :=
  Py.startswith item "http://" || Py.startswith item "https://".

(** safe_src: every double quote gets a backslash before it, then
    every newline is dropped *)
Definition safe_src (item : string) : string :=
  replace_with newline EmptyString
    (replace_with quote (String backslash (String quote EmptyString)) item).

(** the items of one media type: dates newest first, the URLs of a date
    in the order they were filed, URLs that are not http(s) skipped *)
Definition type_items (t : MediaType) (m : gmap string (list string)) : list Item :=
  date ← sorted_desc id (map_to_list m).*1;
  item ← default [] (m !! date);
  if is_http item then [mkItem (type_name t) (safe_src item) date] else [].

(** "for media_type in ['images', 'videos', 'gifs']" *)
Definition collected (store : MediaStore) : list Item :=
  type_items Images (images store) ++ type_items Videos (videos store)
  ++ type_items Gifs (gifs store).

(** count of one user *)
Definition count_type (m : gmap string (list string)) : Z :=
  foldr Z.add 0 ((fun p => len p.2) <$> map_to_list m).

Definition count (store : MediaStore) : Z :=
  count_type (images store) + count_type (gifs store) + count_type (videos store).

Definition key_of (username : string) : string := Py.replace_char " " "_" username.

Inductive Html :=
| RaiseKeyError                                   (* a user without a store *)
| NoHtml                                          (* return None *)
| Page (media_data : list (string * list Item)).  (* the mediaData object *)

Module App.

(** media_list of one user *)
Definition media_list (store : MediaStore) : list Item :=
  sorted_desc item_date (collected store).

Definition create_html (media_by_date_per_username : gmap string MediaStore)
    (usernames : list string) : Html :=
  match mapM (fun username => media_by_date_per_username !! username) usernames with
  | None => RaiseKeyError
  | Some stores =>
      let total_items := foldr Z.add 0 (count <$> stores) in
      if total_items =? 0 then NoHtml
      else Page (zip (key_of <$> usernames) (media_list <$> stores))
  end.

End App.

Module Bot.

(** media_by_date_per_username.get(username, {...}) *)
Definition store_of (media_by_date_per_username : gmap string MediaStore)
    (username : string) : MediaStore :=
  default no_media (media_by_date_per_username !! username).

(** all_media, each item with its 'username' *)
Definition all_media (media_by_date_per_username : gmap string MediaStore)
    (usernames : list string) : list (string * Item) :=
  sorted_desc (fun x => item_date x.2)
    (username ← usernames;
     pair username <$> collected (store_of media_by_date_per_username username)).

(** user_media *)
Definition user_media (all : list (string * Item)) (username : string)
  : list Item :=
  snd <$> List.filter (fun x => String.eqb x.1 username) all.

Definition create_html (media_by_date_per_username : gmap string MediaStore)
    (usernames : list string) : Html :=
  let total_items :=
    foldr Z.add 0
      ((fun username => count (store_of media_by_date_per_username username))
         <$> usernames) in
  if total_items =? 0 then NoHtml
  else
    let all := all_media media_by_date_per_username usernames in
    Page ((fun username => (key_of username, user_media all username))
            <$> usernames).

End Bot.

End Gallery.

(** ** Sending the pictures to the group (bot.py) *)
Module Sender.
Import PyMore Extractor Fetcher.

Definition MAX_IMAGE_RETRIES : Z := 3.
Definition BATCH_SIZE : Z := 5.

Section DownloadImage.
(** response.status_code == 200 *)
Variable is_200 : string -> bool.

(** the body of "for attempt in range(MAX_IMAGE_RETRIES)"; the k-th
    call of make_request meets the outcomes outcome k *)
Fixpoint download_attempts (image_url : string)
    (outcome : Z -> Z -> Outcome) (todo : list Z)
  : list Event * option string :=
  match todo with
  | [] => ([], None)
  | attempt :: todo' =>
      let '(tr, r) := make_request image_url (outcome attempt) in
      let retry :=
        let '(evs, res) := download_attempts image_url outcome todo' in
        (tr ++ Sleep (1 * (attempt + 1)) :: evs, res) in
      match r with
      | Returned body => if is_200 body then (tr, Some body) else retry
      | ScraperError _ | Propagated | ReturnedNone => retry
      end
  end.

Definition download_image (image_url : string) (outcome : Z -> Z -> Outcome)
  : list Event * option string :=
  download_attempts image_url outcome (Py.range MAX_IMAGE_RETRIES).
End DownloadImage.

(** (url, username, date) *)
Abbreviation Picture := (string * string * string)%type.

(** str(start_year) <= date[:4] <= str(end_year), on strings *)
Definition in_years (start_year end_year : Z) (date : string) : bool :=
  String.leb (Py.str start_year) (prefix 4 date)
  && String.leb (prefix 4 date) (Py.str end_year).

(** media_by_date_per_username.get(username, {'images': {}, 'gifs': {}}) *)
Definition store_of (media_by_date_per_username : gmap string MediaStore)
    (username : string) : MediaStore :=
  default no_media (media_by_date_per_username !! username).

(** the pictures of one user, before the final sort *)
Definition user_pictures (store : MediaStore) (username : string)
    (start_year end_year : Z) : list Picture :=
  date ← sorted_desc id (elements (dom (images store) ∪ dom (gifs store)));
  if in_years start_year end_year date
  then
    (fun url => (url, username, date))
      <$> (default [] (images store !! date) ++ default [] (gifs store !! date))
  else [].

Definition all_media (media_by_date_per_username : gmap string MediaStore)
    (usernames : list string) (start_year end_year : Z) : list Picture :=
  sorted_desc (fun x : Picture => x.2)
    (username ← usernames;
     user_pictures (store_of media_by_date_per_username username) username
       start_year end_year).

(** all_media[i:i + BATCH_SIZE] for i in range(0, len(all_media), BATCH_SIZE) *)
Definition batches (all : list Picture) : list (list Picture) :=
  (fun i => slice all i (i + BATCH_SIZE)) <$> range_step 0 (len all) BATCH_SIZE.

Section ProcessAndSend.
(** send_image_batch on the k-th batch *)
Variable send_image_batch : nat -> list Picture -> bool.

(** sent_images over the batches from the k-th on *)
Fixpoint send_from (k : nat) (bs : list (list Picture)) (sent_images : Z) : Z :=
  match bs with
  | [] => sent_images
  | batch :: bs' =>
      match batch with
      | [] => send_from (S k) bs' sent_images            (* continue *)
      | _ =>
          if send_image_batch k batch
          then send_from (S k) bs' (sent_images + len batch)
          else send_from (S k) bs' sent_images
      end
  end.

Definition process_and_send_images
    (media_by_date_per_username : gmap string MediaStore)
    (usernames : list string) (start_year end_year : Z) : Z :=
  send_from 0
    (batches (all_media media_by_date_per_username usernames start_year end_year))
    0.
End ProcessAndSend.

End Sender.

(** a list in descending order of a string key (for dates: newest first) *)
Definition descending {A} (key : A -> string) (l : list A) : Prop :=
  StronglySorted (fun a b => String.leb (key b) (key a) = true) l.

(** ** Further inputs for concrete runs *)
Module MoreExamples.
Import Extractor Walker.

(** the first attempt times out, the second is answered *)
Definition fails_once (attempt : Z) : Fetcher.Outcome :=
  if attempt =? 0 then Fetcher.RequestException "Read timed out"
  else Fetcher.Response "page".

(** a result page that links one post twice, with a pagination block *)
Definition search_page : SearchPage :=
  mkPage
    ["/threads/jane-doe.1/post-5"; "#top"; "/threads/jane-doe.1/page-2";
     "/threads/jane-doe.1/post-5"; "/members/jane.7/"]
    (Some ["1"; "2"; "Next"]).


Definition get_search_page (_ : SearchUrl Z) (_ : option Z)
  : option SearchPage := Some search_page.


(** every batch is delivered *)
Definition always_sent (_ : nat) (_ : list Sender.Picture) : bool := true.

(** the crawl of two subjects that reach the same post, one call after
    another, and the stores it leaves *)
Definition serial_crawl_of (usernames : list string) : Crawl.CrawlState :=
  CrawlSpec.serial_crawl Examples.urljoin Examples.strptime_strftime
    Examples.fetch_dated Examples.one_link 2019 2020 usernames.

Definition two_stores : gmap string MediaStore :=
  Crawl.media_by_date_per_username (serial_crawl_of ["Jane"; "Doe"]).
End MoreExamples.

(** * Proofs *)

(** ** The fetcher *)
Section FetcherFacts.
Import Fetcher FetcherSpec.

Lemma make_request_unfold url outcome :
  make_request url outcome = attempts url outcome [0; 1; 2].
Proof. reflexivity. Qed.

Ltac run_attempts :=
  rewrite make_request_unfold; cbn [attempts];
  repeat match goal with
    | H : ?o = _ |- context [match ?o with _ => _ end] => rewrite H
    | |- context [match ?o with Response _ => _ | _ => _ end] =>
        destruct o eqn:?
    | |- context [if Py.contains ?t ?s then _ else _] =>
        destruct (Py.contains t s) eqn:?
    end; cbn.

Lemma timeouts_prefix url outcome :
  exists k : nat, (1 <= k <= 3)%nat /\
    timeouts (make_request url outcome).1 = take k [8; 13; 18].
Proof.
  run_attempts;
    first [ by exists 1%nat; split; [lia|]
          | by exists 2%nat; split; [lia|]
          | by exists 3%nat; split; [lia|] ].
Qed.

Lemma pause_after_failure url outcome (i : nat) text :
  (i < 3)%nat -> failed_before outcome i ->
  outcome (Z.of_nat i) = RequestException text ->
  sleep_after i (make_request url outcome).1 = actual_pause text (Z.of_nat i).
Proof.
  intros Hi Hbefore Hat. unfold actual_pause, is_503.
  destruct i as [|[|[|i]]]; [| | |lia].
  - change (outcome 0 = RequestException text) in Hat.
    run_attempts; reflexivity.
  - destruct (Hbefore 0%nat) as [t0 H0]; [lia|].
    change (outcome 0 = RequestException t0) in H0.
    change (outcome 1 = RequestException text) in Hat.
    run_attempts; reflexivity.
  - destruct (Hbefore 0%nat) as [t0 H0]; [lia|].
    destruct (Hbefore 1%nat) as [t1 H1]; [lia|].
    change (outcome 0 = RequestException t0) in H0.
    change (outcome 1 = RequestException t1) in H1.
    change (outcome 2 = RequestException text) in Hat.
    run_attempts; reflexivity.
Qed.

Lemma raises_after_three url outcome text :
  failed_before outcome 2 -> outcome 2 = RequestException text ->
  (make_request url outcome).2
  = ScraperError ("Failed for " +:+ url +:+ " after 3 attempts: " +:+ text).
Proof.
  intros Hbefore Hat.
  destruct (Hbefore 0%nat) as [t0 H0]; [lia|].
  destruct (Hbefore 1%nat) as [t1 H1]; [lia|].
  change (outcome 0 = RequestException t0) in H0.
  change (outcome 1 = RequestException t1) in H1.
  run_attempts; reflexivity.
Qed.

(** C6 (amended).  make_request makes at most three attempts, the i-th
    (from 0) with timeout 8 + 5*i seconds.  After a failed attempt it
    sleeps 10 seconds when the error text holds "503 Service
    Unavailable" (also after the last attempt) and then, unless the
    attempt was the last, a further attempt + 1 seconds: 10 + attempt + 1
    seconds lie between a 503 and the next attempt.  When the third
    attempt fails too it raises ScraperError with a message that names
    the URL and the three attempts. *)
Theorem make_request_retry_policy url outcome :
  (exists k : nat, (1 <= k <= 3)%nat /\
     timeouts (make_request url outcome).1 = take k [8; 13; 18]) /\
  (forall (i : nat) text,
     (i < 3)%nat -> failed_before outcome i ->
     outcome (Z.of_nat i) = RequestException text ->
     sleep_after i (make_request url outcome).1
     = (if is_503 text then 10 else 0)
       + (if Z.of_nat i <? 2 then Z.of_nat i + 1 else 0)) /\
  (forall text,
     failed_before outcome 2 -> outcome 2 = RequestException text ->
     (make_request url outcome).2
     = ScraperError ("Failed for " +:+ url +:+ " after 3 attempts: " +:+ text)).
Proof.
  split; [apply timeouts_prefix|]. split; [|apply raises_after_three].
  intros i text Hi Hbefore Hat.
  rewrite (pause_after_failure url outcome i text Hi Hbefore Hat).
  unfold actual_pause, MAX_RETRIES. f_equal.
  change (3 - 1) with 2. destruct (Z.of_nat i <? 2); lia.
Qed.

Lemma always_503_failed_before i : failed_before Examples.always_503 i.
Proof. intros j _. by eexists. Qed.

Lemma make_request_retry_policy_witness :
  sleep_after 1 (make_request "u" Examples.always_503).1 = 12 /\
  (make_request "u" Examples.always_503).2
  = ScraperError
      "Failed for u after 3 attempts: 503 Service Unavailable".
Proof.
  destruct (make_request_retry_policy "u" Examples.always_503)
    as (_ & Hpause & Hraise).
  split.
  - exact (Hpause 1%nat _ ltac:(lia) (always_503_failed_before 1) eq_refl).
  - exact (Hraise _ (always_503_failed_before 2) eq_refl).
Defined.

(** C6 as stated fails: after a 503 on the first attempt the call
    sleeps 11 seconds before the second attempt, not 10. *)
Lemma pause_after_503_is_not_ten :
  Examples.always_503 0
    = RequestException "503 Service Unavailable" /\
  sleep_after 0 (make_request "u" Examples.always_503).1 = 11 /\
  sleep_after 0 (make_request "u" Examples.always_503).1
    <> announced_pause "503 Service Unavailable" 0.
Proof. split; [reflexivity|]. split; [reflexivity|]. vm_compute. discriminate. Qed.
End FetcherFacts.

(** ** The range splitter of app.py *)
Lemma chained_app P l1 l2 :
  chained P l1 -> chained P l2 ->
  (forall a b, last l1 = Some a -> head l2 = Some b -> P a b) ->
  chained P (l1 ++ l2).
Proof.
  induction l1 as [|a [|b l1] IH]; intros H1 H2 Hj; cbn in *.
  - exact H2.
  - destruct l2 as [|c l2]; [exact I|]. split; [by apply Hj | exact H2].
  - destruct H1 as [Hab H1]. split; [exact Hab|].
    apply IH; [exact H1 | exact H2 | exact Hj].
Qed.

Section AppSplitter.
Import Calendar AppSpec.
Variable now : Z.
Variable probe : SearchUrl Z -> option Z.
Variable max_pages : Z.

Local Abbreviation split_url := (App.split_url now probe).
Local Abbreviation finalized := (finalized probe max_pages).
Local Abbreviation split_result := (split_result now probe max_pages).

Lemma split_url_unfold fuel url start_date end_date :
  split_url (S fuel) url start_date end_date max_pages =
  if start_date >=? end_date then Some [(url, start_date, end_date)]
  else
    let unsplit :=
      Some [(buffered_url now url start_date end_date,
             buffered_start start_date, buffered_end now end_date)] in
    match probe (buffered_url now url start_date end_date) with
    | None => unsplit
    | Some total_pages =>
        if total_pages <? max_pages then unsplit
        else if buffered_end now end_date - buffered_start start_date <=? 1
        then unsplit
        else
          let c1 := first_child now start_date end_date in
          let c2 := second_child now start_date end_date in
          match split_url fuel
                  (child_url now url start_date end_date c1) c1.1 c1.2 max_pages with
          | None => None
          | Some firsts =>
              match split_url fuel
                      (child_url now url start_date end_date c2) c2.1 c2.2 max_pages with
              | None => None
              | Some seconds => Some (firsts ++ seconds)
              end
          end
    end.
Proof. reflexivity. Qed.

Lemma buffered_start_spec s : buffered_start s = Z.max (s - 3) D2010.
Proof. unfold buffered_start. case_match; lia. Qed.

Lemma buffered_end_spec e : buffered_end now e = Z.min (e + 3) now.
Proof. unfold buffered_end. case_match; lia. Qed.

(** arithmetic of one bisection: both children are proper windows and
    lie inside the crawlable range *)
Lemma children_facts start_date end_date :
  2 <= buffered_end now end_date - buffered_start start_date ->
  let c1 := first_child now start_date end_date in
  let c2 := second_child now start_date end_date in
  let mid := mid_of now start_date end_date in
  buffered_start start_date < mid < buffered_end now end_date /\
  buffered_end now end_date <= now /\ D2010 <= buffered_start start_date /\
  c1.1 = buffered_start start_date /\ c1.2 = Z.min (mid + 3) now /\
  c2.1 = mid - 3 /\ c2.2 = buffered_end now end_date /\
  c1.1 < c1.2 /\ c2.1 < c2.2.
Proof.
  intros Hspan. cbn zeta. unfold first_child, second_child. cbn [fst snd].
  set (bs := buffered_start start_date) in *.
  set (be := buffered_end now end_date) in *.
  assert (Hbs : D2010 <= bs).
  { subst bs. unfold buffered_start. case_match; lia. }
  assert (Hbe : be <= now).
  { subst be. unfold buffered_end. case_match; lia. }
  assert (Hmid : bs < mid_of now start_date end_date < be).
  { unfold mid_of. fold bs be.
    assert (1 <= (be - bs) / 2) by (apply Z.div_le_lower_bound; lia).
    assert ((be - bs) / 2 < be - bs) by (apply Z.div_lt; lia). lia. }
  repeat case_match; lia.
Qed.

(** *** No base case is reached while the probe stays over the ceiling *)
Lemma split_url_no_base_case :
  always_over probe max_pages ->
  forall fuel url start_date end_date,
    start_date < end_date ->
    2 <= buffered_end now end_date - buffered_start start_date ->
    split_url fuel url start_date end_date max_pages = None.
Proof.
  intros Hover. induction fuel as [|fuel IH]; intros url s e Hlt Hspan;
    [reflexivity|].
  rewrite split_url_unfold.
  destruct (s >=? e) eqn:Hge; [lia|].
  destruct (Hover (buffered_url now url s e)) as (p & -> & Hp).
  destruct (p <? max_pages) eqn:Hpm; [lia|].
  destruct (buffered_end now e - buffered_start s <=? 1) eqn:Hd; [lia|].
  cbn zeta.
  destruct (children_facts s e Hspan)
    as (Hmid & Hnow & H2010 & Hc1s & Hc1e & Hc2s & Hc2e & Hc1 & Hc2).
  rewrite IH; [reflexivity|exact Hc1|].
  rewrite Hc1s, Hc1e, buffered_start_spec, buffered_end_spec.
  rewrite buffered_start_spec in Hmid. lia.
Qed.

(** the guard of app.py: a window of at most one buffered day is
    returned as it is *)
Lemma split_url_indivisible fuel url start_date end_date :
  start_date < end_date ->
  buffered_end now end_date - buffered_start start_date <= 1 ->
  split_url (S fuel) url start_date end_date max_pages
  = Some [(buffered_url now url start_date end_date,
           buffered_start start_date, buffered_end now end_date)].
Proof.
  intros Hlt Hspan. rewrite split_url_unfold.
  destruct (start_date >=? end_date) eqn:Hge; [lia|]. cbn zeta.
  destruct (probe _) as [p|]; [|done].
  destruct (p <? max_pages); [done|].
  destruct (_ <=? 1) eqn:Hd; [done|lia].
Qed.

(** *** What is returned *)
Lemma unsplit_result url s e :
  probe (buffered_url now url s e) = None \/
  (exists p, probe (buffered_url now url s e) = Some p /\ p < max_pages) \/
  buffered_end now e - buffered_start s <= 1 ->
  split_result (buffered_start s) (buffered_end now e)
    [(buffered_url now url s e, buffered_start s, buffered_end now e)].
Proof.
  intros Hfin. repeat split.
  - eexists. split; [reflexivity|]. cbn. lia.
  - eexists. split; [reflexivity|]. cbn. lia.
  - constructor; [|constructor]. split; [reflexivity|]. split; [reflexivity|].
    exact Hfin.
  - intros d Hd. eexists. split; [apply list_elem_of_here|]. exact Hd.
Qed.

Lemma split_url_result fuel :
  forall url s e l,
    s < e ->
    split_url fuel url s e max_pages = Some l ->
    split_result (buffered_start s) (buffered_end now e) l.
Proof.
  induction fuel as [|fuel IH]; intros url s e l Hlt Hrun; [discriminate|].
  rewrite split_url_unfold in Hrun.
  destruct (s >=? e) eqn:Hge; [lia|]. cbn zeta in Hrun.
  destruct (probe (buffered_url now url s e)) as [p|] eqn:Hprobe.
  2:{ inversion Hrun; subst l. apply unsplit_result. by left. }
  destruct (p <? max_pages) eqn:Hp.
  { inversion Hrun; subst l. apply unsplit_result. right; left.
    exists p. split; [done | lia]. }
  destruct (buffered_end now e - buffered_start s <=? 1) eqn:Hd.
  { inversion Hrun; subst l. apply unsplit_result. right; right. lia. }
  assert (Hspan : 2 <= buffered_end now e - buffered_start s) by lia.
  destruct (children_facts s e Hspan)
    as (Hmid & Hnow & H2010 & Hc1s & Hc1e & Hc2s & Hc2e & Hc1 & Hc2).
  set (c1 := first_child now s e) in *. set (c2 := second_child now s e) in *.
  set (mid := mid_of now s e) in *.
  destruct (split_url fuel _ c1.1 c1.2 max_pages)
    as [firsts|] eqn:H1; [|discriminate].
  destruct (split_url fuel _ c2.1 c2.2 max_pages)
    as [seconds|] eqn:H2; [|discriminate].
  inversion Hrun; subst l. clear Hrun.
  apply IH in H1 as ((f & Hf & Hfs) & (fl & Hfl & Hfe) & HF1 & Hcov1 & Hch1);
    [|exact Hc1].
  apply IH in H2 as ((g & Hg & Hgs) & (gl & Hgl & Hge') & HF2 & Hcov2 & Hch2);
    [|exact Hc2].
  rewrite buffered_start_spec in Hfs, Hgs.
  rewrite buffered_end_spec in Hfe, Hge'.
  destruct firsts as [|f0 firsts]; [discriminate|].
  destruct seconds as [|g0 seconds]; [discriminate|].
  repeat split.
  - exists f. split; [exact Hf | lia].
  - exists gl. rewrite last_app, Hgl. split; [reflexivity | lia].
  - apply Forall_app. by split.
  - intros d Hday. destruct (Z_le_gt_dec d c1.2) as [Hle|Hgt].
    + destruct (Hcov1 d) as (r & Hr & Hrd).
      { rewrite buffered_start_spec, buffered_end_spec. lia. }
      exists r. split; [|exact Hrd]. apply elem_of_app. by left.
    + destruct (Hcov2 d) as (r & Hr & Hrd).
      { rewrite buffered_start_spec, buffered_end_spec. lia. }
      exists r. split; [|exact Hrd]. apply elem_of_app. by right.
  - apply chained_app; [exact Hch1 | exact Hch2 |].
    intros a b Ha Hb. rewrite Hfl in Ha. rewrite Hg in Hb.
    inversion Ha; inversion Hb; subst a b.
    exists mid. split; [lia|]. split; lia.
Qed.
End AppSplitter.

(** ** The window generator *)

Section GeneratorFacts.
Import Calendar.

Lemma strptime_ordinal d o : strptime d = Some o -> o = toordinal d.
Proof. unfold strptime. destruct (valid d); by intros [= <-]. Qed.

(** what app.py does guarantee of a window it emits: its start is not
    after today, and not after its end *)
Lemma app_link_for_bounds now q tf year row l :
  App.link_for now q tf year row = Some l ->
  toordinal (link_start l) <= toordinal now /\
  toordinal (link_start l) <= toordinal (link_end l).
Proof.
  destruct row as [[sm sd] [em ed]]. unfold App.link_for. cbn [fst snd].
  destruct (strptime (mkDate _ sm sd)) as [start_dt|] eqn:Hs; [|done].
  destruct (strptime (mkDate _ em ed)) as [end_dt|] eqn:He; [|done].
  apply strptime_ordinal in Hs, He.
  destruct (start_dt >? toordinal now) eqn:Hfuture; [done|].
  destruct (start_dt >=? end_dt) eqn:Hge; [done|].
  intros [= <-]. unfold link_start, link_end. cbn [fst snd].
  destruct (end_dt >? toordinal now) eqn:Hclip; lia.
Qed.

Lemma app_generate_links_bounds now start_year end_year username title_only links l :
  App.generate_links now start_year end_year username title_only = Some links ->
  l ∈ links ->
  toordinal (link_start l) <= toordinal now /\
  toordinal (link_start l) <= toordinal (link_end l).
Proof.
  unfold App.generate_links. destruct (String.eqb username ""); [done|].
  intros [= <-] Hl. unfold App.links_between in Hl.
  apply list_elem_of_bind in Hl as (year & Hl & _).
  apply list_elem_of_omap in Hl as (row & _ & Hl).
  by eapply app_link_for_bounds.
Qed.
End GeneratorFacts.

(** ** The range splitter of bot.py *)
Section BotSplitter.
Import BotSpec.
Variable probe : SearchUrl Z -> option Z.

Local Abbreviation bot_finalized := (bot_finalized probe).
Local Abbreviation bot_split_result := (bot_split_result probe).

Lemma bot_finalized_default max_pages r :
  bot_finalized MAX_PAGES_PER_SEARCH r -> bot_finalized max_pages r.
Proof.
  intros [H|(p & Hp & Hlt)]; [by left|right]. exists p. split; [done|].
  right. by destruct Hlt.
Qed.

Lemma bot_split_url_result fuel :
  forall url s e max_pages l,
    Bot.split_url probe fuel url s e max_pages = Some l ->
    bot_split_result max_pages s e l.
Proof.
  induction fuel as [|fuel IH]; intros url s e max_pages l Hrun; [done|].
  cbn [Bot.split_url] in Hrun. cbn zeta in Hrun.
  destruct (probe url) as [p|] eqn:Hprobe.
  2:{ inversion Hrun; subst l. repeat split; try (by eexists).
      constructor; [by left|constructor]. }
  destruct (p <? max_pages) eqn:Hp.
  { inversion Hrun; subst l. repeat split; try (by eexists).
    constructor; [|constructor]. right. exists p. split; [done|]. left. lia. }
  destruct (Bot.split_url probe fuel _ s _ _) as [firsts|] eqn:H1; [|done].
  destruct (Bot.split_url probe fuel _ _ e _) as [seconds|] eqn:H2; [|done].
  inversion Hrun; subst l. clear Hrun.
  apply IH in H1 as ((f & Hf & Hfs) & (fl & Hfl & Hfe) & HF1 & Hch1).
  apply IH in H2 as ((g & Hg & Hgs) & (gl & Hgl & Hge) & HF2 & Hch2).
  destruct firsts as [|f0 firsts]; [done|].
  destruct seconds as [|g0 seconds]; [done|].
  repeat split.
  - by exists f.
  - exists gl. by rewrite last_app, Hgl.
  - apply Forall_app. split; eapply Forall_impl; eauto using bot_finalized_default.
  - apply chained_app; [done|done|].
    intros a b Ha Hb. rewrite Hfl in Ha. rewrite Hg in Hb.
    inversion Ha; inversion Hb; subst a b. unfold gap1. lia.
Qed.

(** bot.py has no base case but a probe under the ceiling *)
Lemma bot_split_url_no_base_case :
  (forall u, exists p, probe u = Some p /\ MAX_PAGES_PER_SEARCH <= p) ->
  forall fuel url s e max_pages,
    max_pages <= MAX_PAGES_PER_SEARCH ->
    Bot.split_url probe fuel url s e max_pages = None.
Proof.
  intros Hover. induction fuel as [|fuel IH]; intros url s e max_pages Hmax;
    [done|].
  cbn [Bot.split_url]. cbn zeta.
  destruct (Hover url) as (p & -> & Hp).
  destruct (p <? max_pages) eqn:Hlt; [lia|].
  by rewrite IH.
Qed.
End BotSplitter.

(** ** The claims on the windows *)
Section WindowClaims.
Import Calendar Examples.

(** C2.  split_url of app.py can call itself on the very window it was
    given: for the window 2010-01-01 .. 2010-01-10 the buffered window
    is 2010-01-01 .. 2010-01-13 (the start is clamped), its midpoint is
    2010-01-07, and the first child is 2010-01-01 .. 2010-01-10 again.
    If the site reports max_pages or more pages for the buffered window,
    no recursion depth suffices. *)
Theorem split_url_recurs_on_itself now probe max_pages fuel url p :
  D2010 + 12 <= now ->
  probe (mkUrl (q url) D2010 (D2010 + 12) (title_flag url)) = Some p ->
  max_pages <= p ->
  App.split_url now probe fuel url D2010 (D2010 + 9) max_pages = None.
Proof.
  intros Hnow Hprobe Hp. revert url Hprobe.
  induction fuel as [|fuel IH]; intros url Hprobe; [reflexivity|].
  rewrite split_url_unfold.
  assert (Hbs : AppSpec.buffered_start D2010 = D2010) by reflexivity.
  assert (Hbe : AppSpec.buffered_end now (D2010 + 9) = D2010 + 12).
  { unfold AppSpec.buffered_end. case_match; lia. }
  assert (Hmid : AppSpec.mid_of now D2010 (D2010 + 9) = D2010 + 6).
  { unfold AppSpec.mid_of. rewrite Hbs, Hbe.
    replace (D2010 + 12 - D2010) with 12 by lia. reflexivity. }
  assert (Hc1 : AppSpec.first_child now D2010 (D2010 + 9) = (D2010, D2010 + 9)).
  { unfold AppSpec.first_child. rewrite Hbs, Hmid. f_equal. case_match; lia. }
  assert (Hurl : AppSpec.buffered_url now url D2010 (D2010 + 9)
                 = mkUrl (q url) D2010 (D2010 + 12) (title_flag url)).
  { unfold AppSpec.buffered_url. by rewrite Hbs, Hbe. }
  destruct (D2010 >=? D2010 + 9) eqn:Hge; [lia|]. cbn zeta.
  rewrite Hurl, Hprobe, Hbs, Hbe.
  destruct (p <? max_pages) eqn:Hlt; [lia|].
  destruct (D2010 + 12 - D2010 <=? 1) eqn:Hd; [lia|].
  rewrite Hc1. cbn [fst snd]. rewrite IH; [reflexivity|].
  unfold AppSpec.child_url. rewrite Hurl. exact Hprobe.
Qed.

Lemma split_url_recurs_on_itself_witness :
  App.split_url today_ord ten_pages 1000 some_url D2010 (D2010 + 9) 10 = None.
Proof.
  apply (split_url_recurs_on_itself today_ord ten_pages 10 1000 some_url 10).
  - vm_compute. discriminate.
  - reflexivity.
  - lia.
Defined.

(** C4 (amended).  app.py: when split_url returns for a window with
    start < end, every returned window was probed under the ceiling, or
    spans at most one day, or its probe failed; the returned windows
    cover the buffered range from max(start - 3, 2010-01-01) to
    min(end + 3, now); and any two neighbours reach three days past a
    common midpoint, as far as 2010-01-01 and now allow.  bot.py: the
    window is not buffered, the returned windows start at start and end
    at end, each was probed under the ceiling or its probe failed, and
    any two neighbours leave the midpoint day between them uncovered. *)
Theorem split_url_windows :
  (forall now probe max_pages fuel url s e l,
     s < e ->
     App.split_url now probe fuel url s e max_pages = Some l ->
     AppSpec.split_result now probe max_pages
       (AppSpec.buffered_start s) (AppSpec.buffered_end now e) l) /\
  (forall probe max_pages fuel url s e l,
     Bot.split_url probe fuel url s e max_pages = Some l ->
     BotSpec.bot_split_result probe max_pages s e l).
Proof.
  split.
  - intros now probe max_pages fuel. apply split_url_result.
  - intros probe max_pages fuel url s e l. apply bot_split_url_result.
Qed.

Lemma split_url_windows_witness :
  (exists l,
     App.split_url today_ord busy_above_20 20 some_url jan13 feb03 10 = Some l /\
     List.length l = 5%nat /\
     AppSpec.split_result today_ord busy_above_20 10
       (AppSpec.buffered_start jan13) (AppSpec.buffered_end today_ord feb03) l) /\
  (exists l,
     Bot.split_url busy_above_10 20 (mkUrl "jane+doe" jan13 feb03 0)
       jan13 feb03 10 = Some l /\
     List.length l = 2%nat /\
     BotSpec.bot_split_result busy_above_10 10 jan13 feb03 l).
Proof.
  destruct split_url_windows as [Happ Hbot]. split.
  - destruct (App.split_url today_ord busy_above_20 20 some_url jan13 feb03 10)
      as [l|] eqn:E; [|vm_compute in E; discriminate].
    exists l. split; [reflexivity|]. split.
    + vm_compute in E. by inversion E.
    + eapply Happ; [|exact E]. vm_compute. reflexivity.
  - destruct (Bot.split_url busy_above_10 20 (mkUrl "jane+doe" jan13 feb03 0)
                jan13 feb03 10) as [l|] eqn:E; [|vm_compute in E; discriminate].
    exists l. split; [reflexivity|]. split.
    + vm_compute in E. by inversion E.
    + eapply Hbot. exact E.
Defined.

(** C4 as stated fails.  In app.py a window whose probe fails is
    returned though it is 27 days long and no page count is known; in
    bot.py the two halves of 2020-01-13 .. 2020-02-03 leave 2020-01-23
    uncovered. *)
Lemma split_url_unprobed_and_gapped :
  (exists r,
     App.split_url today_ord probe_fails 20 some_url jan13 feb03 10 = Some [r] /\
     ~ AppSpec.under_ceiling_or_indivisible probe_fails 10 r) /\
  (exists l,
     Bot.split_url busy_above_10 20 (mkUrl "jane+doe" jan13 feb03 0)
       jan13 feb03 10 = Some l /\
     ~ covers jan13 feb03 l).
Proof.
  split.
  - eexists. split; [vm_compute; reflexivity|].
    intros [(p & Hp & _)|Hspan]; [discriminate|].
    vm_compute in Hspan. by apply Hspan.
  - eexists. split; [vm_compute; reflexivity|].
    intros Hcov. destruct (Hcov (jan13 + 10)) as (r & Hr & Hd);
      [unfold jan13, feb03; lia|].
    repeat (apply elem_of_cons in Hr as [->|Hr]);
      [| |by apply elem_of_nil in Hr];
      unfold range_start, range_end, jan13 in Hd; cbn in Hd; lia.
Qed.

(** C5.  On 2024-06-13 app.py emits the window 2024-06-13 .. 2024-06-13
    for the table row ("06-13", "07-03"): the end is clipped to today,
    but the test start_dt >= end_dt still reads the end before
    clipping.  bot.py, which has no such test, does the same on
    2024-06-28 for the row ("06-28", "08-03"). *)
Theorem generate_links_emits_empty_window :
  (2024, mkUrl "jane+doe" today today 0, today, today)
    ∈ default [] (App.generate_links today 2024 2024 "jane doe" false) /\
  (2024, mkUrl "jane+doe" (mkDate 2024 6 28) (mkDate 2024 6 28) 0,
   mkDate 2024 6 28, mkDate 2024 6 28)
    ∈ default [] (Bot.generate_links (mkDate 2024 6 28) 2024 2024 "jane doe" false).
Proof.
  split; apply list_elem_of_In; vm_compute;
    repeat (first [left; reflexivity | right]).
Qed.
End WindowClaims.


(** ** The post extractor *)
Section ExtractorFacts.
Import Extractor ExtractorSpec.

Lemma get_set_eq {A} t (x : A) d : get t (set t x d) = x.
Proof. by destruct t. Qed.

Lemma get_set_ne {A} t t' (x : A) d : t <> t' -> get t' (set t x d) = get t' d.
Proof. by destruct t, t'. Qed.

Lemma record_seen t d src st :
  src ∈ get t (global_seen st) -> record t d src st = st.
Proof. intros H. unfold record. by rewrite decide_True. Qed.

Lemma record_fresh t d src st :
  src ∉ get t (global_seen st) ->
  record t d src st =
  mkState (set t ({[src]} ∪ get t (global_seen st)) (global_seen st))
    (set t (<[d := default [] (get t (media_by_date st) !! d) ++ [src]]>
              (get t (media_by_date st)))
       (media_by_date st)).
Proof.
  intros H. unfold record. rewrite decide_False by done. f_equal. f_equal.
  destruct (get t (media_by_date st) !! d) eqn:Hd.
  - by rewrite Hd.
  - rewrite lookup_insert_eq. cbn. by rewrite insert_insert_eq.
Qed.

Lemma record_all_app cs1 cs2 st :
  record_all (cs1 ++ cs2) st = record_all cs2 (record_all cs1 st).
Proof. apply foldl_app. Qed.

(** *** The seen-set only grows, and holds every recorded URL *)
Lemma record_seen_mono t d src st t' u :
  u ∈ get t' (global_seen st) -> u ∈ get t' (global_seen (record t d src st)).
Proof.
  intros Hu. destruct (decide (src ∈ get t (global_seen st))) as [Hin|Hout].
  - by rewrite record_seen.
  - rewrite record_fresh by done. cbn [global_seen media_by_date].
    destruct (decide (t = t')) as [->|Hne].
    + rewrite get_set_eq. set_solver.
    + by rewrite get_set_ne.
Qed.

Lemma record_seen_self t d src st :
  src ∈ get t (global_seen (record t d src st)).
Proof.
  destruct (decide (src ∈ get t (global_seen st))) as [Hin|Hout].
  - by rewrite record_seen.
  - rewrite record_fresh by done. cbn [global_seen media_by_date]. rewrite get_set_eq. set_solver.
Qed.

Lemma record_all_seen_mono cs st t u :
  u ∈ get t (global_seen st) -> u ∈ get t (global_seen (record_all cs st)).
Proof.
  revert st. induction cs as [|c cs IH]; intros st Hu; [done|].
  cbn. apply IH. by apply record_seen_mono.
Qed.

Lemma record_all_seen cs st c :
  c ∈ cs -> c.2 ∈ get c.1.1 (global_seen (record_all cs st)).
Proof.
  revert st. induction cs as [|c0 cs IH]; intros st Hc.
  - by apply elem_of_nil in Hc.
  - apply elem_of_cons in Hc as [->|Hc]; cbn.
    + apply record_all_seen_mono, record_seen_self.
    + by apply IH.
Qed.

(** *** Recording what has been seen changes nothing *)
Lemma record_all_noop cs st :
  (forall c, c ∈ cs -> c.2 ∈ get c.1.1 (global_seen st)) ->
  record_all cs st = st.
Proof.
  revert st. induction cs as [|c cs IH]; intros st Hall; [done|].
  cbn. rewrite record_seen by (apply Hall; left).
  apply IH. intros c' Hc'. apply Hall. by right.
Qed.

Lemma record_all_idempotent cs st :
  record_all cs (record_all cs st) = record_all cs st.
Proof. apply record_all_noop. intros c Hc. by apply record_all_seen. Qed.

(** *** What a store holds after recording *)
Lemma record_stored t d src st t' d' u :
  stored t' d' u (media_by_date (record t d src st)) ->
  stored t' d' u (media_by_date st) \/
  (t' = t /\ d' = d /\ u = src /\ src ∉ get t (global_seen st)).
Proof.
  destruct (decide (src ∈ get t (global_seen st))) as [Hin|Hout].
  { rewrite record_seen by done. by left. }
  rewrite record_fresh by done. cbn [global_seen media_by_date]. intros (l & Hl & Hu).
  destruct (decide (t = t')) as [<-|Hne].
  2:{ rewrite get_set_ne in Hl by done. left. by exists l. }
  rewrite get_set_eq in Hl.
  destruct (decide (d = d')) as [<-|Hdne].
  2:{ rewrite lookup_insert_ne in Hl by done. left. by exists l. }
  rewrite lookup_insert_eq in Hl. inversion Hl; subst l.
  apply elem_of_app in Hu as [Hu|Hu].
  - left. destruct (get t (media_by_date st) !! d) as [l0|] eqn:Hd.
    + by exists l0.
    + by apply elem_of_nil in Hu.
  - apply list_elem_of_singleton in Hu. by right.
Qed.

Lemma record_keeps t d src st t' d' u :
  stored t' d' u (media_by_date st) ->
  stored t' d' u (media_by_date (record t d src st)).
Proof.
  destruct (decide (src ∈ get t (global_seen st))) as [Hin|Hout].
  { by rewrite record_seen. }
  rewrite record_fresh by done. unfold stored.
  cbn [global_seen media_by_date]. intros (l & Hl & Hu).
  destruct (decide (t = t')) as [<-|Hne].
  2:{ rewrite get_set_ne by done. by exists l. }
  rewrite get_set_eq.
  destruct (decide (d = d')) as [<-|Hdne].
  2:{ rewrite lookup_insert_ne by done. by exists l. }
  rewrite lookup_insert_eq, Hl. eexists. split; [reflexivity|].
  apply elem_of_app. by left.
Qed.

Lemma record_all_stored cs st t d u :
  stored t d u (media_by_date (record_all cs st)) ->
  stored t d u (media_by_date st) \/
  ((t, d, u) ∈ cs /\ u ∉ get t (global_seen st)).
Proof.
  revert st. induction cs as [|c cs IH]; intros st Hs; [by left|].
  cbn in Hs. apply IH in Hs as [Hs|[Hc Hfresh]].
  - apply record_stored in Hs as [Hs|(-> & -> & -> & Hfresh)]; [by left|].
    right. split; [|done]. destruct c as [[? ?] ?]. left.
  - right. split; [by right|]. intros Hu. apply Hfresh.
    by apply record_seen_mono.
Qed.

(** *** Consistency is kept *)
Lemma record_consistent t d src st :
  consistent st -> consistent (record t d src st).
Proof.
  intros Hc. destruct (decide (src ∈ get t (global_seen st))) as [Hin|Hout].
  { by rewrite record_seen. }
  assert (Hnew : forall d0 l0, get t (media_by_date st) !! d0 = Some l0 -> src ∉ l0).
  { intros d0 l0 Hl0 Hsrc. apply Hout. by apply (Hc _ _ _ Hl0). }
  rewrite record_fresh by done. intros t0 d0 l. cbn [global_seen media_by_date].
  destruct (decide (t = t0)) as [<-|Hne].
  2:{ rewrite !get_set_ne by done. apply Hc. }
  rewrite !get_set_eq.
  set (m := get t (media_by_date st)) in *.
  assert (Hold : forall l0, default [] (m !! d) = l0 ->
            NoDup l0 /\ (forall u, u ∈ l0 -> u ∈ get t (global_seen st)) /\
            (src ∉ l0) /\
            (forall d' l' u, m !! d' = Some l' -> u ∈ l0 -> u ∈ l' -> d = d')).
  { intros l0 <-. destruct (m !! d) as [l1|] eqn:Hd; cbn.
    - destruct (Hc _ _ _ Hd) as (Hnd1 & Hseen1 & Huniq1).
      split; [done|]. split; [done|]. split; [by eapply Hnew|].
      intros d' l' u Hl' Hu Hu'. by eapply Huniq1.
    - split; [constructor|].
      split; [intros u Hu; by apply elem_of_nil in Hu|].
      split; [apply not_elem_of_nil|].
      intros d' l' u _ Hu. by apply elem_of_nil in Hu. }
  destruct (Hold _ eq_refl) as (Hnd & Hseen & Hsrc & Huniq).
  destruct (decide (d = d0)) as [<-|Hdne].
  - rewrite lookup_insert_eq. intros [= <-]. repeat split.
    + apply NoDup_app. split; [done|]. split; [|apply NoDup_singleton].
      intros u Hu Hu'. apply list_elem_of_singleton in Hu'. by subst u.
    + intros u Hu. apply elem_of_app in Hu as [Hu|Hu].
      * apply elem_of_union_r. by apply Hseen.
      * apply list_elem_of_singleton in Hu. subst u.
        apply elem_of_union_l, elem_of_singleton. reflexivity.
    + intros d' l' u Hl' Hu Hu'.
      destruct (decide (d = d')) as [|Hd']; [done|].
      rewrite lookup_insert_ne in Hl' by done.
      apply elem_of_app in Hu as [Hu|Hu]; [by eapply Huniq|].
      apply list_elem_of_singleton in Hu. subst u. by apply Hnew in Hl'.
  - rewrite lookup_insert_ne by done. intros Hl.
    destruct (Hc _ _ _ Hl) as (Hnd0 & Hseen0 & Huniq0). repeat split.
    + done.
    + intros u Hu. apply elem_of_union_r. by apply Hseen0.
    + intros d' l' u Hl' Hu Hu'.
      destruct (decide (d = d')) as [<-|Hd'].
      * rewrite lookup_insert_eq in Hl'. inversion Hl'; subst l'.
        apply elem_of_app in Hu' as [Hu'|Hu'].
        -- symmetry. by eapply Huniq.
        -- apply list_elem_of_singleton in Hu'. subst u. by apply Hnew in Hl.
      * rewrite lookup_insert_ne in Hl' by done. by eapply Huniq0.
Qed.

Lemma record_all_consistent cs st :
  consistent st -> consistent (record_all cs st).
Proof.
  revert st. induction cs as [|c cs IH]; intros st Hc; [done|].
  cbn. by apply IH, record_consistent.
Qed.
End ExtractorFacts.

Section ProcessPostFacts.
Import Extractor ExtractorSpec.
Variable urljoin : string -> string -> string.
Variable strptime_strftime : string -> option string.
Variable fetch : string -> option Document.

Local Abbreviation img_candidate := (img_candidate urljoin).
Local Abbreviation video_candidate := (video_candidate urljoin).
Local Abbreviation article_candidates := (article_candidates urljoin).
Local Abbreviation articles_candidates := (articles_candidates urljoin strptime_strftime).
Local Abbreviation post_candidates := (post_candidates urljoin strptime_strftime fetch).
Local Abbreviation process_post := (process_post urljoin strptime_strftime fetch).
Local Abbreviation post_date_of := (post_date_of strptime_strftime).

(** *** process_post is a sequence of [record] calls *)
Lemma omap_cons {A B} (f : A -> option B) x l :
  omap f (x :: l)
  = match f x with Some y => y :: omap f l | None => omap f l end.
Proof. reflexivity. Qed.

Lemma scan_imgs_records post_date srcs st :
  foldl (scan_img urljoin post_date) st srcs
  = record_all (omap (img_candidate post_date) srcs) st.
Proof.
  revert st. induction srcs as [|raw srcs IH]; intros st; [done|].
  cbn [foldl]. rewrite IH, omap_cons.
  unfold scan_img, ExtractorSpec.img_candidate.
  by destruct (unwanted "data:image" (resolve urljoin raw)).
Qed.

Lemma scan_videos_records post_date srcs st :
  foldl (scan_video urljoin post_date) st srcs
  = record_all (omap (video_candidate post_date) srcs) st.
Proof.
  revert st. induction srcs as [|raw srcs IH]; intros st; [done|].
  cbn [foldl]. rewrite IH, omap_cons.
  unfold scan_video, ExtractorSpec.video_candidate.
  by destruct (unwanted "data:" (resolve urljoin raw)).
Qed.

Lemma scan_article_records post_date a st :
  scan_article urljoin post_date a st
  = record_all (article_candidates post_date a) st.
Proof.
  unfold scan_article, ExtractorSpec.article_candidates.
  by rewrite !record_all_app, scan_imgs_records, !scan_videos_records.
Qed.

Lemma process_articles_records year start_year end_year arts st :
  process_articles urljoin strptime_strftime year start_year end_year arts st
  = record_all (articles_candidates year start_year end_year arts) st.
Proof.
  revert st. induction arts as [|article arts IH]; intros st; [done|].
  cbn [process_articles ExtractorSpec.articles_candidates].
  fold (post_date_of year article).
  destruct (outside_years start_year end_year (post_date_of year article));
    [apply IH|].
  destruct article as [a|]; [|done].
  by rewrite record_all_app, IH, scan_article_records.
Qed.

Lemma process_post_records post_link username start_year end_year st :
  process_post post_link username start_year end_year st
  = record_all (post_candidates post_link username start_year end_year) st.
Proof.
  unfold Extractor.process_post, ExtractorSpec.post_candidates, considered.
  destruct (fetch post_link) as [soup|]; [|done].
  destruct (title soup) as [| |text]; [|done|].
  - destruct (select_articles post_link soup) as [|a l] eqn:Hsel; [done|].
    destruct (title_matches _ _); apply process_articles_records.
  - destruct (select_articles post_link soup) as [|a l] eqn:Hsel.
    + by destruct (title_matches _ _).
    + destruct (title_matches _ _); apply process_articles_records.
Qed.
End ProcessPostFacts.

Section CandidateFacts.
Import Extractor ExtractorSpec.
Variable urljoin : string -> string -> string.
Variable strptime_strftime : string -> option string.
Variable fetch : string -> option Document.

Local Abbreviation article_candidates := (article_candidates urljoin).
Local Abbreviation articles_candidates :=
  (articles_candidates urljoin strptime_strftime).
Local Abbreviation post_candidates :=
  (post_candidates urljoin strptime_strftime fetch).
Local Abbreviation post_date_of := (post_date_of strptime_strftime).

Lemma article_candidates_inv post_date a t d u :
  (t, d, u) ∈ article_candidates post_date a ->
  d = post_date /\ unwanted (data_prefix t) u = false /\
  exists raw, u = resolve urljoin raw /\
    raw ∈ img_srcs a ++ video_srcs a ++ source_srcs a.
Proof.
  unfold ExtractorSpec.article_candidates.
  rewrite !elem_of_app, !list_elem_of_omap.
  intros [(raw & Hraw & Hc)|[(raw & Hraw & Hc)|(raw & Hraw & Hc)]].
  - unfold img_candidate in Hc.
    destruct (unwanted "data:image" (resolve urljoin raw)) eqn:Hun;
      [discriminate|].
    assert (Ht : data_prefix t = "data:image").
    { destruct (Py.endswith _ _); by inversion Hc. }
    rewrite Ht.
    assert (d = post_date /\ u = resolve urljoin raw) as [-> ->].
    { destruct (Py.endswith _ _); by inversion Hc. }
    split; [done|]. split; [done|]. exists raw. split; [done|].
    apply elem_of_app. by left.
  - unfold video_candidate in Hc.
    destruct (unwanted "data:" (resolve urljoin raw)) eqn:Hun;
      [discriminate|]. inversion Hc; subst t d u.
    split; [done|]. split; [done|]. exists raw. split; [done|].
    rewrite !elem_of_app. by right; left.
  - unfold video_candidate in Hc.
    destruct (unwanted "data:" (resolve urljoin raw)) eqn:Hun;
      [discriminate|]. inversion Hc; subst t d u.
    split; [done|]. split; [done|]. exists raw. split; [done|].
    rewrite !elem_of_app. by right; right.
Qed.

Lemma articles_candidates_inv year start_year end_year arts c :
  c ∈ articles_candidates year start_year end_year arts ->
  exists a, Some a ∈ arts /\
    outside_years start_year end_year (post_date_of year (Some a)) = false /\
    c ∈ article_candidates (post_date_of year (Some a)) a.
Proof.
  induction arts as [|article arts IH]; cbn [ExtractorSpec.articles_candidates].
  { intros H. by apply elem_of_nil in H. }
  destruct (outside_years start_year end_year (post_date_of year article)) eqn:Hout.
  { intros H. destruct (IH H) as (a & Ha & Hrest). exists a. split; [by right|done]. }
  destruct article as [a0|]; [|intros H; by apply elem_of_nil in H].
  intros H. apply elem_of_app in H as [H|H].
  - exists a0. split; [by left|]. by split.
  - destruct (IH H) as (a & Ha & Hrest). exists a. split; [by right|done].
Qed.

(** no article is None: nothing stops the loop early *)
Lemma articles_candidates_intro year start_year end_year arts a c :
  (forall x, x ∈ arts -> x <> None) ->
  Some a ∈ arts ->
  outside_years start_year end_year (post_date_of year (Some a)) = false ->
  c ∈ article_candidates (post_date_of year (Some a)) a ->
  c ∈ articles_candidates year start_year end_year arts.
Proof.
  intros Hsome Ha Hout Hc.
  induction arts as [|article arts IH]; [by apply elem_of_nil in Ha|].
  cbn [ExtractorSpec.articles_candidates].
  assert (Hrest : forall x, x ∈ arts -> x <> None).
  { intros x Hx. apply Hsome. by right. }
  apply elem_of_cons in Ha as [<-|Ha].
  - rewrite Hout. apply elem_of_app. by left.
  - destruct (outside_years _ _ (post_date_of year article)); [by apply IH|].
    destruct article as [a0|]; [|by destruct (Hsome None); [left|]].
    apply elem_of_app. right. by apply IH.
Qed.

Lemma find_article_inv post_id soup a :
  find_article post_id soup = Some a ->
  a ∈ articles soup /\
  data_content a = Some ("post-" +:+ post_id) /\
  art_id a = Some ("js-post-" +:+ post_id).
Proof.
  unfold find_article. intros H. apply find_some in H as [Hin Hp].
  apply andb_prop in Hp as [H1 H2].
  apply bool_decide_eq_true_1 in H1, H2.
  split; [by apply list_elem_of_In|done].
Qed.

Lemma select_articles_inv post_link soup a :
  Some a ∈ select_articles post_link soup -> a ∈ articles soup.
Proof.
  unfold select_articles. destruct (search_post_id post_link) as [post_id|].
  - intros H. apply list_elem_of_singleton in H. symmetry in H.
    by apply find_article_inv in H as [? _].
  - intros H. apply list_elem_of_fmap in H as (a' & [= ->] & Ha). done.
Qed.

Lemma considered_inv post_link username soup a :
  Some a ∈ considered post_link username soup ->
  Some a ∈ select_articles post_link soup.
Proof.
  unfold considered.
  destruct (title soup); [|intros H; by apply elem_of_nil in H|];
    destruct (title_matches _ _); try done;
    intros H; apply list_elem_of_In, filter_In in H as [H _];
    by apply list_elem_of_In.
Qed.

Lemma considered_some post_link username soup x :
  (forall y, y ∈ select_articles post_link soup -> y <> None) ->
  x ∈ considered post_link username soup -> x <> None.
Proof.
  intros Hall. unfold considered.
  destruct (title soup); [|intros H; by apply elem_of_nil in H|];
    destruct (title_matches _ _); try (by apply Hall);
    intros H; apply list_elem_of_In, filter_In in H as [H _];
    by apply Hall, list_elem_of_In.
Qed.

(** which tag a candidate of a media type comes from *)
Lemma article_candidates_kind post_date a t d u :
  (t, d, u) ∈ article_candidates post_date a ->
  match t with
  | Videos =>
      exists raw, raw ∈ video_srcs a ++ source_srcs a /\ u = resolve urljoin raw
  | Gifs =>
      Py.endswith (Py.lower u) ".gif" = true /\
      exists raw, raw ∈ img_srcs a /\ u = resolve urljoin raw
  | Images =>
      Py.endswith (Py.lower u) ".gif" = false /\
      exists raw, raw ∈ img_srcs a /\ u = resolve urljoin raw
  end.
Proof.
  unfold article_candidates.
  rewrite !elem_of_app, !list_elem_of_omap.
  intros [(raw & Hraw & Hc)|[(raw & Hraw & Hc)|(raw & Hraw & Hc)]].
  - unfold img_candidate in Hc.
    destruct (unwanted "data:image" (resolve urljoin raw)); [done|].
    destruct (Py.endswith _ _) eqn:Hgif; inversion Hc; subst t d u;
      (split; [done|]); by exists raw.
  - unfold video_candidate in Hc.
    destruct (unwanted "data:" (resolve urljoin raw)); [done|].
    inversion Hc; subst t d u. exists raw. split; [|done].
    apply elem_of_app. by left.
  - unfold video_candidate in Hc.
    destruct (unwanted "data:" (resolve urljoin raw)); [done|].
    inversion Hc; subst t d u. exists raw. split; [|done].
    apply elem_of_app. by right.
Qed.

Lemma post_candidates_inv post_link username start_year end_year t d u :
  (t, d, u) ∈ post_candidates post_link username start_year end_year ->
  exists soup a,
    fetch post_link = Some soup /\
    Some a ∈ select_articles post_link soup /\
    d = post_date_of (default end_year (search_newer_than post_link)) (Some a) /\
    outside_years start_year end_year d = false /\
    unwanted (data_prefix t) u = false /\
    exists raw, u = resolve urljoin raw /\
      raw ∈ img_srcs a ++ video_srcs a ++ source_srcs a.
Proof.
  unfold ExtractorSpec.post_candidates.
  destruct (fetch post_link) as [soup|]; [|intros H; by apply elem_of_nil in H].
  intros H. apply articles_candidates_inv in H as (a & Ha & Hout & Hc).
  apply article_candidates_inv in Hc as (-> & Hun & Hraw).
  exists soup, a. split; [done|]. split; [by eapply considered_inv|].
  split; [done|]. split; [done|]. by split.
Qed.
End CandidateFacts.

Section ExtractorClaims.
Import Extractor ExtractorSpec.
Variable urljoin : string -> string -> string.
Variable strptime_strftime : string -> option string.
Variable fetch : string -> option Document.

Local Abbreviation post_candidates :=
  (post_candidates urljoin strptime_strftime fetch).
Local Abbreviation process_post :=
  (process_post urljoin strptime_strftime fetch).
Local Abbreviation post_date_of := (post_date_of strptime_strftime).

Lemma consistent_empty : consistent (mkState no_seen no_media).
Proof.
  intros t d l H.
  destruct t; cbn [get media_by_date no_media images gifs videos] in H;
    by rewrite lookup_empty in H.
Qed.

(** a newly stored URL is a candidate of the post, fresh to the seen-set *)
Lemma process_post_stored post_link username start_year end_year st t d u :
  stored t d u (media_by_date (process_post post_link username start_year end_year st)) ->
  stored t d u (media_by_date st) \/
  ((t, d, u) ∈ post_candidates post_link username start_year end_year /\
   u ∉ get t (global_seen st)).
Proof. rewrite process_post_records. apply record_all_stored. Qed.

Lemma process_post_seen_mono post_link username start_year end_year st t u :
  u ∈ get t (global_seen st) ->
  u ∈ get t (global_seen (process_post post_link username start_year end_year st)).
Proof. rewrite process_post_records. apply record_all_seen_mono. Qed.

Lemma process_post_consistent post_link username start_year end_year st :
  consistent st ->
  consistent (process_post post_link username start_year end_year st).
Proof. rewrite process_post_records. apply record_all_consistent. Qed.

(** process_post never files a URL that holds a denylisted substring,
    nor one that starts with the data-URI prefix tested for its carrier *)
Lemma process_post_rejects_unwanted post_link username start_year end_year st t d u :
  stored t d u (media_by_date (process_post post_link username start_year end_year st)) ->
  ~ stored t d u (media_by_date st) ->
  Py.startswith u (data_prefix t) = false /\
  Py.contains u "addonflare/awardsystem/icons/" = false /\
  forall keyword, keyword ∈ keywords ->
    Py.contains (Py.lower u) keyword = false.
Proof.
  intros Hs Hnew. apply process_post_stored in Hs as [Hs|[Hc _]]; [done|].
  apply post_candidates_inv in Hc as (_ & _ & _ & _ & _ & _ & Hun & _).
  unfold unwanted in Hun.
  apply orb_false_elim in Hun as [Hun Hkw].
  apply orb_false_elim in Hun as [Hdata Hicons].
  split; [done|]. split; [done|]. intros keyword Hk.
  apply list_elem_of_In in Hk.
  destruct (Py.contains (Py.lower u) keyword) eqn:Hc; [|done].
  assert (existsb (fun keyword => Py.contains (Py.lower u) keyword) keywords = true)
    by (apply existsb_exists; eauto).
  congruence.
Qed.
End ExtractorClaims.

Section ExtractorTheorems.
Import Extractor ExtractorSpec.
Variable urljoin : string -> string -> string.
Variable strptime_strftime : string -> option string.
Variable fetch : string -> option Document.

Local Abbreviation post_candidates :=
  (post_candidates urljoin strptime_strftime fetch).
Local Abbreviation process_post :=
  (process_post urljoin strptime_strftime fetch).

(** C7 (amended).  A media item process_post adds is filed under the
    date of its own article: the URL is the resolved src of a tag of an
    article of the fetched page (an img tag for images and gifs, a
    video or source tag for videos), and the date is the one
    extract_post_date reads from the time tag of that article when
    there is one, and otherwise "{year}-01-01", where year is the four
    digits after c[newer_than]= in the post link if the link has such a
    parameter, and end_year if it has none. *)
Theorem stored_date_rule post_link username start_year end_year st t d u :
  stored t d u
    (media_by_date (process_post post_link username start_year end_year st)) ->
  stored t d u (media_by_date st) \/
  exists soup a raw,
    fetch post_link = Some soup /\ a ∈ articles soup /\
    raw ∈ match t with
          | Videos => video_srcs a ++ source_srcs a
          | Images | Gifs => img_srcs a
          end /\
    u = resolve urljoin raw /\
    d = py_or (extract_post_date strptime_strftime (Some a))
          (Py.str (default end_year (search_newer_than post_link)) +:+ "-01-01").
Proof.
  intros Hs.
  apply process_post_stored in Hs as [Hs|[Hc _]]; [by left|right].
  unfold ExtractorSpec.post_candidates in Hc.
  destruct (fetch post_link) as [soup|] eqn:Hfetch;
    [|by apply elem_of_nil in Hc].
  apply articles_candidates_inv in Hc as (a & Ha & _ & Hc).
  apply considered_inv, select_articles_inv in Ha.
  pose proof (article_candidates_inv urljoin _ _ _ _ _ Hc) as (Hd & _).
  apply article_candidates_kind in Hc.
  assert (exists raw,
            raw ∈ match t with
                  | Videos => video_srcs a ++ source_srcs a
                  | Images | Gifs => img_srcs a
                  end /\ u = resolve urljoin raw) as (raw & Hraw & Hu).
  { destruct t; [destruct Hc as (_ & raw & ? & ?)..|destruct Hc as (raw & ? & ?)];
      by exists raw. }
  by exists soup, a, raw.
Qed.

(** C8.  Running process_post again on the state its first run left
    changes nothing, and a consistent state (duplicate-free lists, no
    URL under two dates of a media type, every stored URL seen) stays
    consistent through both runs. *)
Theorem process_post_idempotent post_link username start_year end_year st :
  consistent st ->
  let st1 := process_post post_link username start_year end_year st in
  let st2 := process_post post_link username start_year end_year st1 in
  st2 = st1 /\ consistent st1 /\
  forall t d l, get t (media_by_date st2) !! d = Some l -> NoDup l.
Proof.
  intros Hc st1 st2. subst st2 st1.
  rewrite !process_post_records, record_all_idempotent.
  split; [done|]. split; [by apply record_all_consistent|].
  intros t d l Hl.
  by apply (record_all_consistent _ _ Hc) in Hl as [Hnd _].
Qed.

(** soup.find returns the first article that has both attributes *)
Lemma find_article_first post_id soup pre a post :
  articles soup = pre ++ a :: post ->
  names_post post_id a ->
  (forall b, b ∈ pre -> ~ names_post post_id b) ->
  find_article post_id soup = Some a.
Proof.
  intros Harts [Hc Hi] Hpre. unfold find_article. rewrite Harts. clear Harts.
  induction pre as [|b pre IH]; cbn [app find].
  - by rewrite Hc, Hi, !bool_decide_eq_true_2.
  - destruct (bool_decide _ && bool_decide _) eqn:E.
    + apply andb_prop in E as [E1%bool_decide_eq_true_1 E2%bool_decide_eq_true_1].
      destruct (Hpre b); [by left|by split].
    + apply IH. intros b' Hb'. apply Hpre. by right.
Qed.

Lemma find_article_none post_id soup :
  (forall b, b ∈ articles soup -> ~ names_post post_id b) ->
  find_article post_id soup = None.
Proof.
  intros Hall. unfold find_article.
  destruct (find _ (articles soup)) as [a|] eqn:E; [|done].
  apply find_some in E as [Hin Hp].
  apply andb_prop in Hp as [E1%bool_decide_eq_true_1 E2%bool_decide_eq_true_1].
  destruct (Hall a); [by apply list_elem_of_In|by split].
Qed.

(** C10.  With a post-<digits> marker in the link, process_post works
    on one article only, the first article of the page whose
    data-content is post-<digits> and whose id is js-post-<digits>:
    what it records are the candidates of that article, if the article
    passes the title or author test and the year test, and nothing
    otherwise, whatever the other articles of the page hold; when no
    article has the two attributes nothing is recorded.  Without a
    marker every article of the page that passes the title or author
    test and the year test has all its candidates recorded as seen. *)
Theorem post_marker_selects_article post_link username start_year end_year st soup :
  fetch post_link = Some soup ->
  (forall post_id, search_post_id post_link = Some post_id ->
     (forall pre a post,
        articles soup = pre ++ a :: post ->
        names_post post_id a ->
        (forall b, b ∈ pre -> ~ names_post post_id b) ->
        let post_date :=
          post_date_of strptime_strftime
            (default end_year (search_newer_than post_link)) (Some a) in
        process_post post_link username start_year end_year st
        = record_all
            (if passes username soup start_year end_year post_date a
             then article_candidates urljoin post_date a else [])
            st) /\
     ((forall b, b ∈ articles soup -> ~ names_post post_id b) ->
      process_post post_link username start_year end_year st = st)) /\
  (search_post_id post_link = None ->
   forall a c,
     title soup <> NoHeading ->
     a ∈ articles soup ->
     title_matches (page_title soup) (Py.lower username) = true \/
     article_matches (Py.lower username) (Some a) = true ->
     let post_date :=
       post_date_of strptime_strftime
         (default end_year (search_newer_than post_link)) (Some a) in
     outside_years start_year end_year post_date = false ->
     c ∈ article_candidates urljoin post_date a ->
     c.2 ∈ get c.1.1
       (global_seen (process_post post_link username start_year end_year st))).
Proof.
  intros Hfetch. split.
  - intros post_id Hid. split.
    + intros pre a post Harts Ha Hpre post_date.
      rewrite process_post_records.
      unfold ExtractorSpec.post_candidates, considered, passes, page_title.
      rewrite Hfetch. unfold select_articles. rewrite Hid.
      rewrite (find_article_first post_id soup pre a post Harts Ha Hpre).
      destruct (title soup) as [| |text]; [|done|];
        cbn [andb];
        destruct (title_matches _ (Py.lower username)); cbn [orb List.filter];
        try destruct (article_matches (Py.lower username) (Some a));
        cbn [andb ExtractorSpec.articles_candidates]; fold post_date;
        destruct (outside_years start_year end_year post_date);
        cbn [negb]; by rewrite ?app_nil_r.
    + intros Hnone. rewrite process_post_records.
      unfold ExtractorSpec.post_candidates, considered.
      rewrite Hfetch. unfold select_articles. rewrite Hid.
      rewrite (find_article_none post_id soup Hnone).
      destruct (title soup) as [| |text]; [|done|];
        destruct (title_matches _ (Py.lower username));
        cbn [List.filter article_matches];
        cbn [ExtractorSpec.articles_candidates];
        try destruct (outside_years _ _ _); done.
  - intros Hid a c Htitle Ha Hmatch post_date Hout Hc.
    rewrite process_post_records. apply record_all_seen.
    unfold ExtractorSpec.post_candidates. rewrite Hfetch.
    assert (Hsel : select_articles post_link soup = Some <$> articles soup).
    { unfold select_articles. by rewrite Hid. }
    apply (articles_candidates_intro _ _ _ _ _ _ a); [| |done|done].
    + intros x Hx. apply considered_some in Hx; [done|].
      rewrite Hsel. intros y Hy.
      by apply list_elem_of_fmap in Hy as (? & -> & _).
    + unfold considered, page_title in *.
      destruct (title soup) as [| |text]; [|done|];
        destruct (title_matches _ _) eqn:Htm; rewrite Hsel;
        try (by apply list_elem_of_fmap_2);
        destruct Hmatch as [?|Hm]; try done;
        apply list_elem_of_In, filter_In; (split; [|done]);
        by apply list_elem_of_In, list_elem_of_fmap_2.
Qed.
End ExtractorTheorems.

(** ** The crawl loop *)
Section WorkerFacts.
Import Extractor ExtractorSpec Crawl CrawlSpec.

Lemma set_set {A} t (x y : A) d : set t x (set t y d) = set t x d.
Proof. by destruct t. Qed.

Lemma get_put_list_eq t d l st :
  get t (media_by_date (put_list t d l st)) = <[d := l]> (get t (media_by_date st)).
Proof. unfold put_list. cbn [media_by_date]. by rewrite get_set_eq. Qed.

Lemma get_put_list_ne t t' d l st :
  t <> t' ->
  get t' (media_by_date (put_list t d l st)) = get t' (media_by_date st).
Proof. intros H. unfold put_list. cbn [media_by_date]. by rewrite get_set_ne. Qed.

Lemma put_list_put_list t d l l' st :
  put_list t d l' (put_list t d l st) = put_list t d l' st.
Proof.
  unfold put_list. cbn [media_by_date global_seen].
  by rewrite get_set_eq, set_set, insert_insert_eq.
Qed.

(** *** A block run without interruption is [record] *)
Lemma resume_check t d src st :
  resume (t, d, src) CheckSeen st = (record t d src st, true).
Proof.
  unfold resume, record.
  destruct (decide (src ∈ get t (global_seen st))); [done|].
  change (get t (media_by_date (add_seen t src st)))
    with (get t (media_by_date st)).
  destruct (get t (media_by_date st) !! d) as [l|] eqn:Hl.
  - by rewrite Hl.
  - rewrite get_put_list_eq, lookup_insert_eq.
    rewrite put_list_put_list. unfold put_list, add_seen.
    cbn [media_by_date global_seen]. by rewrite lookup_insert_eq, insert_insert_eq.
Qed.

Lemma finish_fresh cands st :
  finish (mkWorker cands CheckSeen) st = record_all cands st.
Proof.
  unfold finish. cbn [todo pc]. destruct cands as [|[[t d] src] rest]; [done|].
  by rewrite resume_check.
Qed.

(** a step of a worker does not change what the rest of its call does
    when nobody else runs *)
Lemma finish_work w st w' st' :
  work w st = Some (w', st') -> finish w' st' = finish w st.
Proof.
  unfold work. destruct w as [[|[[t d] src] rest] pc]; cbn [todo Crawl.pc]; [done|].
  intros [= Hstep].
  assert (forall st1, finish (mkWorker rest CheckSeen) st1 = record_all rest st1)
    as Hrest by (intros; apply finish_fresh).
  destruct pc.
  - destruct (decide (src ∈ get t (global_seen st))) as [Hin|Hout];
      inversion Hstep; subst w' st'.
    + rewrite Hrest. unfold finish, resume; cbn [todo Crawl.pc].
      by rewrite decide_True.
    + unfold finish, resume; cbn [todo Crawl.pc]. by rewrite decide_False.
  - inversion Hstep; subst w' st'. unfold finish, resume; cbn [todo Crawl.pc]. done.
  - destruct (get t (media_by_date st) !! d) as [l|] eqn:Hl;
      inversion Hstep; subst w' st'; unfold finish, resume; cbn [todo Crawl.pc];
      by rewrite Hl.
  - inversion Hstep; subst w' st'. unfold finish, resume; cbn [todo Crawl.pc]. done.
  - destruct (get t (media_by_date st) !! d) as [l|] eqn:Hl;
      inversion Hstep; subst w' st'.
    + rewrite Hrest. unfold finish, resume; cbn [todo Crawl.pc]. by rewrite Hl.
    + unfold finish, resume; cbn [todo Crawl.pc]. by rewrite Hl.
Qed.

Lemma work_none w st : work w st = None -> finish w st = st.
Proof. unfold work, finish. by destruct (todo w) as [|[[t d] src] rest]. Qed.

(** *** What a step does to the shared objects *)
Lemma stored_put_list t d l st t' d' u :
  stored t' d' u (media_by_date (put_list t d l st)) <->
  (t' = t /\ d' = d /\ u ∈ l) \/
  (~ (t' = t /\ d' = d) /\ stored t' d' u (media_by_date st)).
Proof.
  unfold stored. destruct (decide (t = t')) as [<-|Ht].
  - rewrite get_put_list_eq. destruct (decide (d = d')) as [<-|Hd].
    + rewrite lookup_insert_eq. split.
      * intros (l' & [= <-] & Hu). by left.
      * intros [(_ & _ & Hu)|[Hn _]]; [by exists l|by destruct Hn].
    + rewrite lookup_insert_ne by done. split.
      * intros H. right. split; [by intros [_ ?]|done].
      * intros [(_ & ? & _)|[_ H]]; [done|done].
  - rewrite get_put_list_ne by done. split.
    + intros H. right. split; [by intros [? _]|done].
    + intros [(? & _ & _)|[_ H]]; [done|done].
Qed.

Lemma work_seen_mono w st w' st' t u :
  work w st = Some (w', st') ->
  u ∈ get t (global_seen st) -> u ∈ get t (global_seen st').
Proof.
  unfold work. destruct w as [[|[[t0 d] src] rest] pc]; cbn [todo Crawl.pc]; [done|].
  intros [= Hstep] Hu. destruct pc.
  - by destruct (decide _); inversion Hstep; subst.
  - inversion Hstep; subst w' st'. unfold add_seen. cbn [global_seen].
    destruct (decide (t0 = t)) as [->|Hne].
    + rewrite get_set_eq. apply elem_of_union. by right.
    + by rewrite get_set_ne.
  - by destruct (_ !! d); inversion Hstep; subst.
  - by inversion Hstep; subst.
  - by destruct (_ !! d); inversion Hstep; subst.
Qed.

(** the worker passes on what it knows to its next step *)
Lemma work_keeps_worker_ok st0 w st w' st' :
  (forall t, get t (global_seen st0) ⊆ get t (global_seen st)) ->
  work w st = Some (w', st') ->
  worker_ok st0 st w -> worker_ok st0 st' w'.
Proof.
  intros Hmono. unfold work.
  destruct w as [[|[[t d] src] rest] pc]; cbn [todo Crawl.pc]; [done|].
  intros [= Hstep] Hok. unfold worker_ok in *. cbn [todo Crawl.pc] in *.
  destruct pc.
  - destruct (decide (src ∈ get t (global_seen st))) as [Hin|Hout];
      inversion Hstep; subst w' st'; cbn [todo Crawl.pc].
    + by destruct rest as [|[[? ?] ?] ?].
    + intros H0. by apply Hout, Hmono.
  - inversion Hstep; subst w' st'. cbn [todo Crawl.pc]. split; [done|].
    unfold add_seen. cbn [global_seen]. rewrite get_set_eq.
    apply elem_of_union. left. by apply elem_of_singleton.
  - by destruct (_ !! d); inversion Hstep; subst w' st'.
  - by inversion Hstep; subst w' st'.
  - destruct (_ !! d); inversion Hstep; subst w' st'; cbn [todo Crawl.pc];
      [by destruct rest as [|[[? ?] ?] ?]|done].
Qed.

(** what another worker knows stays true *)
Lemma work_keeps_other_ok st0 w st w' st' w2 :
  work w st = Some (w', st') ->
  worker_ok st0 st w2 -> worker_ok st0 st' w2.
Proof.
  intros Hstep. unfold worker_ok.
  destruct (todo w2) as [|[[t d] src] rest]; [done|].
  destruct (pc w2); try done;
    intros [H0 Hs]; (split; [done|]); by eapply work_seen_mono.
Qed.

(** what is stored after a step of a worker that is as above *)
Lemma work_stored st0 w st w' st' t d u :
  work w st = Some (w', st') -> worker_ok st0 st w ->
  stored t d u (media_by_date st') ->
  stored t d u (media_by_date st) \/
  ((u ∉ get t (global_seen st0)) /\ (u ∈ get t (global_seen st))).
Proof.
  unfold work. destruct w as [[|[[t0 d0] src] rest] pc]; cbn [todo Crawl.pc]; [done|].
  intros [= Hstep] Hok Hs. unfold worker_ok in Hok. cbn [todo Crawl.pc] in Hok.
  destruct pc.
  - destruct (decide _); inversion Hstep; subst; by left.
  - inversion Hstep; subst. by left.
  - destruct (_ !! d0); inversion Hstep; subst; by left.
  - inversion Hstep; subst w' st'.
    apply stored_put_list in Hs as [(_ & _ & Hu)|[_ Hs]];
      [by apply elem_of_nil in Hu|by left].
  - destruct (get t0 (media_by_date st) !! d0) as [l|] eqn:Hl;
      inversion Hstep; subst w' st'; [|by left].
    apply stored_put_list in Hs as [(-> & -> & Hu)|[_ Hs]]; [|by left].
    apply elem_of_app in Hu as [Hu|Hu%list_elem_of_singleton].
    + left. by exists l.
    + subst u. by right.
Qed.
End WorkerFacts.

Section PoolFacts.
Import Extractor ExtractorSpec Crawl CrawlSpec.
Variable urljoin : string -> string -> string.
Variable strptime_strftime : string -> option string.
Variable fetch : string -> option Document.
Variable all_post_links : string -> list string.
Variables start_year end_year : Z.
Variable max_workers : nat.

Local Abbreviation process_post :=
  (process_post urljoin strptime_strftime fetch).
Local Abbreviation start_worker :=
  (start_worker urljoin strptime_strftime fetch start_year end_year).
Local Abbreviation step :=
  (step urljoin strptime_strftime fetch start_year end_year max_workers).
Local Abbreviation run :=
  (run urljoin strptime_strftime fetch start_year end_year max_workers).
Local Abbreviation phase :=
  (phase urljoin strptime_strftime fetch all_post_links start_year end_year
     max_workers).
Local Abbreviation phases :=
  (phases urljoin strptime_strftime fetch all_post_links start_year end_year
     max_workers).
Local Abbreviation crawl :=
  (crawl urljoin strptime_strftime fetch all_post_links start_year end_year
     max_workers).

(** *** What every interleaving keeps *)
Lemma step_keeps_pool_ok username a p p' st0 :
  step username a p = Some p' -> pool_ok st0 p -> pool_ok st0 p'.
Proof.
  intros Hstep (Hmono & Hstored & Hworkers).
  destruct a as [link| |i|i]; cbn [Crawl.step] in Hstep.
  - injection Hstep as <-. split; [done|]. split; [done|].
    cbn [post_futures shared]. intros i link' w Hi.
    apply lookup_app_Some in Hi as [Hi|[_ Hi]]; [by eapply Hworkers|].
    by apply list_lookup_singleton_Some in Hi as [_ ?].
  - destruct (list_find _ _) as [[i [link f]]|]; [|done].
    destruct (decide _); [|done]. injection Hstep as <-.
    split; [done|]. split; [done|].
    cbn [set_future post_futures shared]. intros j link' w Hj.
    apply list_lookup_insert_Some in Hj as [(_ & [= _ <-] & _)|[_ Hj]];
      [|by eapply Hworkers].
    unfold worker_ok, Crawl.start_worker. cbn [todo pc].
    by destruct (post_candidates _ _ _ _ _ _ _) as [|[[? ?] ?] ?].
  - destruct (post_futures p !! i) as [[link [|w| |]]|] eqn:Hi; try done.
    pose proof (Hworkers i link w Hi) as Hw.
    destruct (work w (shared p)) as [[w' st']|] eqn:Hwork;
      injection Hstep as <-.
    + split; [|split]; cbn [post_futures shared].
      * intros t u Hu. eapply work_seen_mono; [done|]. by apply Hmono.
      * intros t d u Hs.
        destruct (work_stored _ _ _ _ _ _ _ _ Hwork Hw Hs) as [Hold|[Hnew Hseen]].
        -- destruct (Hstored t d u Hold) as [Hin Hwhere].
           split; [by eapply work_seen_mono|done].
        -- split; [by eapply work_seen_mono|by right].
      * intros j link' w2 Hj.
        apply list_lookup_insert_Some in Hj as [(_ & [= _ <-] & _)|[_ Hj]].
        -- by eapply work_keeps_worker_ok.
        -- eapply work_keeps_other_ok; [done|]. by eapply Hworkers.
    + split; [done|]. split; [done|].
      cbn [set_future post_futures shared]. intros j link' w2 Hj.
      apply list_lookup_insert_Some in Hj as [(_ & [=] & _)|[_ Hj]].
      by eapply Hworkers.
  - destruct (post_futures p !! i) as [[link [|w| |]]|] eqn:Hi; try done.
    injection Hstep as <-. split; [done|]. split; [done|].
    cbn [post_futures shared]. intros j link' w2 Hj.
    apply list_lookup_insert_Some in Hj as [(_ & [=] & _)|[_ Hj]].
    by eapply Hworkers.
Qed.

Lemma run_keeps_pool_ok username schedule : forall p p' st0,
  run username schedule p = Some p' -> pool_ok st0 p -> pool_ok st0 p'.
Proof.
  induction schedule as [|a schedule IH]; intros p p' st0 Hrun Hok;
    cbn [Crawl.run] in Hrun.
  - by injection Hrun as <-.
  - destruct (step username a p) as [p1|] eqn:Hstep; [|done].
    eapply IH; [done|]. by eapply step_keeps_pool_ok.
Qed.

Lemma pool_ok_start st0 :
  stored_is_seen (global_seen st0) (media_by_date st0) ->
  pool_ok st0 (mkPool [] 0 st0).
Proof.
  intros H0. split; [done|]. split.
  - intros t d u Hs. split; [by apply (H0 t d u)|by left].
  - intros i link w Hi. cbn [post_futures] in Hi. by rewrite lookup_nil in Hi.
Qed.

(** a phase, under any schedule: the seen-set grows, every URL stored
    for the user is in it, and a URL newly stored for the user was
    not in the seen-set when the phase started *)
Lemma phase_facts username schedule cs cs' media :
  phase username schedule cs = Some cs' ->
  media_by_date_per_username cs !! username = Some media ->
  stored_is_seen (crawl_seen cs) media ->
  exists media',
    media_by_date_per_username cs'
      = <[username := media']> (media_by_date_per_username cs) /\
    (forall t, get t (crawl_seen cs) ⊆ get t (crawl_seen cs')) /\
    stored_is_seen (crawl_seen cs') media' /\
    (forall t d u, stored t d u media' ->
       stored t d u media \/ u ∉ get t (crawl_seen cs)).
Proof.
  unfold Crawl.phase. intros Hphase Hmedia Hseen. rewrite Hmedia in Hphase.
  destruct (run username schedule _) as [p|] eqn:Hrun; [|done].
  destruct (all_collected _ _); [|done]. injection Hphase as <-.
  destruct (run_keeps_pool_ok _ _ _ _ (mkState (crawl_seen cs) media) Hrun)
    as (Hmono & Hstored & _); [by apply pool_ok_start|].
  exists (media_by_date (shared p)). split; [done|]. split; [done|].
  split; intros t d u Hs; by destruct (Hstored t d u Hs).
Qed.

(** what every crawl keeps: every stored URL is in the one seen-set,
    and no URL is stored for two users *)
Lemma phase_keeps_apart username schedule cs cs' :
  phase username schedule cs = Some cs' ->
  (forall user m, media_by_date_per_username cs !! user = Some m ->
     stored_is_seen (crawl_seen cs) m) ->
  stores_disjoint (media_by_date_per_username cs) ->
  (forall user m, media_by_date_per_username cs' !! user = Some m ->
     stored_is_seen (crawl_seen cs') m) /\
  stores_disjoint (media_by_date_per_username cs') /\
  dom (media_by_date_per_username cs') = dom (media_by_date_per_username cs).
Proof.
  intros Hphase Hseen Hapart.
  destruct (media_by_date_per_username cs !! username) as [media|] eqn:Hmedia;
    [|unfold Crawl.phase in Hphase; by rewrite Hmedia in Hphase].
  destruct (phase_facts _ _ _ _ _ Hphase Hmedia (Hseen _ _ Hmedia))
    as (media' & Hstores & Hmono & Hseen' & Hnew).
  rewrite Hstores.
  assert (forall user m t d d' u,
            user <> username ->
            media_by_date_per_username cs !! user = Some m ->
            stored t d u media' -> stored t d' u m -> False) as Hother.
  { intros user m t d d' u Hne Hm Hs Hs'.
    destruct (Hnew t d u Hs) as [Hold|Hfresh].
    - by eapply (Hapart username user).
    - apply Hfresh. by eapply Hseen. }
  split; [|split].
  - intros user m Hm. destruct (decide (username = user)) as [<-|Hne].
    + rewrite lookup_insert_eq in Hm. by injection Hm as <-.
    + rewrite lookup_insert_ne in Hm by done.
      intros t d u Hs. apply Hmono. by eapply Hseen.
  - intros user1 user2 m1 m2 t d1 d2 u Hne H1 H2 Hs1 Hs2.
    destruct (decide (username = user1)) as [<-|Hne1];
      destruct (decide (username = user2)) as [<-|Hne2]; [done| | |].
    + rewrite lookup_insert_eq in H1. rewrite lookup_insert_ne in H2 by done.
      injection H1 as <-. by eapply (Hother user2).
    + rewrite lookup_insert_eq in H2. rewrite lookup_insert_ne in H1 by done.
      injection H2 as <-. by eapply (Hother user1).
    + rewrite lookup_insert_ne in H1, H2 by done. by eapply (Hapart user1 user2).
  - apply set_eq. intros user. rewrite dom_insert, elem_of_union, elem_of_singleton.
    split; [intros [->|?]; [by apply elem_of_dom|done]|by right].
Qed.

Lemma phases_keep_apart usernames : forall schedules cs cs',
  phases usernames schedules cs = Some cs' ->
  (forall user m, media_by_date_per_username cs !! user = Some m ->
     stored_is_seen (crawl_seen cs) m) ->
  stores_disjoint (media_by_date_per_username cs) ->
  (forall user m, media_by_date_per_username cs' !! user = Some m ->
     stored_is_seen (crawl_seen cs') m) /\
  stores_disjoint (media_by_date_per_username cs').
Proof.
  induction usernames as [|username usernames IH];
    intros [|schedule schedules] cs cs' Hrun Hseen Hapart;
    cbn [Crawl.phases] in Hrun; try done.
  - by injection Hrun as <-.
  - destruct (phase username schedule cs) as [cs1|] eqn:Hphase; [|done].
    destruct (phase_keeps_apart _ _ _ _ Hphase Hseen Hapart) as (H1 & H2 & _).
    by eapply IH.
Qed.

Lemma initial_store usernames user m :
  media_by_date_per_username (initial usernames) !! user = Some m -> m = no_media.
Proof.
  cbn. intros H. apply elem_of_list_to_map_2 in H.
  by apply list_elem_of_fmap in H as (? & [= _ ->] & _).
Qed.

Lemma nothing_stored_in_no_media t d u : ~ stored t d u no_media.
Proof.
  intros (l & Hl & _).
  destruct t; cbn [get no_media images gifs videos] in Hl;
    by rewrite lookup_empty in Hl.
Qed.

Lemma crawl_keeps_apart usernames schedules cs :
  crawl usernames schedules = Some cs ->
  (forall user m, media_by_date_per_username cs !! user = Some m ->
     stored_is_seen (crawl_seen cs) m) /\
  stores_disjoint (media_by_date_per_username cs).
Proof.
  intros Hrun. eapply phases_keep_apart; [exact Hrun| |].
  - intros user m ->%initial_store t d u Hs.
    by apply nothing_stored_in_no_media in Hs.
  - intros user1 user2 m1 m2 t d1 d2 u _ ->%initial_store _ Hs _.
    by apply nothing_stored_in_no_media in Hs.
Qed.
End PoolFacts.

Section OneWorker.
Import Extractor ExtractorSpec Crawl CrawlSpec.
Variable urljoin : string -> string -> string.
Variable strptime_strftime : string -> option string.
Variable fetch : string -> option Document.
Variable all_post_links : string -> list string.
Variables start_year end_year : Z.

Local Abbreviation process_post :=
  (process_post urljoin strptime_strftime fetch).
Local Abbreviation start_worker :=
  (start_worker urljoin strptime_strftime fetch start_year end_year).
Local Abbreviation step :=
  (step urljoin strptime_strftime fetch start_year end_year 1).
Local Abbreviation run :=
  (run urljoin strptime_strftime fetch start_year end_year 1).
Local Abbreviation phase :=
  (phase urljoin strptime_strftime fetch all_post_links start_year end_year 1).
Local Abbreviation phases :=
  (phases urljoin strptime_strftime fetch all_post_links start_year end_year 1).
Local Abbreviation serial_post :=
  (serial_post urljoin strptime_strftime fetch start_year end_year).
Local Abbreviation serial_phase :=
  (serial_phase urljoin strptime_strftime fetch all_post_links start_year end_year).
Local Abbreviation serial_crawl :=
  (serial_crawl urljoin strptime_strftime fetch all_post_links start_year end_year).

(** a whole call on the shared objects *)
Local Abbreviation whole username :=
  (fun st link => process_post link username start_year end_year st).

Lemma filter_all_false {A} (f : A -> bool) l :
  Forall (fun x => f x = false) l -> List.filter f l = [].
Proof. induction 1 as [|x l Hx _ IH]; cbn; [done|]. by rewrite Hx. Qed.

(** in a pool of one worker a running call is the current one *)
Lemma running_is_current (returned current waiting : list (string * Future))
    i link w :
  Forall (fun x => x.2 = Finished \/ x.2 = Collected) returned ->
  Forall (fun x => x.2 = Pending) waiting ->
  (current = [] \/ exists link' w', current = [(link', Running w')]) ->
  (returned ++ current ++ waiting) !! i = Some (link, Running w) ->
  current = [(link, Running w)] /\ i = List.length returned.
Proof.
  intros Hret Hwait Hcur Hi.
  apply lookup_app_Some in Hi as [Hi|[Hge Hi]].
  { rewrite Forall_lookup in Hret. by destruct (Hret _ _ Hi). }
  apply lookup_app_Some in Hi as [Hi|[_ Hi]].
  - destruct Hcur as [->|(link' & w' & ->)]; [by rewrite lookup_nil in Hi|].
    apply list_lookup_singleton_Some in Hi as [Hi [= -> ->]].
    split; [done|lia].
  - rewrite Forall_lookup in Hwait. by pose proof (Hwait _ _ Hi).
Qed.

Lemma step_one_at_a_time username a p p' st0 :
  step username a p = Some p' ->
  one_at_a_time (whole username) st0 p ->
  one_at_a_time (whole username) st0 p'.
Proof.
  intros Hstep (returned & current & waiting & Hfs & Hret & Hwait & Hcur).
  assert (current = [] \/ exists link' w', current = [(link', Running w')])
    as Hshape.
  { destruct Hcur as [[-> _]|(l & w & -> & _)]; [by left|right; by eauto]. }
  destruct a as [link| |i|i]; cbn [Crawl.step] in Hstep.
  - injection Hstep as <-.
    exists returned, current, (waiting ++ [(link, Pending)]).
    cbn [post_futures shared]. rewrite Hfs.
    split; [by rewrite <- !app_assoc|]. split; [done|]. split; [|done].
    apply Forall_app. split; [done|]. by constructor.
  - destruct (list_find _ _) as [[i [link f]]|] eqn:Hfind; [|done].
    destruct (decide (busy p < 1)%nat) as [Hbusy|]; [|done].
    injection Hstep as <-.
    destruct Hcur as [[-> Hshared]|(l & w & -> & _)].
    2:{ exfalso. unfold busy in Hbusy.
        rewrite Hfs, !List.filter_app, !length_app in Hbusy.
        cbn in Hbusy. lia. }
    cbn [app] in Hfs.
    apply list_find_Some in Hfind as (Hi & Hp & Hmin).
    rewrite Hfs in Hi, Hmin.
    assert (i = List.length returned /\ exists waiting',
              waiting = (link, Pending) :: waiting') as [-> [waiting' ->]].
    { apply lookup_app_Some in Hi as [Hi|[Hge Hi]].
      { rewrite Forall_lookup in Hret.
        destruct (Hret _ _ Hi) as [E|E]; cbn in E, Hp; by rewrite E in Hp. }
      destruct waiting as [|[l0 f0] waiting']; [by rewrite lookup_nil in Hi|].
      pose proof (Forall_inv Hwait) as E0. cbn in E0. subst f0.
      destruct (decide (i = List.length returned)) as [->|Hne].
      - rewrite Nat.sub_diag in Hi. injection Hi as -> <-.
        split; [done|by eexists].
      - exfalso.
        apply (Hmin (List.length returned) (l0, Pending)); [|lia|done].
        by rewrite lookup_app_r, Nat.sub_diag by lia. }
    exists returned, [(link, Running (start_worker username link))], waiting'.
    cbn [set_future post_futures shared]. rewrite Hfs.
    split.
    { rewrite insert_app_r_alt by lia. by rewrite Nat.sub_diag. }
    split; [done|]. split; [by apply Forall_inv_tail in Hwait|].
    right. eexists _, _. split; [done|].
    unfold Crawl.start_worker. rewrite finish_fresh, <- process_post_records.
    rewrite foldl_app. cbn [foldl]. by rewrite Hshared.
  - destruct (post_futures p !! i) as [[link [|w| |]]|] eqn:Hi; try done.
    rewrite Hfs in Hi.
    destruct (running_is_current _ _ _ _ _ _ Hret Hwait Hshape Hi) as [-> ->].
    destruct Hcur as [[[=] _]|(l & w0 & [= <- <-] & Hfin)].
    destruct (work w (shared p)) as [[w' st']|] eqn:Hwork;
      injection Hstep as <-.
    + exists returned, [(link, Running w')], waiting.
      cbn [post_futures shared]. rewrite Hfs.
      split.
      { rewrite insert_app_r_alt by lia. by rewrite Nat.sub_diag. }
      split; [done|]. split; [done|].
      right. eexists _, _. split; [done|].
      by rewrite (finish_work _ _ _ _ Hwork).
    + exists (returned ++ [(link, Finished)]), [], waiting.
      cbn [set_future post_futures shared]. rewrite Hfs.
      split.
      { rewrite insert_app_r_alt by lia. rewrite Nat.sub_diag.
        by rewrite <- !app_assoc. }
      split.
      { apply Forall_app. split; [done|]. constructor; [by left|done]. }
      split; [done|]. left. split; [done|].
      rewrite fmap_app. cbn [fmap list_fmap fst].
      by rewrite <- Hfin, (work_none _ _ Hwork).
  - destruct (post_futures p !! i) as [[link [|w| |]]|] eqn:Hi; try done.
    injection Hstep as <-. rewrite Hfs in Hi.
    assert (returned !! i = Some (link, Finished)) as Hi'.
    { apply lookup_app_Some in Hi as [Hi|[_ Hi]]; [done|].
      apply lookup_app_Some in Hi as [Hi|[_ Hi]].
      - destruct Hshape as [->|(link' & w' & ->)];
          [by rewrite lookup_nil in Hi|].
        by apply list_lookup_singleton_Some in Hi as [_ ?].
      - rewrite Forall_lookup in Hwait. by pose proof (Hwait _ _ Hi). }
    exists (<[i := (link, Collected)]> returned), current, waiting.
    cbn [post_futures shared]. rewrite Hfs.
    assert ((<[i := (link, Collected)]> returned).*1 = returned.*1) as Hlinks.
    { rewrite list_fmap_insert. cbn [fst]. apply list_insert_id.
      by rewrite list_lookup_fmap, Hi'. }
    split.
    { rewrite insert_app_l; [done|]. by eapply lookup_lt_Some. }
    split.
    { apply Forall_insert; [done|by right]. }
    split; [done|]. by rewrite Hlinks.
Qed.

Lemma run_one_at_a_time username schedule : forall p p' st0,
  run username schedule p = Some p' ->
  one_at_a_time (whole username) st0 p ->
  one_at_a_time (whole username) st0 p'.
Proof.
  induction schedule as [|a schedule IH]; intros p p' st0 Hrun Hok;
    cbn [Crawl.run] in Hrun.
  - by injection Hrun as <-.
  - destruct (step username a p) as [p1|] eqn:Hstep; [|done].
    eapply IH; [done|]. by eapply step_one_at_a_time.
Qed.

Lemma all_collected_spec links futures :
  all_collected links futures = true ->
  futures = (fun link => (link, Collected)) <$> links.
Proof.
  revert futures. induction links as [|link links IH]; intros [|[l f] fs]; try done.
  cbn [all_collected]. destruct f; try done.
  intros [E%String.eqb_eq H]%andb_prop. subst l. cbn. f_equal. by apply IH.
Qed.

(** with one worker the calls of a phase take effect one after
    another, in the order of submission *)
Lemma run_one_worker username schedule st0 p :
  run username schedule (mkPool [] 0 st0) = Some p ->
  all_collected (all_post_links username) (post_futures p) = true ->
  shared p = foldl (whole username) st0 (all_post_links username).
Proof.
  intros Hrun Hall%all_collected_spec.
  destruct (run_one_at_a_time _ _ _ _ st0 Hrun)
    as (returned & current & waiting & Hfs & Hret & Hwait & Hcur).
  { exists [], [], []. repeat split; try done. by left. }
  assert (Forall (fun x : string * Future => x.2 = Collected) (post_futures p))
    as Hcollected.
  { rewrite Hall. apply Forall_fmap, Forall_forall. by intros. }
  rewrite Hfs in Hcollected.
  apply Forall_app in Hcollected as [_ Hcollected].
  apply Forall_app in Hcollected as [Hc Hw].
  destruct Hcur as [[-> Hshared]|(l & w & -> & _)];
    [|by apply Forall_inv in Hc].
  destruct waiting as [|[l f] waiting].
  - rewrite Hshared. f_equal. cbn [app] in Hfs. rewrite app_nil_r in Hfs.
    rewrite <- Hfs, Hall, <- list_fmap_compose. apply list_fmap_id.
  - apply Forall_inv in Hw. apply Forall_inv in Hwait. cbn in Hw, Hwait.
    congruence.
Qed.

Lemma serial_phase_unfold (username : string) links : forall cs media,
  media_by_date_per_username cs !! username = Some media ->
  foldl (serial_post username) cs links
  = mkCrawl
      (global_seen (foldl (whole username) (mkState (crawl_seen cs) media) links))
      (<[username :=
           media_by_date
             (foldl (whole username) (mkState (crawl_seen cs) media) links)]>
         (media_by_date_per_username cs)).
Proof.
  induction links as [|link links IH]; intros cs media Hmedia; cbn [foldl].
  - cbn. rewrite insert_id by done. by destruct cs.
  - unfold CrawlSpec.serial_post at 2. rewrite Hmedia.
    set (st1 := process_post link username start_year end_year
                  (mkState (crawl_seen cs) media)).
    rewrite (IH _ (media_by_date st1)) by apply lookup_insert_eq.
    cbn [crawl_seen media_by_date_per_username].
    rewrite insert_insert_eq. by destruct st1.
Qed.

Lemma phase_one_worker username schedule cs cs' :
  phase username schedule cs = Some cs' -> cs' = serial_phase cs username.
Proof.
  unfold Crawl.phase, CrawlSpec.serial_phase.
  destruct (media_by_date_per_username cs !! username) as [media|] eqn:Hmedia;
    [|done].
  destruct (run username schedule _) as [p|] eqn:Hrun; [|done].
  destruct (all_collected _ _) eqn:Hall; [|done]. intros [= <-].
  rewrite (serial_phase_unfold _ _ _ _ Hmedia).
  by rewrite (run_one_worker _ _ _ _ Hrun Hall).
Qed.

Lemma phases_one_worker usernames : forall schedules cs cs',
  phases usernames schedules cs = Some cs' ->
  cs' = foldl serial_phase cs usernames.
Proof.
  induction usernames as [|username usernames IH];
    intros [|schedule schedules] cs cs' Hrun;
    cbn [Crawl.phases] in Hrun; try done.
  - by injection Hrun as <-.
  - destruct (phase username schedule cs) as [cs1|] eqn:Hphase; [|done].
    apply phase_one_worker in Hphase as ->. cbn [foldl]. by eapply IH.
Qed.

(** *** Calls one after another keep every list duplicate-free *)
Lemma consistent_seen_mono seen seen' m :
  (forall t u, u ∈ get t seen -> u ∈ get t seen') ->
  consistent (mkState seen m) -> consistent (mkState seen' m).
Proof.
  intros Hsub Hc t d l Hl. destruct (Hc t d l Hl) as (Hnd & Hseen & Huniq).
  split; [done|]. split; [|done]. intros u Hu. by apply Hsub, Hseen.
Qed.

Lemma stored_seen seen m t d u :
  consistent (mkState seen m) -> stored t d u m -> u ∈ get t seen.
Proof. intros Hc (l & Hl & Hu). by apply (Hc t d l Hl). Qed.

Lemma serial_post_consistent username cs link :
  crawl_consistent cs -> crawl_consistent (serial_post username cs link).
Proof.
  intros [Hstores Hcross]. unfold CrawlSpec.serial_post.
  destruct (media_by_date_per_username cs !! username) as [media|] eqn:Hmedia;
    [|by split].
  set (st := mkState (crawl_seen cs) media).
  set (st' := process_post link username start_year end_year st).
  assert (Hst : consistent st) by (by apply Hstores in Hmedia).
  assert (Hst' : consistent (mkState (global_seen st') (media_by_date st'))).
  { destruct st' eqn:E. cbn. rewrite <- E. by apply process_post_consistent. }
  assert (Hmono : forall t u, u ∈ get t (crawl_seen cs) -> u ∈ get t (global_seen st')).
  { intros t u Hu. by apply process_post_seen_mono. }
  assert (Hnew : forall user m t d d' u,
            user <> username ->
            media_by_date_per_username cs !! user = Some m ->
            stored t d u (media_by_date st') -> stored t d' u m -> False).
  { intros user m t d d' u Hne Hm Hs Hs'.
    apply process_post_stored in Hs as [Hs|[_ Hfresh]].
    - by eapply (Hcross username user).
    - apply Hfresh. eapply stored_seen; [by apply Hstores in Hm|done]. }
  split; cbn [media_by_date_per_username crawl_seen].
  - intros user m Hm. destruct (decide (username = user)) as [<-|Hne].
    + rewrite lookup_insert_eq in Hm. by inversion Hm; subst m.
    + rewrite lookup_insert_ne in Hm by done.
      eapply consistent_seen_mono; [exact Hmono|]. by apply Hstores in Hm.
  - intros user1 user2 m1 m2 t d1 d2 u Hne H1 H2 Hs1 Hs2.
    destruct (decide (username = user1)) as [<-|Hne1];
      destruct (decide (username = user2)) as [<-|Hne2]; [done| | |].
    + rewrite lookup_insert_eq in H1. rewrite lookup_insert_ne in H2 by done.
      inversion H1; subst m1. by eapply (Hnew user2).
    + rewrite lookup_insert_eq in H2. rewrite lookup_insert_ne in H1 by done.
      inversion H2; subst m2. by eapply (Hnew user1).
    + rewrite lookup_insert_ne in H1, H2 by done. by eapply (Hcross user1 user2).
Qed.

Lemma serial_phase_consistent cs username :
  crawl_consistent cs -> crawl_consistent (serial_phase cs username).
Proof.
  unfold CrawlSpec.serial_phase. generalize (all_post_links username) as links.
  intros links. revert cs. induction links as [|link links IH]; intros cs Hc;
    [done|].
  cbn [foldl]. by apply IH, serial_post_consistent.
Qed.

Lemma initial_consistent usernames : crawl_consistent (initial usernames).
Proof.
  split.
  - intros user m Hm. apply initial_store in Hm as ->. apply consistent_empty.
  - intros user1 user2 m1 m2 t d1 d2 u _ ->%initial_store _ Hs _.
    by apply nothing_stored_in_no_media in Hs.
Qed.

Lemma serial_crawl_consistent usernames : crawl_consistent (serial_crawl usernames).
Proof.
  unfold CrawlSpec.serial_crawl.
  assert (Hfold : forall users cs,
            crawl_consistent cs -> crawl_consistent (foldl serial_phase cs users)).
  { induction users as [|username users IH]; intros cs Hc; [done|].
    cbn [foldl]. by apply IH, serial_phase_consistent. }
  apply Hfold, initial_consistent.
Qed.

Lemma crawl_one_worker usernames schedules cs :
  crawl urljoin strptime_strftime fetch all_post_links start_year end_year 1
    usernames schedules = Some cs ->
  cs = serial_crawl usernames /\ crawl_consistent cs.
Proof.
  intros Hrun%phases_one_worker. subst cs.
  split; [done|]. apply serial_crawl_consistent.
Qed.
End OneWorker.

Section CrawlTheorems.
Import Extractor ExtractorSpec Crawl CrawlSpec.
Variable urljoin : string -> string -> string.
Variable strptime_strftime : string -> option string.
Variable fetch : string -> option Document.
Variable all_post_links : string -> list string.
Variables start_year end_year : Z.

Local Abbreviation step :=
  (step urljoin strptime_strftime fetch start_year end_year).
Local Abbreviation run :=
  (run urljoin strptime_strftime fetch start_year end_year).
Local Abbreviation crawl :=
  (crawl urljoin strptime_strftime fetch all_post_links start_year end_year).
Local Abbreviation serial_crawl :=
  (serial_crawl urljoin strptime_strftime fetch all_post_links start_year end_year).

(** C1 (amended).  One seen-set serves the whole crawl: it is created
    once, before the loop over the user names, and never reset.
    Whatever the number of workers and however their steps interleave,
    every stored URL is in that seen-set and no URL is stored for two
    users: a URL that is in the seen-set when the phase of a user
    starts is not filed in that phase.  With one worker the calls of
    process_post take effect one after another, and then moreover every
    list is duplicate-free and no URL is filed under two dates of a
    media type. *)
Theorem seen_set_spans_all_subjects max_workers usernames schedules cs :
  crawl max_workers usernames schedules = Some cs ->
  (forall user m t d u,
     media_by_date_per_username cs !! user = Some m ->
     stored t d u m -> u ∈ get t (crawl_seen cs)) /\
  (forall user1 user2 m1 m2 t d1 d2 u,
     media_by_date_per_username cs !! user1 = Some m1 ->
     media_by_date_per_username cs !! user2 = Some m2 ->
     stored t d1 u m1 -> stored t d2 u m2 -> user1 = user2) /\
  (max_workers = 1%nat ->
   cs = serial_crawl usernames /\
   forall user m t d l,
     media_by_date_per_username cs !! user = Some m ->
     get t m !! d = Some l ->
     NoDup l /\
     forall d' l' u, get t m !! d' = Some l' -> u ∈ l -> u ∈ l' -> d = d').
Proof.
  intros Hrun.
  destruct (crawl_keeps_apart _ _ _ _ _ _ _ _ _ _ Hrun) as [Hseen Hapart].
  split; [|split].
  - intros user m t d u Hm Hs. by eapply Hseen.
  - intros user1 user2 m1 m2 t d1 d2 u H1 H2 Hs1 Hs2.
    destruct (decide (user1 = user2)) as [|Hne]; [done|].
    by destruct (Hapart _ _ _ _ _ _ _ _ Hne H1 H2 Hs1 Hs2).
  - intros ->. apply crawl_one_worker in Hrun as [-> [Hcons _]].
    split; [done|]. intros user m t d l Hm Hl.
    destruct (Hcons user m Hm t d l Hl) as (Hnd & _ & Huniq). by split.
Qed.


End CrawlTheorems.

(** ** Concrete runs *)
Section ConcreteRuns.
Import Extractor ExtractorSpec Crawl CrawlSpec Examples.

Local Abbreviation a_jpg := "https://desifakes.com/a.jpg".
Local Abbreviation b_jpg := "https://desifakes.com/b.jpg".
Local Abbreviation x_jpg := "https://desifakes.com/x.jpg".
Local Abbreviation y_jpg := "https://desifakes.com/y.jpg".
Local Abbreviation data_uri := "data:application/octet-stream;base64,AAAA".

Lemma dated_run_stores_a_jpg :
  stored Images "2020-03-04" a_jpg
    (media_by_date (process fetch_dated jane_link empty_state)).
Proof.
  exists [a_jpg; data_uri]. split; [vm_compute; reflexivity|].
  apply list_elem_of_here.
Qed.

(** on the thread page both articles are scanned; b.jpg sits in the
    second one and is filed under that article's date *)
Lemma thread_run_stores_b_jpg :
  stored Images "2020-03-05" b_jpg
    (media_by_date
       (process_post urljoin strptime_strftime fetch_dated thread_link
          "Jane Doe" 2019 2020 empty_state)).
Proof.
  exists [b_jpg]. split; [vm_compute; reflexivity|].
  apply list_elem_of_here.
Qed.

Lemma nothing_stored_at_start t d u : ~ stored t d u (media_by_date empty_state).
Proof. apply nothing_stored_in_no_media. Qed.

Lemma stored_date_rule_witness :
  stored Images "2020-03-05" b_jpg
    (media_by_date (process fetch_dated thread_link empty_state)) /\
  exists soup a raw,
    fetch_dated thread_link = Some soup /\ a ∈ articles soup /\
    raw ∈ img_srcs a /\
    b_jpg = resolve urljoin raw /\
    "2020-03-05" =
      py_or (extract_post_date strptime_strftime (Some a))
        (Py.str (default 2020 (search_newer_than thread_link)) +:+ "-01-01").
Proof.
  split; [exact thread_run_stores_b_jpg|].
  destruct (stored_date_rule urljoin strptime_strftime fetch_dated thread_link
              "Jane Doe" 2019 2020 empty_state Images "2020-03-05" b_jpg
              thread_run_stores_b_jpg) as [Hold|Hnew].
  - destruct (nothing_stored_at_start _ _ _ Hold).
  - exact Hnew.
Defined.

(** C7 as stated fails.  The post link of an undated post carries no
    c[newer_than] parameter, and its picture is filed under
    "2020-01-01", the requested end year. *)
Lemma fallback_year_is_end_year :
  stored Images "2020-01-01" "https://site/a.jpg"
    (media_by_date (process fetch_undated jane_link empty_state)) /\
  search_newer_than jane_link = None /\
  ~ announced_date strptime_strftime jane_link undated_article "2020-01-01".
Proof.
  split; [|split].
  - exists ["https://site/a.jpg"]. split; [vm_compute; reflexivity|].
    apply list_elem_of_here.
  - vm_compute. reflexivity.
  - unfold announced_date. cbn. intros (y & Hy & _). vm_compute in Hy.
    discriminate.
Qed.

Lemma process_post_idempotent_witness :
  consistent empty_state /\
  process fetch_dated jane_link (process fetch_dated jane_link empty_state)
    = process fetch_dated jane_link empty_state /\
  consistent (process fetch_dated jane_link empty_state).
Proof.
  split; [apply consistent_empty|].
  destruct (process_post_idempotent urljoin strptime_strftime fetch_dated
              jane_link "Jane Doe" 2019 2020 empty_state consistent_empty)
    as (Hsame & Hcons & _).
  split; [exact Hsame | exact Hcons].
Defined.

(** C9.  An img whose src is a data-URI of another kind than
    data:image passes the test of the img loop and is filed as an
    image; the video and source loops reject every URL that starts with
    "data:". *)
Theorem img_data_uri_is_stored :
  Py.startswith data_uri "data:" = true /\
  data_uri ∈ img_srcs dated_article /\
  stored Images "2020-03-04" data_uri
    (media_by_date (process fetch_dated jane_link empty_state)) /\
  unwanted "data:" data_uri = true /\
  unwanted "data:image" data_uri = false.
Proof.
  split; [reflexivity|]. split; [right; left|].
  split; [|split; reflexivity].
  exists [a_jpg; data_uri]. split; [vm_compute; reflexivity|].
  right. left.
Qed.

Lemma post_marker_selects_article_witness :
  process fetch_dated jane_link empty_state
  = record_all
      [(Images, "2020-03-04", a_jpg); (Images, "2020-03-04", data_uri);
       (Videos, "2020-03-04", "https://desifakes.com/v.mp4")]
      empty_state /\
  (b_jpg ∉ get Images (global_seen (process fetch_dated jane_link empty_state))) /\
  (b_jpg ∈ get Images (global_seen (process fetch_dated thread_link empty_state))).
Proof.
  split; [|split].
  - exact (proj1 (proj1 (post_marker_selects_article urljoin strptime_strftime
                    fetch_dated jane_link "Jane Doe" 2019 2020 empty_state
                    dated_page eq_refl) "5" eq_refl)
             [] dated_article [other_article] eq_refl
             (conj eq_refl eq_refl)
             (fun b Hb => False_ind _ (proj1 (elem_of_nil b) Hb))).
  - intros H%elem_of_elements. vm_compute in H.
    repeat (apply elem_of_cons in H as [H|H]; [discriminate H|]).
    by apply elem_of_nil in H.
  - refine (proj2 (post_marker_selects_article urljoin strptime_strftime
                     fetch_dated thread_link "Jane Doe" 2019 2020 empty_state
                     dated_page eq_refl) eq_refl other_article
              (Images, "2020-03-05", b_jpg)
              _ _ _ _ _).
    + discriminate.
    + right. left.
    + left. vm_compute. reflexivity.
    + vm_compute. reflexivity.
    + vm_compute. left.
Defined.

(** *** The crawl of two users that reach the same post *)

(** the one post is filed for the first user, and the second user's
    call finds every URL seen *)
Lemma crawl_files_for_jane :
  exists cs m,
    crawl_of ["Jane"; "Doe"] [fresh_post; seen_post] = Some cs /\
    media_by_date_per_username cs !! "Jane" = Some m /\
    stored Images "2020-03-04" a_jpg m /\
    media_by_date_per_username cs !! "Doe" = Some no_media.
Proof.
  assert ((crawl_of ["Jane"; "Doe"] [fresh_post; seen_post]
             ≫= fun cs => media_by_date_per_username cs !! "Jane")
             ≫= (fun m => images m !! "2020-03-04")
          = Some [a_jpg; data_uri]) as HJane by (vm_compute; reflexivity).
  assert (crawl_of ["Jane"; "Doe"] [fresh_post; seen_post]
            ≫= (fun cs => media_by_date_per_username cs !! "Doe")
          = Some no_media) as HDoe by (vm_compute; reflexivity).
  destruct (crawl_of ["Jane"; "Doe"] [fresh_post; seen_post]) as [cs|];
    [|discriminate HDoe].
  cbn [mbind option_bind] in HJane, HDoe.
  destruct (media_by_date_per_username cs !! "Jane") as [m|] eqn:Em;
    [|discriminate HJane].
  cbn [mbind option_bind] in HJane.
  exists cs, m. split; [reflexivity|]. split; [exact Em|].
  split; [|exact HDoe].
  exists [a_jpg; data_uri]. split; [exact HJane|apply list_elem_of_here].
Qed.

Lemma seen_set_spans_all_subjects_witness :
  exists cs m,
    crawl_of ["Jane"; "Doe"] [fresh_post; seen_post] = Some cs /\
    media_by_date_per_username cs !! "Jane" = Some m /\
    stored Images "2020-03-04" a_jpg m /\
    a_jpg ∈ get Images (crawl_seen cs).
Proof.
  destruct crawl_files_for_jane as (cs & m & Hrun & Hm & Hs & _).
  exists cs, m. split; [exact Hrun|]. split; [exact Hm|]. split; [exact Hs|].
  exact (proj1 (seen_set_spans_all_subjects urljoin strptime_strftime
                  fetch_dated one_link 2019 2020 APP_MAX_WORKERS
                  ["Jane"; "Doe"] [fresh_post; seen_post] cs Hrun)
           "Jane" m Images "2020-03-04" a_jpg Hm Hs).
Defined.

(** C1 as stated fails.  Both users reach the same post.  Crawled
    alone, "Doe" gets its picture; crawled after "Jane", "Doe" gets
    nothing, because the one seen-set already holds the URL; and under
    no schedule is the picture filed for both. *)
Lemma second_subject_gets_nothing :
  (exists cs m,
     crawl_of ["Doe"] [fresh_post] = Some cs /\
     media_by_date_per_username cs !! "Doe" = Some m /\
     stored Images "2020-03-04" a_jpg m) /\
  (exists cs m,
     crawl_of ["Jane"; "Doe"] [fresh_post; seen_post] = Some cs /\
     media_by_date_per_username cs !! "Jane" = Some m /\
     stored Images "2020-03-04" a_jpg m /\
     media_by_date_per_username cs !! "Doe" = Some no_media) /\
  (forall schedules cs m1 m2 d1 d2,
     crawl_of ["Jane"; "Doe"] schedules = Some cs ->
     media_by_date_per_username cs !! "Jane" = Some m1 ->
     media_by_date_per_username cs !! "Doe" = Some m2 ->
     stored Images d1 a_jpg m1 -> ~ stored Images d2 a_jpg m2).
Proof.
  split; [|split].
  - assert ((crawl_of ["Doe"] [fresh_post]
               ≫= fun cs => media_by_date_per_username cs !! "Doe")
               ≫= (fun m => images m !! "2020-03-04")
            = Some [a_jpg; data_uri]) as HDoe by (vm_compute; reflexivity).
    destruct (crawl_of ["Doe"] [fresh_post]) as [cs|]; [|discriminate HDoe].
    cbn [mbind option_bind] in HDoe.
    destruct (media_by_date_per_username cs !! "Doe") as [m|] eqn:Em;
      [|discriminate HDoe].
    cbn [mbind option_bind] in HDoe.
    exists cs, m. split; [reflexivity|]. split; [exact Em|].
    exists [a_jpg; data_uri]. split; [exact HDoe|apply list_elem_of_here].
  - exact crawl_files_for_jane.
  - intros schedules cs m1 m2 d1 d2 Hrun H1 H2 Hs1 Hs2.
    destruct (crawl_keeps_apart _ _ _ _ _ _ _ _ _ _ Hrun) as [_ Hapart].
    by eapply (Hapart "Jane" "Doe" m1 m2 Images d1 d2 a_jpg).
Qed.

(** *** Two calls of one user in the pool *)

(** the calls of the two posts, each as a whole, in either order *)
Local Abbreviation first_then_second :=
  (process fetch_two_posts second_link (process fetch_two_posts first_link empty_state)).
Local Abbreviation second_then_first :=
  (process fetch_two_posts first_link (process fetch_two_posts second_link empty_state)).

(** X28.  Two calls of one user on two workers: when the blocks of the
    two calls alternate, each call files its own first picture, a
    state that neither order of the whole calls gives. *)
Lemma blocks_of_two_calls_alternate :
  exists p,
    two_posts_run block_by_block = Some p /\
    images (media_by_date (shared p)) !! "2020-03-07" = Some [x_jpg] /\
    images (media_by_date (shared p)) !! "2020-03-08" = Some [y_jpg] /\
    images (media_by_date first_then_second) !! "2020-03-08" = None /\
    images (media_by_date second_then_first) !! "2020-03-07" = None.
Proof.
  destruct (two_posts_run block_by_block) as [p|] eqn:E;
    [|vm_compute in E; discriminate].
  exists p. split; [reflexivity|].
  vm_compute in E. injection E as <-.
  repeat split; vm_compute; reflexivity.
Qed.

(** X29.  The seen-set does not keep two workers from filing one URL
    twice: when both calls test the seen-set for x.jpg before either
    adds it, both file it, each under the date of its own post; the
    test and the add are separate steps. *)
Lemma same_url_filed_twice :
  exists p,
    two_posts_run test_before_add = Some p /\
    stored Images "2020-03-07" x_jpg (media_by_date (shared p)) /\
    stored Images "2020-03-08" x_jpg (media_by_date (shared p)).
Proof.
  destruct (two_posts_run test_before_add) as [p|] eqn:E;
    [|vm_compute in E; discriminate].
  exists p. split; [reflexivity|].
  vm_compute in E. injection E as <-. split.
  - exists [x_jpg]. split; [vm_compute; reflexivity|]. apply list_elem_of_here.
  - exists [y_jpg; x_jpg]. split; [vm_compute; reflexivity|]. right. left.
Qed.


End ConcreteRuns.


(** * Further properties *)

(** ** The fetcher *)
Section FetcherMore.
Import Fetcher FetcherSpec.

Ltac run_all_attempts :=
  rewrite make_request_unfold; cbn [attempts];
  repeat match goal with
    | H : ?o = _ |- context [match ?o with _ => _ end] => rewrite H
    | |- context [match ?o with Response _ => _ | _ => _ end] =>
        destruct o eqn:?
    | |- context [if Py.contains ?t ?s then _ else _] =>
        destruct (Py.contains t s) eqn:?
    end; cbn.

Lemma make_request_cost url outcome :
  (1 <= List.length (timeouts (make_request url outcome).1) <= 3)%nat /\
  total_timeout (make_request url outcome).1 <= 39 /\
  0 <= total_sleep (make_request url outcome).1 <= 33 /\
  (make_request url outcome).2 <> ReturnedNone.
Proof.
  unfold total_timeout, total_sleep.
  run_all_attempts;
    cbv [MAX_RETRIES initial_timeout timeout_increment]; simpl;
    (split; [lia|]); (split; [lia|]); (split; [lia|]); discriminate.
Qed.

(** X1.  Whatever the network does, one call of make_request sends
    between one and three requests, waits for at most 8 + 13 + 18 = 39
    seconds of timeouts, sleeps for at most 33 seconds in all, and ends
    by returning or raising: its loop never runs off its end. *)
Theorem make_request_budget url outcome :
  let r := make_request url outcome in
  (1 <= List.length (timeouts r.1) <= 3)%nat /\
  total_timeout r.1 <= 39 /\
  0 <= total_sleep r.1 <= 33 /\
  r.2 <> ReturnedNone.
Proof. exact (make_request_cost url outcome). Qed.

(** X2.  make_request hands back the first answer: if attempt k is the
    first that does not raise a RequestException, exactly k + 1 requests
    are sent; a response of that attempt is returned, and any other
    exception of that attempt propagates without a further try. *)
Theorem make_request_first_answer url outcome (k : nat) :
  (k < 3)%nat -> first_answer outcome k ->
  let r := make_request url outcome in
  timeouts r.1 = take (S k) [8; 13; 18] /\
  match outcome (Z.of_nat k) with
  | Response body => r.2 = Returned body
  | _ => r.2 = Propagated
  end.
Proof.
  intros Hk [Hbefore Hanswer]. cbn zeta.
  destruct k as [|[|[|k]]]; [| | |lia].
  - change (Z.of_nat 0) with 0 in *.
    rewrite make_request_unfold. cbn [attempts].
    destruct (outcome 0) as [body|text|] eqn:E; [done| |done].
    by destruct (Hanswer text).
  - destruct (Hbefore 0%nat) as [t0 H0]; [lia|].
    change (outcome 0 = RequestException t0) in H0.
    change (Z.of_nat 1) with 1 in *.
    rewrite make_request_unfold. cbn [attempts]. rewrite H0. cbn.
    destruct (outcome 1) as [body|text|] eqn:E.
    + by destruct (Py.contains t0 _).
    + by destruct (Hanswer text).
    + by destruct (Py.contains t0 _).
  - destruct (Hbefore 0%nat) as [t0 H0]; [lia|].
    destruct (Hbefore 1%nat) as [t1 H1]; [lia|].
    change (outcome 0 = RequestException t0) in H0.
    change (outcome 1 = RequestException t1) in H1.
    change (Z.of_nat 2) with 2 in *.
    rewrite make_request_unfold. cbn [attempts]. rewrite H0, H1. cbn.
    destruct (attempts url outcome [2]) as [evs r] eqn:E2.
    cbn [attempts] in E2.
    destruct (outcome 2) as [body|text|] eqn:E.
    + inversion E2; subst. by destruct (Py.contains t0 _), (Py.contains t1 _).
    + by destruct (Hanswer text).
    + inversion E2; subst. by destruct (Py.contains t0 _), (Py.contains t1 _).
Qed.
End FetcherMore.

(** ** The window generator *)
Section GeneratorMore.
Import Calendar.

Lemma app_link_for_end now q tf year row l :
  App.link_for now q tf year row = Some l ->
  toordinal (link_end l) <= toordinal now /\
  newer_than l.1.1.2 = link_start l /\ older_than l.1.1.2 = link_end l.
Proof.
  destruct row as [[sm sd] [em ed]]. unfold App.link_for. cbn [fst snd].
  set (start_date := mkDate (if sm =? 12 then year - 1 else year) sm sd).
  set (end_date := mkDate (if em =? 1 then year + 1 else year) em ed).
  unfold strptime.
  destruct (valid start_date) eqn:Hs; [|done].
  destruct (valid end_date) eqn:He; [|done].
  destruct (toordinal start_date >? toordinal now) eqn:Hfuture; [done|].
  destruct (toordinal start_date >=? toordinal end_date) eqn:Hge; [done|].
  destruct (toordinal end_date >? toordinal now) eqn:Hclip;
    intros [= <-]; unfold link_start, link_end;
    cbn [fst snd newer_than older_than]; repeat split; try done; lia.
Qed.

(** X3.  Every window generate_links of app.py emits starts on or
    before today, ends on or before today, and does not start after it
    ends; its two dates are the ones written into its URL. *)
Theorem app_windows_not_in_future now start_year end_year username title_only links l :
  App.generate_links now start_year end_year username title_only = Some links ->
  l ∈ links ->
  toordinal (link_start l) <= toordinal (link_end l) <= toordinal now /\
  newer_than l.1.1.2 = link_start l /\ older_than l.1.1.2 = link_end l.
Proof.
  intros Hgen Hl.
  destruct (app_generate_links_bounds _ _ _ _ _ _ _ Hgen Hl) as [_ Hse].
  unfold App.generate_links in Hgen. destruct (String.eqb username ""); [done|].
  inversion Hgen; subst links. unfold App.links_between in Hl.
  apply list_elem_of_bind in Hl as (year & Hl & _).
  apply list_elem_of_omap in Hl as (row & _ & Hl).
  apply app_link_for_end in Hl as (He & Hn & Ho).
  repeat split; done.
Qed.

(** the ordinal of a date grows by at least 365 from one year to the next *)
Lemma days_before_year_step y :
  days_before_year y + 365 <= days_before_year (y + 1).
Proof. unfold days_before_year. cbn zeta. Z.div_mod_to_equations. lia. Qed.

Lemma days_before_year_span y :
  days_before_year (y + 1) <= days_before_year y + 366.
Proof. unfold days_before_year. cbn zeta. Z.div_mod_to_equations. lia. Qed.

(** days_before_month, month by month *)
Lemma days_before_month_values y :
  let leap := if is_leap y then 1 else 0 in
  days_before_month y 1 = 0 /\ days_before_month y 2 = 31 /\
  days_before_month y 3 = 59 + leap /\ days_before_month y 4 = 90 + leap /\
  days_before_month y 5 = 120 + leap /\ days_before_month y 6 = 151 + leap /\
  days_before_month y 7 = 181 + leap /\ days_before_month y 8 = 212 + leap /\
  days_before_month y 9 = 243 + leap /\ days_before_month y 10 = 273 + leap /\
  days_before_month y 11 = 304 + leap /\ days_before_month y 12 = 334 + leap.
Proof.
  unfold days_before_month, days_in_month. simpl.
  destruct (is_leap y); repeat split; reflexivity.
Qed.

Lemma bot_row_ordered year row :
  row ∈ Bot.months ->
  let start_date := mkDate year row.1.1 row.1.2 in
  let end_date :=
    mkDate (if Bot.md_gt row.1 row.2 then year + 1 else year) row.2.1 row.2.2 in
  toordinal start_date < toordinal end_date.
Proof.
  intros Hrow. cbn zeta. unfold toordinal; cbn [Calendar.year month day].
  pose proof (days_before_year_step year) as Hstep.
  pose proof (days_before_month_values year) as Hthis.
  pose proof (days_before_month_values (year + 1)) as Hnext.
  cbn zeta in Hthis, Hnext.
  destruct Hthis as (?&?&?&?&?&?&?&?&?&?&?&?).
  destruct Hnext as (?&?&?&?&?&?&?&?&?&?&?&?).
  unfold Bot.months in Hrow.
  repeat (apply elem_of_cons in Hrow as [->|Hrow]);
    [..|by apply elem_of_nil in Hrow];
    cbn [fst snd Bot.md_gt]; cbn -[days_before_year days_before_month];
    repeat destruct (is_leap _); lia.
Qed.

Lemma bot_link_for_bounds now q tf year row l :
  row ∈ Bot.months ->
  Bot.link_for now q tf year row = Some l ->
  toordinal (link_start l) <= toordinal (link_end l) <= toordinal now /\
  link_year l = year.
Proof.
  intros Hrow. pose proof (bot_row_ordered year row Hrow) as Hord.
  destruct row as [[sm sd] [em ed]]. unfold Bot.link_for. cbn [fst snd] in *.
  cbn zeta in Hord.
  set (start_date := mkDate year sm sd) in *.
  set (end_date :=
         mkDate (if Bot.md_gt (sm, sd) (em, ed) then year + 1 else year) em ed) in *.
  unfold strptime.
  destruct (valid start_date) eqn:Hs; [|done].
  destruct (valid end_date) eqn:He; [|done].
  destruct (toordinal start_date >? toordinal now) eqn:Hfuture; [done|].
  destruct (toordinal end_date >? toordinal now) eqn:Hclip;
    intros [= <-]; unfold link_start, link_end, link_year;
    cbn [fst snd]; split; try done; lia.
Qed.

(** X4.  Every window generate_links of bot.py emits starts on or
    before today, ends on or before today and does not start after it
    ends, although bot.py never compares the two dates: the twelve rows
    of its table are ordered in every year. *)
Theorem bot_windows_not_in_future now start_year end_year username title_only links l :
  Bot.generate_links now start_year end_year username title_only = Some links ->
  l ∈ links ->
  toordinal (link_start l) <= toordinal (link_end l) <= toordinal now.
Proof.
  unfold Bot.generate_links. destruct (String.eqb username ""); [done|].
  intros [= <-] Hl. unfold Bot.links_between in Hl.
  apply list_elem_of_bind in Hl as (year & Hl & _).
  apply list_elem_of_omap in Hl as (row & Hrow & Hl).
  by apply bot_link_for_bounds in Hl as [? _].
Qed.

(** *** Years *)
Lemma range_down_bounds hi lo y : y ∈ Py.range_down hi lo -> lo <= y <= hi.
Proof.
  unfold Py.range_down. intros H.
  apply list_elem_of_fmap in H as (k & -> & Hk).
  apply elem_of_seq in Hk. lia.
Qed.

(** the years of a list built year by year, newest first *)
Lemma years_descend (f : Z -> list Link) hi :
  (forall y l, l ∈ f y -> link_year l = y) ->
  forall n a,
    StronglySorted (fun a b => link_year b <= link_year a)
      (((fun k : nat => hi - Z.of_nat k) <$> seq a n) ≫= f).
Proof.
  intros Hf. induction n as [|n IH]; intros a; [constructor|].
  cbn [seq fmap list_fmap mbind list_bind]. 
  change (StronglySorted (fun a b => link_year b <= link_year a)
            (f (hi - Z.of_nat a)
             ++ (((fun k : nat => hi - Z.of_nat k) <$> seq (S a) n) ≫= f))).
  assert (Hsame : forall l : list Link,
            (forall x, x ∈ l -> link_year x = hi - Z.of_nat a) ->
            StronglySorted (fun a b => link_year b <= link_year a)
              (l ++ (((fun k : nat => hi - Z.of_nat k) <$> seq (S a) n) ≫= f))).
  { induction l as [|x l IHl]; intros Hl; [apply IH|].
    cbn [app]. constructor.
    - apply IHl. intros y Hy. apply Hl. by right.
    - apply Forall_app. split; apply Forall_forall; intros y Hy.
      + rewrite (Hl x), (Hl y); [lia|by right|by left].
      + apply list_elem_of_bind in Hy as (yr & Hy & Hyr).
        apply list_elem_of_fmap in Hyr as (k & -> & Hk).
        apply elem_of_seq in Hk. rewrite (Hl x) by (by left).
        rewrite (Hf _ _ Hy). lia. }
  apply Hsame. intros x Hx. by apply Hf.
Qed.

(** X5.  The links of generate_links (app.py and bot.py alike) are
    listed under years between max(2010, start_year) and
    min(end_year, current year), newest year first. *)
Theorem generate_links_years now start_year end_year username title_only :
  (forall links,
     App.generate_links now start_year end_year username title_only = Some links ->
     Forall (fun l => Z.max 2010 start_year <= link_year l
                      <= Z.min end_year (year now)) links /\
     StronglySorted (fun a b => link_year b <= link_year a) links) /\
  (forall links,
     Bot.generate_links now start_year end_year username title_only = Some links ->
     Forall (fun l => Z.max 2010 start_year <= link_year l
                      <= Z.min end_year (year now)) links /\
     StronglySorted (fun a b => link_year b <= link_year a) links).
Proof.
  split; intros links.
  - unfold App.generate_links. destruct (String.eqb username ""); [done|].
    intros [= <-]. unfold App.links_between.
    assert (Hf : forall y l,
              l ∈ omap (App.link_for now (Py.replace_char " " "+" username)
                          (if title_only then 1 else 0) y) App.months ->
              link_year l = y).
    { intros y l Hl. apply list_elem_of_omap in Hl as (row & _ & Hl).
      destruct row as [[sm sd] [em ed]]. unfold App.link_for in Hl.
      cbn [fst snd] in Hl. repeat case_match; try done; by inversion Hl. }
    split.
    + apply Forall_forall. intros l Hl.
      apply list_elem_of_bind in Hl as (y & Hl & Hy).
      apply range_down_bounds in Hy. rewrite (Hf _ _ Hl). lia.
    + apply years_descend. exact Hf.
  - unfold Bot.generate_links. destruct (String.eqb username ""); [done|].
    intros [= <-]. unfold Bot.links_between.
    assert (Hf : forall y l,
              l ∈ omap (Bot.link_for now (Py.replace_char " " "+" username)
                          (if title_only then 1 else 0) y) Bot.months ->
              link_year l = y).
    { intros y l Hl. apply list_elem_of_omap in Hl as (row & _ & Hl).
      destruct row as [[sm sd] [em ed]]. unfold Bot.link_for in Hl.
      cbn [fst snd] in Hl. repeat case_match; try done; by inversion Hl. }
    split.
    + apply Forall_forall. intros l Hl.
      apply list_elem_of_bind in Hl as (y & Hl & Hy).
      apply range_down_bounds in Hy. rewrite (Hf _ _ Hl). lia.
    + apply years_descend. exact Hf.
Qed.
End GeneratorMore.

(** ** The range splitters *)
Section SplitterMore.
Import Calendar AppSpec.

Lemma buffered_url_bounds now url s e :
  newer_than (buffered_url now url s e) = buffered_start s /\
  older_than (buffered_url now url s e) = buffered_end now e.
Proof. done. Qed.

(** X6.  split_url of app.py does return when the site settles every
    window of at most 19 days (its probe fails or reports fewer than
    max_pages pages): a recursion depth of one more than the number of
    days by which the buffered window exceeds 19 days is enough. *)
Theorem split_url_returns now probe max_pages (fuel : nat) :
  settles_within probe max_pages 19 ->
  forall url s e,
    s < e ->
    buffered_end now e - buffered_start s <= 19 + Z.of_nat fuel ->
    exists l, App.split_url now probe (S fuel) url s e max_pages = Some l.
Proof.
  intros Hsettle. induction fuel as [|fuel IH]; intros url s e Hlt Hspan.
  - rewrite split_url_unfold. destruct (s >=? e) eqn:Hge; [lia|]. cbn zeta.
    destruct (Hsettle (buffered_url now url s e)) as [->|(p & -> & Hp)];
      [cbn; lia|by eexists|].
    destruct (p <? max_pages) eqn:Hpm; [by eexists|lia].
  - rewrite split_url_unfold. destruct (s >=? e) eqn:Hge; [lia|]. cbn zeta.
    destruct (probe (buffered_url now url s e)) as [p|] eqn:Hprobe;
      [|by eexists].
    destruct (p <? max_pages) eqn:Hpm; [by eexists|].
    destruct (_ <=? 1) eqn:Hd; [by eexists|].
    assert (Hlong : 20 <= buffered_end now e - buffered_start s).
    { destruct (Z_le_gt_dec (buffered_end now e - buffered_start s) 19) as [Hle|];
        [|lia].
      destruct (Hsettle (buffered_url now url s e)) as [Hn|(p' & Hp' & Hlt')];
        [cbn; lia|congruence|].
      rewrite Hprobe in Hp'. inversion Hp'; subst p'. lia. }
    assert (Hspan2 : 2 <= buffered_end now e - buffered_start s) by lia.
    destruct (children_facts now s e Hspan2)
      as (Hmid & Hnow & H2010 & Hc1s & Hc1e & Hc2s & Hc2e & Hc1 & Hc2).
    assert (Hhalf : 2 * (mid_of now s e - buffered_start s)
                    <= buffered_end now e - buffered_start s
                    <= 2 * (mid_of now s e - buffered_start s) + 1).
    { unfold mid_of. Z.div_mod_to_equations. lia. }
    set (c1 := first_child now s e) in *. set (c2 := second_child now s e) in *.
    destruct (IH (child_url now url s e c1) c1.1 c1.2 Hc1) as [firsts ->].
    { rewrite Hc1s, Hc1e, buffered_start_spec, buffered_end_spec.
      rewrite buffered_start_spec in *. lia. }
    destruct (IH (child_url now url s e c2) c2.1 c2.2 Hc2) as [seconds ->].
    { rewrite Hc2s, Hc2e, buffered_start_spec, buffered_end_spec.
      rewrite buffered_start_spec in *. lia. }
    by eexists.
Qed.

(** X7.  While the site keeps reporting max_pages or more pages,
    split_url of app.py returns for no window that it bisects at all:
    for start < end and a buffered span of two days or more, no
    recursion depth is enough. *)
Theorem split_url_never_settles now probe max_pages fuel url s e :
  always_over probe max_pages ->
  s < e ->
  2 <= buffered_end now e - buffered_start s ->
  App.split_url now probe fuel url s e max_pages = None.
Proof. intros Hover. by apply split_url_no_base_case. Qed.

(** X8.  split_url of bot.py has no base case other than a probe under
    the ceiling or a failing probe: while the site keeps reporting ten or
    more pages it returns for no window at all, however short. *)
Theorem bot_split_url_never_settles probe fuel url s e max_pages :
  always_over probe MAX_PAGES_PER_SEARCH ->
  max_pages <= MAX_PAGES_PER_SEARCH ->
  Bot.split_url probe fuel url s e max_pages = None.
Proof. intros Hover. by apply bot_split_url_no_base_case. Qed.

(** X9.  For start < end, no window split_url of app.py returns begins
    before 2010-01-01 or ends after now. *)
Theorem split_url_within_crawlable_range now probe max_pages fuel :
  forall url s e l,
    s < e ->
    App.split_url now probe fuel url s e max_pages = Some l ->
    Forall (fun r => D2010 <= range_start r /\ range_end r <= now) l.
Proof.
  induction fuel as [|fuel IH]; intros url s e l Hlt Hrun; [done|].
  rewrite split_url_unfold in Hrun.
  destruct (s >=? e) eqn:Hge; [lia|]. cbn zeta in Hrun.
  assert (Hunsplit : Forall (fun r => D2010 <= range_start r /\ range_end r <= now)
            [(buffered_url now url s e, buffered_start s, buffered_end now e)]).
  { constructor; [|constructor]. unfold range_start, range_end. cbn [fst snd].
    rewrite buffered_start_spec, buffered_end_spec. lia. }
  destruct (probe _) as [p|]; [|by inversion Hrun; subst l].
  destruct (p <? max_pages); [by inversion Hrun; subst l|].
  destruct (_ <=? 1) eqn:Hd; [by inversion Hrun; subst l|].
  assert (Hspan : 2 <= buffered_end now e - buffered_start s) by lia.
  destruct (children_facts now s e Hspan)
    as (_ & _ & _ & _ & _ & _ & _ & Hc1 & Hc2).
  set (c1 := first_child now s e) in *. set (c2 := second_child now s e) in *.
  destruct (App.split_url now probe fuel _ c1.1 c1.2 max_pages)
    as [firsts|] eqn:H1; [|done].
  destruct (App.split_url now probe fuel _ c2.1 c2.2 max_pages)
    as [seconds|] eqn:H2; [|done].
  inversion Hrun; subst l. apply Forall_app. split.
  - eapply IH; [exact Hc1|exact H1].
  - eapply IH; [exact Hc2|exact H2].
Qed.
End SplitterMore.

(** ** The post extractor *)
Section ExtractorMore.
Import Extractor ExtractorSpec.
Variable urljoin : string -> string -> string.
Variable strptime_strftime : string -> option string.
Variable fetch : string -> option Document.

Local Abbreviation post_candidates :=
  (post_candidates urljoin strptime_strftime fetch).
Local Abbreviation process_post :=
  (process_post urljoin strptime_strftime fetch).

Lemma pertype_eq {A} (a b : PerType A) :
  (forall t, get t a = get t b) -> a = b.
Proof.
  intros H. destruct a as [a1 a2 a3], b as [b1 b2 b3].
  pose proof (H Images) as H1. pose proof (H Gifs) as H2.
  pose proof (H Videos) as H3. cbn in *. by subst.
Qed.

(** *** Lists only grow at their end *)
Lemma record_extends t d src st t' d' l :
  get t' (media_by_date st) !! d' = Some l ->
  exists more, get t' (media_by_date (record t d src st)) !! d' = Some (l ++ more).
Proof.
  intros Hl. destruct (decide (src ∈ get t (global_seen st))) as [Hin|Hout].
  { rewrite record_seen by done. exists []. by rewrite app_nil_r. }
  rewrite record_fresh by done. cbn [media_by_date].
  destruct (decide (t = t')) as [<-|Hne].
  2:{ rewrite get_set_ne by done. exists []. by rewrite app_nil_r. }
  rewrite get_set_eq. destruct (decide (d = d')) as [<-|Hdne].
  - rewrite lookup_insert_eq, Hl. by exists [src].
  - rewrite lookup_insert_ne by done. exists []. by rewrite app_nil_r.
Qed.

Lemma record_all_extends cs st t d l :
  get t (media_by_date st) !! d = Some l ->
  exists more, get t (media_by_date (record_all cs st)) !! d = Some (l ++ more).
Proof.
  revert st l. induction cs as [|c cs IH]; intros st l Hl.
  { exists []. by rewrite app_nil_r. }
  cbn. destruct (record_extends c.1.1 c.1.2 c.2 st t d l Hl) as [m1 H1].
  destruct (IH _ _ H1) as [m2 H2]. exists (m1 ++ m2). by rewrite app_assoc.
Qed.

(** X10.  A call of process_post that runs with no other call in
    between only ever adds: a list already filed under a date of a
    media type is kept as it is and at most extended at its end, and
    nothing leaves the seen-sets. *)
Theorem process_post_only_adds post_link username start_year end_year st :
  let st' := process_post post_link username start_year end_year st in
  (forall t d l, get t (media_by_date st) !! d = Some l ->
     exists more, get t (media_by_date st') !! d = Some (l ++ more)) /\
  (forall t, get t (global_seen st) ⊆ get t (global_seen st')).
Proof.
  cbn zeta. rewrite process_post_records. split.
  - intros t d l. apply record_all_extends.
  - intros t u Hu. by apply record_all_seen_mono.
Qed.

(** *** What kind of URL ends up where *)
(** X11.  A URL a call of process_post, run with no other call in
    between, newly files under gifs ends in ".gif"
    (in any letter case) and comes from an img tag of an article of the
    page; one filed under images comes from an img tag and does not end
    in ".gif"; one filed under videos comes from a video or source tag.
    In each case it is the src itself, or urljoin(BASE_URL, src) when the
    src starts with "/". *)
Theorem stored_url_kind post_link username start_year end_year st t d u :
  stored t d u
    (media_by_date (process_post post_link username start_year end_year st)) ->
  ~ stored t d u (media_by_date st) ->
  exists soup a raw,
    fetch post_link = Some soup /\ a ∈ articles soup /\
    u = (if Py.startswith raw "/" then urljoin BASE_URL raw else raw) /\
    match t with
    | Videos => raw ∈ video_srcs a ++ source_srcs a
    | Gifs => Py.endswith (Py.lower u) ".gif" = true /\ raw ∈ img_srcs a
    | Images => Py.endswith (Py.lower u) ".gif" = false /\ raw ∈ img_srcs a
    end.
Proof.
  intros Hs Hnew. apply process_post_stored in Hs as [Hs|[Hc _]]; [done|].
  unfold ExtractorSpec.post_candidates in Hc.
  destruct (fetch post_link) as [soup|] eqn:Hfetch;
    [|by apply elem_of_nil in Hc].
  apply articles_candidates_inv in Hc as (a & Ha & _ & Hc).
  apply considered_inv, select_articles_inv in Ha.
  apply (article_candidates_kind urljoin) in Hc.
  destruct t.
  - destruct Hc as (Hgif & raw & Hraw & ->). by exists soup, a, raw.
  - destruct Hc as (Hgif & raw & Hraw & ->). by exists soup, a, raw.
  - destruct Hc as (raw & Hraw & ->). by exists soup, a, raw.
Qed.

(** X12.  No URL a call of process_post, run with no other call in
    between, newly files holds a denylisted
    substring: not "addonflare/awardsystem/icons/" as written, and none
    of "avatars", "ozzmodz_badges_badge", "premium", "likes" in any letter
    case; a video URL never starts with "data:" and an image or gif URL
    never starts with "data:image". *)
Theorem stored_url_passes_denylist post_link username start_year end_year st t d u :
  stored t d u
    (media_by_date (process_post post_link username start_year end_year st)) ->
  ~ stored t d u (media_by_date st) ->
  Py.contains u "addonflare/awardsystem/icons/" = false /\
  Py.contains (Py.lower u) "avatars" = false /\
  Py.contains (Py.lower u) "ozzmodz_badges_badge" = false /\
  Py.contains (Py.lower u) "premium" = false /\
  Py.contains (Py.lower u) "likes" = false /\
  Py.startswith u (match t with Videos => "data:" | _ => "data:image" end) = false.
Proof.
  intros Hs Hnew. apply process_post_stored in Hs as [Hs|[Hc _]]; [done|].
  apply post_candidates_inv in Hc as (_ & _ & _ & _ & _ & _ & Hun & _).
  unfold unwanted, keywords in Hun. cbn [existsb] in Hun.
  repeat (apply orb_false_elim in Hun as [Hun ?]).
  unfold data_prefix in *. repeat split; try done.
  all: repeat match goal with H : (_ || _) = false |- _ =>
         apply orb_false_elim in H as [? ?] end; done.
Qed.

(** X13.  Every date a call of process_post, run with no other call
    in between, newly files something under passed
    its year test: if the text before the first "-" of the date reads as
    an integer, that year lies between start_year and end_year. *)
Theorem stored_date_in_year_range post_link username start_year end_year st t d u y :
  stored t d u
    (media_by_date (process_post post_link username start_year end_year st)) ->
  ~ stored t d u (media_by_date st) ->
  Py.int (Py.split_first "-" d) = Some y ->
  start_year <= y <= end_year.
Proof.
  intros Hs Hnew Hy. apply process_post_stored in Hs as [Hs|[Hc _]]; [done|].
  apply post_candidates_inv in Hc as (_ & _ & _ & _ & _ & Hout & _).
  unfold outside_years in Hout. rewrite Hy in Hout.
  apply orb_false_elim in Hout as [H1 H2]. lia.
Qed.

(** *** The seen-sets after a run *)
Lemma record_seen_exact t d src st t' u :
  u ∈ get t' (global_seen (record t d src st)) <->
  u ∈ get t' (global_seen st) \/ (t' = t /\ u = src).
Proof.
  destruct (decide (src ∈ get t (global_seen st))) as [Hin|Hout].
  { rewrite record_seen by done. split; [by left|].
    intros [?|[-> ->]]; done. }
  rewrite record_fresh by done. cbn [global_seen].
  destruct (decide (t = t')) as [<-|Hne].
  - rewrite get_set_eq. rewrite elem_of_union, elem_of_singleton.
    split.
    + intros [->|Hu]; [right; by split|by left].
    + intros [Hu|[_ ->]]; [by right|by left].
  - rewrite get_set_ne by done. split; [by left|].
    intros [?|[-> _]]; done.
Qed.

Lemma record_all_seen_exact cs st t u :
  u ∈ get t (global_seen (record_all cs st)) <->
  u ∈ get t (global_seen st) \/ exists d, (t, d, u) ∈ cs.
Proof.
  revert st. induction cs as [|c cs IH]; intros st.
  - cbn. split; [by left|]. intros [?|[d Hd]]; [done|].
    by apply elem_of_nil in Hd.
  - cbn [record_all foldl]. fold (record_all cs (record c.1.1 c.1.2 c.2 st)).
    rewrite IH, record_seen_exact. destruct c as [[ct cd] cu]. cbn [fst snd].
    split.
    + intros [[?|[-> ->]]|[d Hd]].
      * by left.
      * right. exists cd. left.
      * right. exists d. by right.
    + intros [?|[d Hd]]; [by left; left|].
      apply elem_of_cons in Hd as [[= -> -> ->]|Hd].
      * left. right. done.
      * right. by exists d.
Qed.

(** X14.  The seen-sets do not depend on the order in which two posts
    are processed one after the other: whichever of two process_post
    calls runs first and returns before the other starts, the
    same URLs have been seen at the end (the dates they are filed under
    may differ). *)
Theorem seen_sets_order_independent
    link1 user1 sy1 ey1 link2 user2 sy2 ey2 st :
  global_seen (process_post link2 user2 sy2 ey2
                 (process_post link1 user1 sy1 ey1 st))
  = global_seen (process_post link1 user1 sy1 ey1
                   (process_post link2 user2 sy2 ey2 st)).
Proof.
  apply pertype_eq. intros t. apply set_eq. intros u.
  rewrite !process_post_records, !record_all_seen_exact. tauto.
Qed.
End ExtractorMore.

(** ** The crawl loop *)
Section CrawlMore.
Import Extractor ExtractorSpec Crawl CrawlSpec.
Variable urljoin : string -> string -> string.
Variable strptime_strftime : string -> option string.
Variable fetch : string -> option Document.
Variable all_post_links : string -> list string.
Variables start_year end_year : Z.

Local Abbreviation post_candidates :=
  (post_candidates urljoin strptime_strftime fetch).
Local Abbreviation run_post :=
  (serial_post urljoin strptime_strftime fetch start_year end_year).
Local Abbreviation crawl_user :=
  (serial_phase urljoin strptime_strftime fetch all_post_links start_year end_year).
Local Abbreviation serial_crawl :=
  (serial_crawl urljoin strptime_strftime fetch all_post_links start_year end_year).

Local Abbreviation visited :=
  (visited urljoin strptime_strftime fetch start_year end_year).

Lemma run_post_seen_mono username cs link t u :
  u ∈ get t (crawl_seen cs) -> u ∈ get t (crawl_seen (run_post username cs link)).
Proof.
  intros Hu. unfold CrawlSpec.serial_post.
  destruct (media_by_date_per_username cs !! username); [|done].
  cbn [crawl_seen]. by apply process_post_seen_mono.
Qed.

Lemma run_post_keys username cs link user :
  is_Some (media_by_date_per_username cs !! user) ->
  is_Some (media_by_date_per_username (run_post username cs link) !! user).
Proof.
  intros Hu. unfold CrawlSpec.serial_post.
  destruct (media_by_date_per_username cs !! username) eqn:E; [|done].
  cbn [media_by_date_per_username].
  destruct (decide (username = user)) as [<-|Hne].
  - by rewrite lookup_insert_eq.
  - by rewrite lookup_insert_ne.
Qed.

Lemma run_post_visits username cs link :
  is_Some (media_by_date_per_username cs !! username) ->
  visited username link (run_post username cs link).
Proof.
  intros [media Hmedia] c Hc. unfold CrawlSpec.serial_post. rewrite Hmedia.
  cbn [crawl_seen]. rewrite process_post_records. by apply record_all_seen.
Qed.

Lemma run_post_revisit username cs link :
  visited username link cs -> run_post username cs link = cs.
Proof.
  intros Hv. unfold CrawlSpec.serial_post.
  destruct (media_by_date_per_username cs !! username) as [media|] eqn:Hmedia;
    [|done].
  rewrite process_post_records, record_all_noop by exact Hv.
  cbn [global_seen media_by_date]. rewrite insert_id by done. by destruct cs.
Qed.

Lemma foldl_run_post_facts username links cs :
  is_Some (media_by_date_per_username cs !! username) ->
  let cs' := foldl (run_post username) cs links in
  (forall user, is_Some (media_by_date_per_username cs !! user) ->
     is_Some (media_by_date_per_username cs' !! user)) /\
  (forall t u, u ∈ get t (crawl_seen cs) -> u ∈ get t (crawl_seen cs')) /\
  (forall link, link ∈ links -> visited username link cs').
Proof.
  revert cs. induction links as [|link links IH]; intros cs Hkey; cbn zeta.
  { split; [done|]. split; [done|]. intros link H. by apply elem_of_nil in H. }
  cbn [foldl].
  destruct (IH (run_post username cs link)) as (Hk & Hs & Hv).
  { by apply run_post_keys. }
  split; [|split].
  - intros user Hu. by apply Hk, run_post_keys.
  - intros t u Hu. by apply Hs, run_post_seen_mono.
  - intros l Hl. apply elem_of_cons in Hl as [->|Hl]; [|by apply Hv].
    intros c Hc. apply Hs. exact (run_post_visits username cs link Hkey c Hc).
Qed.

Lemma foldl_run_post_revisit username links cs :
  (forall link, link ∈ links -> visited username link cs) ->
  foldl (run_post username) cs links = cs.
Proof.
  induction links as [|link links IH]; intros Hv; [done|].
  cbn [foldl]. rewrite run_post_revisit by (apply Hv; left).
  apply IH. intros l Hl. apply Hv. by right.
Qed.

Lemma initial_keys usernames user :
  user ∈ usernames ->
  media_by_date_per_username (initial usernames) !! user = Some no_media.
Proof.
  intros Hu. cbn.
  destruct (list_to_map ((fun username => (username, no_media)) <$> usernames)
              !! user) as [m|] eqn:E.
  - apply elem_of_list_to_map_2 in E.
    by apply list_elem_of_fmap in E as (? & [= _ ->] & _).
  - apply not_elem_of_list_to_map_2 in E. destruct E.
    rewrite <- list_fmap_compose. apply list_elem_of_fmap. by exists user.
Qed.

Lemma initial_app usernames username :
  username ∈ usernames -> initial (usernames ++ [username]) = initial usernames.
Proof.
  intros Hu. unfold initial. f_equal. apply map_eq. intros user.
  rewrite fmap_app, list_to_map_app, lookup_union. cbn.
  pose proof (initial_keys usernames username Hu) as Hk. cbn in Hk.
  destruct (decide (user = username)) as [->|Hne].
  - rewrite Hk. by rewrite lookup_insert_eq.
  - rewrite lookup_insert_ne, lookup_empty by done.
    by destruct (list_to_map _ !! user).
Qed.

Lemma crawl_fold_facts todo cs username :
  username ∈ todo ->
  (forall user, user ∈ todo -> is_Some (media_by_date_per_username cs !! user)) ->
  let cs' := foldl crawl_user cs todo in
  (forall user, is_Some (media_by_date_per_username cs !! user) ->
     is_Some (media_by_date_per_username cs' !! user)) /\
  (forall t u, u ∈ get t (crawl_seen cs) -> u ∈ get t (crawl_seen cs')) /\
  (forall link, link ∈ all_post_links username -> visited username link cs').
Proof.
  revert cs. induction todo as [|user0 todo IH]; intros cs Hin Hkeys; cbn zeta.
  { by apply elem_of_nil in Hin. }
  cbn [foldl].
  assert (Hkey0 : is_Some (media_by_date_per_username cs !! user0)).
  { apply Hkeys. left. }
  destruct (foldl_run_post_facts user0 (all_post_links user0) cs Hkey0)
    as (Hk1 & Hs1 & Hv1).
  fold (crawl_user cs user0) in Hk1, Hs1, Hv1.
  assert (Hrest : forall todo' cs0,
            (forall user, user ∈ todo' ->
               is_Some (media_by_date_per_username cs0 !! user)) ->
            (forall user, is_Some (media_by_date_per_username cs0 !! user) ->
               is_Some (media_by_date_per_username (foldl crawl_user cs0 todo') !! user)) /\
            (forall t u, u ∈ get t (crawl_seen cs0) ->
               u ∈ get t (crawl_seen (foldl crawl_user cs0 todo')))).
  { clear. induction todo' as [|x todo' IH']; intros cs0 Hk0; [done|].
    cbn [foldl].
    destruct (foldl_run_post_facts x (all_post_links x) cs0) as (Ha & Hb & _).
    { apply Hk0. left. }
    fold (crawl_user cs0 x) in Ha, Hb.
    destruct (IH' (crawl_user cs0 x)) as (Hc & Hd).
    { intros user Hu. apply Ha, Hk0. by right. }
    split; [intros user Hu; by apply Hc, Ha|intros t u Hu; by apply Hd, Hb]. }
  destruct (Hrest todo (crawl_user cs user0)) as (Hk2 & Hs2).
  { intros user Hu. apply Hk1, Hkeys. by right. }
  split; [intros user Hu; by apply Hk2, Hk1|].
  split; [intros t u Hu; by apply Hs2, Hs1|].
  intros link Hlink.
  apply elem_of_cons in Hin as [->|Hin].
  - intros c Hc. apply Hs2. exact (Hv1 link Hlink c Hc).
  - destruct (IH (crawl_user cs user0) Hin) as (_ & _ & Hv).
    { intros user Hu. apply Hk1, Hkeys. by right. }
    by apply Hv.
Qed.

Lemma serial_crawl_repeated usernames username :
  username ∈ usernames ->
  serial_crawl (usernames ++ [username]) = serial_crawl usernames.
Proof.
  intros Hu. unfold CrawlSpec.serial_crawl.
  rewrite initial_app by done. rewrite foldl_app. cbn [foldl].
  unfold CrawlSpec.serial_phase at 1.
  apply foldl_run_post_revisit. intros link Hlink.
  eapply (crawl_fold_facts usernames (initial usernames) username Hu); [|done].
  intros user Huser. rewrite initial_keys by done. by eexists.
Qed.

(** X15.  With one worker, naming a subject a second time at the end
    of the list changes nothing: when the page phase gives the same
    post links again and the posts read the same, every URL of the
    subject's posts has been seen, so the second pass adds no URL to
    any store and none to the seen-sets. *)
Theorem crawl_repeated_subject usernames username schedules cs :
  username ∈ usernames ->
  Crawl.crawl urljoin strptime_strftime fetch all_post_links start_year
    end_year 1 (usernames ++ [username]) schedules = Some cs ->
  cs = serial_crawl usernames.
Proof.
  intros Hu [-> _]%crawl_one_worker. by apply serial_crawl_repeated.
Qed.
End CrawlMore.

(** ** The command parser *)
Section CommandMore.
Import PyMore Command.

Lemma len_nonneg {A} (l : list A) : 0 <= len l.
Proof. unfold len. lia. Qed.

Lemma index_is_Some {A} (l : list A) (i : Z) :
  - len l <= i < len l -> is_Some (index l i).
Proof.
  intros Hi. unfold index.
  set (j := if i <? 0 then len l + i else i).
  assert (0 <= j < len l) as Hj by (unfold j; destruct (Z.ltb_spec i 0); lia).
  destruct (Z.leb_spec 0 j); [|lia]. destruct (Z.ltb_spec j (len l)); [|lia].
  cbn. apply lookup_lt_is_Some. unfold len in Hj. lia.
Qed.

Lemma index_app_r {A} (l k : list A) (i : Z) :
  - len k <= i < 0 -> index (l ++ k) i = index k i.
Proof.
  intros Hi. unfold index, len. rewrite length_app.
  destruct (Z.ltb_spec i 0); [|lia].
  destruct (Z.leb_spec 0 (Z.of_nat (List.length l + List.length k) + i));
    [|unfold len in Hi; lia].
  destruct (Z.ltb_spec (Z.of_nat (List.length l + List.length k) + i)
              (Z.of_nat (List.length l + List.length k))); [|lia].
  destruct (Z.leb_spec 0 (Z.of_nat (List.length k) + i));
    [|unfold len in Hi; lia].
  destruct (Z.ltb_spec (Z.of_nat (List.length k) + i)
              (Z.of_nat (List.length k))); [|lia].
  cbn. rewrite lookup_app_r by lia. f_equal. lia.
Qed.

Lemma index_from_end {A} (l : list A) (a b c : A) :
  index (l ++ [a; b; c]) (len (l ++ [a; b; c]) - 3) = Some a /\
  index (l ++ [a; b; c]) (-2) = Some b /\
  index (l ++ [a; b; c]) (-1) = Some c.
Proof.
  split; [|split; by rewrite index_app_r by (unfold len; cbn; lia)].
  unfold index, len. rewrite length_app. cbn [List.length].
  destruct (Z.ltb_spec (Z.of_nat (List.length l + 3) - 3) 0); [lia|].
  destruct (Z.leb_spec 0 (Z.of_nat (List.length l + 3) - 3)); [|lia].
  destruct (Z.ltb_spec (Z.of_nat (List.length l + 3) - 3)
              (Z.of_nat (List.length l + 3))); [|lia].
  cbn. rewrite lookup_app_r by lia.
  replace (Z.to_nat (Z.of_nat (List.length l + 3) - 3) - List.length l)%nat
    with 0%nat by lia. done.
Qed.

Lemma slice_front {A} (l : list A) (a b c : A) :
  slice (l ++ [a; b; c]) 0 (-3) = l.
Proof.
  unfold slice, len. rewrite length_app. cbn [List.length].
  change (0 <? 0) with false. change (-3 <? 0) with true. cbv iota.
  rewrite Z.min_l by lia. rewrite Z.max_r by lia.
  change (Z.to_nat 0) with 0%nat. rewrite drop_0.
  replace (Z.to_nat (Z.of_nat (List.length l + 3) + -3 - 0))
    with (List.length l) by lia.
  by rewrite take_app_length.
Qed.

Lemma slice_after_start {A} (s : A) (l : list A) (a b c : A) :
  slice (s :: l ++ [a; b; c]) 1 (-3) = l.
Proof.
  unfold slice, len. cbn [List.length]. rewrite length_app. cbn [List.length].
  change (1 <? 0) with false. change (-3 <? 0) with true. cbv iota.
  rewrite Z.min_l by lia. rewrite Z.max_r by lia.
  change (Z.to_nat 1) with 1%nat. cbn [drop]. rewrite drop_0.
  replace (Z.to_nat (Z.of_nat (S (List.length l + 3)) + -3 - 1))
    with (List.length l) by lia.
  by rewrite take_app_length.
Qed.

Lemma split_on_go_nonempty sep cur s : split_on_go sep cur s <> [].
Proof.
  revert cur. induction s as [|c s IH]; intros cur; cbn; [done|].
  destruct (Ascii.eqb c sep); [done|apply IH].
Qed.

(** int() accepts neither "y" nor "Y" *)
Lemma int_rejects_y (p : string) (y : Z) :
  Py.int p = Some y -> String.eqb (Py.lower p) "y" = false.
Proof.
  intros Hint. destruct (String.eqb_spec (Py.lower p) "y") as [E|]; [|done].
  exfalso. destruct p as [|c [|c' p']]; cbn in E; [done| |done].
  assert (c = "y"%char \/ c = "Y"%char) as [-> | ->].
  { injection E as E. revert E.
    destruct c as [[] [] [] [] [] [] [] []]; vm_compute; intros E;
      first [discriminate E | by left | by right]. }
  - vm_compute in Hint. discriminate.
  - vm_compute in Hint. discriminate.
Qed.

Lemma year_or_not_index_error cond parts i default :
  (cond = true -> - len parts <= i < len parts) ->
  year_or cond parts i default <> inl RaiseIndexError.
Proof.
  intros Hi. unfold year_or. destruct cond; [|done].
  destruct (index_is_Some parts i (Hi eq_refl)) as [p ->].
  by destruct (Py.int p).
Qed.

Lemma year_or_int parts i default y :
  year_or true parts i default = inr y ->
  exists p, index parts i = Some p /\ Py.int p = Some y.
Proof.
  unfold year_or. destruct (index parts i) as [p|]; [|done].
  destruct (Py.int p) as [y'|] eqn:E; [|done]. intros [= <-]. eauto.
Qed.

Lemma year_or_error cond parts i default e :
  year_or cond parts i default = inl e ->
  e = RaiseIndexError \/ e = RaiseValueError.
Proof.
  unfold year_or. destruct cond; [|done].
  destruct (index parts i) as [p|]; [|intros [= <-]; by left].
  destruct (Py.int p); [done|intros [= <-]; by right].
Qed.

Lemma request_not_index_error cy parts :
  1 <= len parts -> (starts_with_start parts = true -> 2 <= len parts) ->
  request cy parts <> RaiseIndexError.
Proof.
  intros H1 H2. unfold request, names_and_flag_index.
  set (n := len parts) in *.
  assert (forall idx, 0 <= idx -> (n >? idx) = true ->
            is_Some (index parts idx)) as Hidx.
  { intros idx ? ?%Z.gtb_lt. apply index_is_Some. fold n. lia. }
  assert (year_or (n >? 2) parts (-2) 2019 <> inl RaiseIndexError) as Hs.
  { apply year_or_not_index_error. intros ?%Z.gtb_lt. fold n. lia. }
  assert (year_or (n >? 1) parts (-1) cy <> inl RaiseIndexError) as He.
  { apply year_or_not_index_error. intros ?%Z.gtb_lt. fold n. lia. }
  assert (forall us t,
    match year_or (n >? 2) parts (-2) 2019 with
    | inl e => e
    | inr start_year =>
        match year_or (n >? 1) parts (-1) cy with
        | inl e => e
        | inr end_year => Scrape us t start_year end_year
        end
    end <> RaiseIndexError) as Hyears.
  { intros us t. destruct (year_or (n >? 2) _ _ _) as [e|sy]; [congruence|].
    destruct (year_or (n >? 1) _ _ _) as [e|ey]; [congruence|done]. }
  destruct (starts_with_start parts) eqn:Es.
  - specialize (H2 eq_refl).
    assert (is_Some (if n >? 4 then Some (join " " (slice parts 1 (-3)))
                     else index parts 1)) as [us ->].
    { destruct (n >? 4); [done|]. apply index_is_Some. fold n. lia. }
    cbn. destruct (Z.leb_spec n 4).
    + destruct (n >? 2) eqn:E2; [|apply Hyears].
      destruct (Hidx 2) as [p ->]; [lia|done|]. apply Hyears.
    + destruct (n >? n - 3) eqn:E2; [|apply Hyears].
      destruct (Hidx (n - 3)) as [p ->]; [lia|done|]. apply Hyears.
  - assert (is_Some (if n >? 3 then Some (join " " (slice parts 0 (-3)))
                     else index parts 0)) as [us ->].
    { destruct (n >? 3); [done|]. apply index_is_Some. fold n. lia. }
    cbn. destruct (Z.leb_spec n 3).
    + destruct (n >? 1) eqn:E2; [|apply Hyears].
      destruct (Hidx 1) as [p ->]; [lia|done|]. apply Hyears.
    + destruct (n >? n - 3) eqn:E2; [|apply Hyears].
      destruct (Hidx (n - 3)) as [p ->]; [lia|done|]. apply Hyears.
Qed.

Lemma request_inv cy parts us t sy ey :
  request cy parts = Scrape us t sy ey ->
  exists s idx,
    names_and_flag_index parts = Some (s, idx) /\
    us = Py.strip <$> split_on "," s /\
    (if len parts >? idx
     then (fun p => String.eqb (Py.lower p) "y") <$> index parts idx
     else Some false) = Some t /\
    year_or (len parts >? 2) parts (-2) 2019 = inr sy /\
    year_or (len parts >? 1) parts (-1) cy = inr ey.
Proof.
  unfold request. destruct (names_and_flag_index parts) as [[s idx]|]; [|done].
  destruct (if len parts >? idx then _ else _) as [t'|] eqn:Et; [|done].
  destruct (year_or _ _ (-2) _) as [e|sy'] eqn:E1;
    [by destruct (year_or_error _ _ _ _ _ E1) as [-> | ->]|].
  destruct (year_or _ _ (-1) _) as [e|ey'] eqn:E2;
    [by destruct (year_or_error _ _ _ _ _ E2) as [-> | ->]|].
  intros [= <- <- <- <-]. by exists s, idx.
Qed.

Lemma request_usernames cy parts us t sy ey :
  request cy parts = Scrape us t sy ey -> us <> [].
Proof.
  intros (s & idx & _ & -> & _)%request_inv. unfold split_on.
  pose proof (split_on_go_nonempty "," EmptyString s).
  by destruct (split_on_go _ _ _).
Qed.

(** dispatch reaches request only on a message it can index *)
Lemma dispatch_cases cy running text :
  (dispatch cy running text <> RaiseIndexError /\
   forall us t sy ey, dispatch cy running text <> Scrape us t sy ey) \/
  dispatch cy running text = request cy (Py.split text) /\
  1 <= len (Py.split text) /\
  (starts_with_start (Py.split text) = true -> 2 <= len (Py.split text)).
Proof.
  unfold dispatch.
  destruct (String.eqb text EmptyString); [by left|].
  destruct (String.eqb (Py.lower text) "/stop"); [by left|].
  destruct (Z.ltb_spec (len (Py.split text)) 1); cbn [orb]; [by left|].
  destruct (starts_with_start (Py.split text)) eqn:Es; cbn [andb].
  - destruct (Z.ltb_spec (len (Py.split text)) 2); [by left|].
    destruct running; [by left|]. right. repeat split; lia.
  - destruct running; [by left|]. right. repeat split; [lia|done].
Qed.

Lemma dispatch_scrape cy running text us t sy ey :
  dispatch cy running text = Scrape us t sy ey ->
  request cy (Py.split text) = Scrape us t sy ey /\
  1 <= len (Py.split text) /\
  (starts_with_start (Py.split text) = true -> 2 <= len (Py.split text)).
Proof.
  intros H. destruct (dispatch_cases cy running text) as [[_ Hno]|(E & H1 & H2)].
  - by destruct (Hno us t sy ey).
  - by rewrite <- E.
Qed.

Lemma webhook_scrape allowed cy running raw us t sy ey :
  telegram_webhook allowed cy running raw = Scrape us t sy ey ->
  handle_message cy running raw = Scrape us t sy ey.
Proof. unfold telegram_webhook, handle_message. by destruct allowed. Qed.

(** X16.  Whatever the message, the parser never indexes parts out of
    range (the only exception it can raise is the ValueError of int()),
    and a crawl is never started with an empty list of subjects. *)
Theorem parser_never_out_of_range cy running raw :
  handle_message cy running raw <> RaiseIndexError /\
  (forall allowed, telegram_webhook allowed cy running raw <> RaiseIndexError) /\
  forall us t sy ey,
    handle_message cy running raw = Scrape us t sy ey -> us <> [].
Proof.
  assert (handle_message cy running raw <> RaiseIndexError) as Hh.
  { unfold handle_message.
    destruct (dispatch_cases cy running (Py.strip raw)) as [[Hno _]|(E & H1 & H2)].
    - exact Hno.
    - rewrite E. by apply request_not_index_error. }
  split; [done|]. split.
  - intros allowed. unfold telegram_webhook.
    destruct allowed; [exact Hh|done].
  - intros us t sy ey [H _]%dispatch_scrape. by eapply request_usernames.
Qed.

(** the same word cannot be the flag "y" and a year *)
Lemma flag_is_not_a_year parts (i j : Z) p y default :
  index parts i = Some p -> String.eqb (Py.lower p) "y" = true ->
  year_or true parts j default = inr y ->
  index parts j <> index parts i.
Proof.
  intros Hp Hy (q & Hq & Hint)%year_or_int E.
  rewrite Hq, Hp in E. injection E as ->.
  apply int_rejects_y in Hint. congruence.
Qed.

Lemma index_same {A} (l : list A) (i j : Z) :
  0 <= i < len l -> j = i - len l -> index l j = index l i.
Proof.
  intros Hi ->. unfold index.
  destruct (Z.ltb_spec (i - len l) 0); [|lia].
  destruct (Z.ltb_spec i 0); [lia|].
  by replace (len l + (i - len l)) with i by lia.
Qed.

Lemma request_title_only cy parts us sy ey :
  request cy parts = Scrape us true sy ey ->
  (if starts_with_start parts then 5 else 4) <= len parts.
Proof.
  intros (s & idx & Hn & _ & Ht & Hs & He)%request_inv.
  unfold names_and_flag_index in Hn.
  set (n := len parts) in *.
  assert (forall i, n <= i + 2 -> 1 <= i -> (n >? i) = true ->
            (fun p => String.eqb (Py.lower p) "y") <$> index parts i = Some true ->
            False) as Hflag.
  { intros i Hi1 Hi0 Hgt%Z.gtb_lt Hf.
    destruct (index parts i) as [p|] eqn:Ep; [|done]. injection Hf as Hf.
    assert (n = i + 1 \/ n = i + 2) as [E|E] by lia.
    - destruct (Z.gtb_spec n 1); [|lia].
      eapply (flag_is_not_a_year parts i (-1)); [done..|].
      apply index_same; fold n; lia.
    - destruct (Z.gtb_spec n 2); [|lia].
      eapply (flag_is_not_a_year parts i (-2)); [done..|].
      apply index_same; fold n; lia. }
  destruct (starts_with_start parts).
  - destruct (if n >? 4 then _ else _) as [s'|]; [|done]. cbn in Hn.
    injection Hn as _ <-.
    destruct (Z.leb_spec n 4) as [Hle|]; [|lia]. exfalso.
    destruct (n >? 2) eqn:E; [|done]. apply (Hflag 2); [lia|lia|done|done].
  - destruct (if n >? 3 then _ else _) as [s'|]; [|done]. cbn in Hn.
    injection Hn as _ <-.
    destruct (Z.leb_spec n 3) as [Hle|]; [|lia]. exfalso.
    destruct (n >? 1) eqn:E; [|done]. apply (Hflag 1); [lia|lia|done|done].
Qed.

(** X17.  The title-only flag takes effect only in a message that
    gives both years after it: a crawl is started with title_only set
    only if the message has at least four words (five with /start).
    In a shorter message the word in the flag position is also read as
    a year, so "y" there ends in the ValueError of int(). *)
Theorem title_only_needs_both_years allowed cy running raw us sy ey :
  handle_message cy running raw = Scrape us true sy ey \/
  telegram_webhook allowed cy running raw = Scrape us true sy ey ->
  let parts := Py.split (Py.strip raw) in
  (if starts_with_start parts then 5 else 4) <= len parts.
Proof.
  intros H. assert (handle_message cy running raw = Scrape us true sy ey) as H'.
  { destruct H as [H|H]; [done|by eapply webhook_scrape]. }
  apply dispatch_scrape in H' as [H' _]. by eapply request_title_only.
Qed.

Lemma space_is_not_lowered c :
  Py.isspace c = true -> Py.lower_ascii c = c.
Proof. destruct c as [[] [] [] [] [] [] [] []]; vm_compute; congruence. Qed.

Lemma lowered_letter_is_no_space c k :
  Py.lower_ascii c = k -> Py.isspace k = false -> Py.isspace c = false.
Proof.
  intros E Hk. destruct (Py.isspace c) eqn:Ec; [|done].
  rewrite (space_is_not_lowered c Ec) in E. congruence.
Qed.

(** a message that reads /stop in any case is one word *)
Lemma stop_is_one_word text :
  Py.lower text = "/stop" -> Py.split text = [text].
Proof.
  intros E.
  destruct text as [|c1 [|c2 [|c3 [|c4 [|c5 [|c6 text]]]]]]; try discriminate E.
  cbn in E. injection E as E1 E2 E3 E4 E5.
  apply lowered_letter_is_no_space in E1, E2, E3, E4, E5; [|done..].
  unfold Py.split. cbn [Py.split_go]. by rewrite E1, E2, E3, E4, E5.
Qed.

Lemma dispatch_request cy text :
  3 <= len (Py.split text) ->
  dispatch cy false text = request cy (Py.split text).
Proof.
  intros Hlen. unfold dispatch.
  destruct (String.eqb_spec text EmptyString) as [->|_]; [done|].
  destruct (String.eqb_spec (Py.lower text) "/stop") as [E|_].
  { rewrite (stop_is_one_word text E) in Hlen. done. }
  destruct (Z.ltb_spec (len (Py.split text)) 1); [lia|].
  destruct (Z.ltb_spec (len (Py.split text)) 2); [lia|].
  by rewrite andb_false_r.
Qed.

Lemma request_full cy parts names flag a b sy ey :
  names <> [] ->
  parts = names ++ [flag; a; b] /\ starts_with_start names = false \/
  parts = "/start" :: names ++ [flag; a; b] ->
  Py.int a = Some sy -> Py.int b = Some ey ->
  request cy parts =
  Scrape (Py.strip <$> split_on "," (join " " names))
    (String.eqb (Py.lower flag) "y") sy ey.
Proof.
  intros Hnames Hparts Ha Hb.
  assert (1 <= len names) as Hn.
  { unfold len. destruct names; [done|]. cbn [List.length]. lia. }
  assert (exists pre, parts = pre ++ [flag; a; b] /\
            len parts = len pre + 3) as (pre & Epre & Hlen).
  { destruct Hparts as [[-> _]| ->].
    - exists names. split; [done|]. unfold len. rewrite length_app. cbn. lia.
    - exists ("/start" :: names). split; [done|].
      unfold len. cbn [List.length]. rewrite length_app. cbn. lia. }
  destruct (index_from_end pre flag a b) as (Hf & Hia & Hib).
  rewrite <- Epre in Hf, Hia, Hib.
  assert (names_and_flag_index parts = Some (join " " names, len parts - 3))
    as Hidx.
  { unfold names_and_flag_index. destruct Hparts as [[E Hs]| E].
    - assert (starts_with_start parts = false) as ->.
      { rewrite E. destruct names as [|x names]; [done|]. exact Hs. }
      assert (len pre = len names) as Hp.
      { rewrite E in Hlen. unfold len in *. rewrite length_app in Hlen.
        cbn in Hlen. lia. }
      destruct (Z.gtb_spec (len parts) 3); [|lia].
      destruct (Z.leb_spec (len parts) 3); [lia|].
      cbn. by rewrite E, slice_front.
    - assert (starts_with_start parts = true) as -> by (by rewrite E).
      assert (len pre = 1 + len names) as Hp.
      { rewrite E in Hlen. unfold len in *. cbn [List.length] in Hlen.
        rewrite length_app in Hlen. cbn in Hlen. lia. }
      destruct (Z.gtb_spec (len parts) 4); [|lia].
      destruct (Z.leb_spec (len parts) 4); [lia|].
      cbn. by rewrite E, slice_after_start. }
  unfold request. rewrite Hidx.
  pose proof (len_nonneg pre).
  destruct (Z.gtb_spec (len parts) (len parts - 3)); [|lia].
  rewrite Hf. cbn [fmap option_fmap option_map].
  destruct (Z.gtb_spec (len parts) 2); [|lia].
  destruct (Z.gtb_spec (len parts) 1); [|lia].
  unfold year_or. by rewrite Hia, Hib, Ha, Hb.
Qed.

(** X18.  A message in the full form of the usage line is understood
    as the usage line says: if the words of the message are the words
    of the subject list (after an optional /start), a flag and two
    integers, the crawl is started for the comma-separated subjects,
    each stripped, with title_only set exactly when the flag is y or Y,
    and with the two integers as start and end year.  Subjects may hold
    spaces; a run of white space between their words becomes one
    space. *)
Theorem full_usage_line_is_understood cy raw names flag a b sy ey :
  names <> [] ->
  Py.split (Py.strip raw) = names ++ [flag; a; b]
    /\ starts_with_start names = false \/
  Py.split (Py.strip raw) = "/start" :: names ++ [flag; a; b] ->
  Py.int a = Some sy -> Py.int b = Some ey ->
  let crawl :=
    Scrape (Py.strip <$> split_on "," (join " " names))
      (String.eqb (Py.lower flag) "y") sy ey in
  handle_message cy false raw = crawl /\
  telegram_webhook true cy false raw = crawl.
Proof.
  intros Hnames Hparts Ha Hb crawl.
  assert (handle_message cy false raw = crawl) as H.
  { unfold handle_message. rewrite dispatch_request.
    - by eapply request_full.
    - destruct Hparts as [[-> _]| ->]; unfold len;
        [|cbn [List.length]]; rewrite length_app; cbn; lia. }
  split; [exact H|]. unfold telegram_webhook. exact H.
Qed.
End CommandMore.

(** ** The search pages *)
Section WalkerMore.
Import PyMore Walker.
Variable urljoin : string -> string -> string.
Variable get_page : SearchUrl Z -> option Z -> option SearchPage.

Local Abbreviation post_links := (post_links urljoin).
Local Abbreviation fetch_page_data := (fetch_page_data urljoin get_page).
Local Abbreviation all_post_links := (all_post_links urljoin get_page).

Lemma dedup_go_elem seen l x :
  x ∈ dedup_go seen l <-> x ∈ l /\ x ∉ seen.
Proof.
  revert seen. induction l as [|y l IH]; intros seen; cbn.
  - split; [by intros ?%elem_of_nil|by intros [?%elem_of_nil _]].
  - destruct (decide (y ∈ seen)) as [Hy|Hy].
    + rewrite IH, elem_of_cons. split; [intros [? ?]; by split; [right|]|].
      intros [[->|?] ?]; [done|by split].
    + rewrite !elem_of_cons, IH, elem_of_union, elem_of_singleton. split.
      * intros [->|[? Hn]]; [by split; [left|]|].
        split; [by right|]. intros ?. apply Hn. by right.
      * intros [[->|?] Hn]; [by left|].
        destruct (decide (x = y)) as [->|Hne]; [by left|].
        right. split; [done|]. by intros [?|?].
Qed.

Lemma dedup_go_NoDup seen l : NoDup (dedup_go seen l).
Proof.
  revert seen. induction l as [|y l IH]; intros seen; cbn; [constructor|].
  destruct (decide (y ∈ seen)); [apply IH|].
  constructor; [|apply IH]. rewrite dedup_go_elem, elem_of_union, elem_of_singleton.
  intros [_ Hn]. apply Hn. by left.
Qed.

Lemma post_links_spec soup link :
  link ∈ post_links soup <->
  exists href, href ∈ hrefs soup /\ is_post_href href = true /\
    link = urljoin Extractor.BASE_URL href.
Proof.
  unfold Walker.post_links, fromkeys. rewrite dedup_go_elem, list_elem_of_fmap.
  split.
  - intros [(href & -> & Hin) _]. exists href.
    apply list_elem_of_In, filter_In in Hin as [Hin Hp].
    by rewrite <- list_elem_of_In in Hin.
  - intros (href & Hin & Hp & ->). split; [|apply not_elem_of_empty].
    exists href. split; [done|].
    apply list_elem_of_In, filter_In. by rewrite <- list_elem_of_In.
Qed.

Lemma fetch_page_data_cases url page :
  fetch_page_data url page = ([], 1) \/
  exists soup total,
    get_page url (full_url_page page) = Some soup /\
    fetch_page_data url page = (post_links soup, total).
Proof.
  unfold Walker.fetch_page_data.
  destruct (get_page url (full_url_page page)) as [soup|]; [|by left].
  destruct (page_nav soup) as [texts|]; [|right; by eexists _, _].
  destruct (page_numbers texts) as [[|n ns]|]; [by left| |by left].
  right. by eexists _, _.
Qed.

(** X19.  The links fetch_page_data returns are pairwise different, and
    each is BASE_URL joined with the href of an anchor of the fetched
    page that holds threads/, does not start with # and does not hold
    page-. *)
Theorem fetch_page_data_links url page :
  NoDup (fetch_page_data url page).1 /\
  forall link, link ∈ (fetch_page_data url page).1 ->
    exists soup href,
      get_page url (full_url_page page) = Some soup /\
      href ∈ hrefs soup /\
      Py.contains href "threads/" = true /\
      Py.startswith href "#" = false /\
      Py.contains href "page-" = false /\
      link = urljoin Extractor.BASE_URL href.
Proof.
  destruct (fetch_page_data_cases url page) as [->|(soup & total & Hget & ->)];
    cbn [fst].
  - split; [constructor|]. by intros link ?%elem_of_nil.
  - split; [apply dedup_go_NoDup|].
    intros link (href & Hin & Hp & ->)%post_links_spec.
    exists soup, href. unfold is_post_href in Hp.
    apply andb_true_iff in Hp as [[H1 H2%negb_true_iff]%andb_true_iff H3%negb_true_iff].
    done.
Qed.














Lemma add_links_invariant acc links :
  NoDup acc.1 -> (forall x, x ∈ acc.1 <-> x ∈ acc.2) -> NoDup links ->
  NoDup (add_links acc links).1 /\
  (forall x, x ∈ (add_links acc links).1 <-> x ∈ (add_links acc links).2) /\
  (forall x, x ∈ (add_links acc links).1 <-> x ∈ acc.1 \/ x ∈ links).
Proof.
  intros Hnd Hseen Hlinks. unfold add_links. cbn [fst snd].
  assert (forall x, x ∈ acc.1 ++ filter (fun link => link ∉ acc.2) links <->
            x ∈ acc.1 \/ x ∈ links) as Hel.
  { intros x. rewrite elem_of_app, list_elem_of_filter. split.
    - intros [?|[_ ?]]; [by left|by right].
    - intros [?|?]; [by left|].
      destruct (decide (x ∈ acc.2)) as [Hin|Hin]; [left; by apply Hseen|by right]. }
  split; [|split; [|exact Hel]].
  - apply NoDup_app. split; [done|]. split; [|by apply NoDup_filter].
    intros x Hx [Hn _]%list_elem_of_filter. by apply Hn, Hseen.
  - intros x. rewrite Hel, elem_of_union, elem_of_list_to_set. by rewrite Hseen.
Qed.

Lemma collect_invariant results : forall acc,
  NoDup acc.1 -> (forall x, x ∈ acc.1 <-> x ∈ acc.2) ->
  Forall NoDup results ->
  NoDup (collect acc results).1 /\
  (forall x, x ∈ (collect acc results).1 <-> x ∈ (collect acc results).2) /\
  (forall x, x ∈ (collect acc results).1 <->
     x ∈ acc.1 \/ exists links, links ∈ results /\ x ∈ links).
Proof.
  induction results as [|links results IH]; intros acc Hnd Hseen Hall.
  - cbn. split; [done|]. split; [done|]. intros x. split; [by left|].
    intros [?|(links & ?%elem_of_nil & _)]; done.
  - apply Forall_cons in Hall as [Hlinks Hall]. unfold collect. cbn [foldl].
    destruct (add_links_invariant acc links Hnd Hseen Hlinks) as (H1 & H2 & H3).
    destruct (IH (add_links acc links) H1 H2 Hall) as (I1 & I2 & I3).
    split; [exact I1|]. split; [exact I2|]. intros x. rewrite (I3 x), (H3 x).
    split.
    + intros [[?|?]|(l & Hl & Hx)]; [by left| |].
      * right. exists links. split; [by left|done].
      * right. exists l. split; [by right|done].
    + intros [?|(l & Hl & Hx)]; [by left; left|].
      apply elem_of_cons in Hl as [->|Hl]; [by left; right|].
      right. by exists l.
Qed.

(** X21.  Whatever pages are fetched and in whatever order the fetches
    complete, all_post_links holds every link of every fetched page
    exactly once. *)
Theorem all_post_links_unique (calls : list (SearchUrl Z * option Z)) :
  NoDup (all_post_links calls) /\
  forall link,
    link ∈ all_post_links calls <->
    exists call, call ∈ calls /\ link ∈ (fetch_page_data call.1 call.2).1.
Proof.
  unfold Walker.all_post_links.
  set (results := (fun c => (fetch_page_data c.1 c.2).1) <$> calls).
  destruct (collect_invariant results ([], ∅)) as (H1 & _ & H3).
  - constructor.
  - intros x. cbn. split; [by intros ?%elem_of_nil|by intros ?%not_elem_of_empty].
  - apply Forall_fmap, Forall_forall. intros c _. cbn.
    apply (fetch_page_data_links c.1 c.2).
  - split; [exact H1|]. intros link. rewrite (H3 link). cbn [fst]. split.
    + intros [?%elem_of_nil|(links & Hl & Hx)]; [done|].
      apply list_elem_of_fmap in Hl as (c & -> & Hc). by exists c.
    + intros (c & Hc & Hx). right. exists ((fetch_page_data c.1 c.2).1).
      split; [|done]. apply list_elem_of_fmap. by exists c.
Qed.
End WalkerMore.

(** ** The page data *)
Section GalleryMore.
Import PyMore Extractor ExtractorSpec Gallery.

Lemma leb_trans a b c :
  String.leb a b = true -> String.leb b c = true -> String.leb a c = true.
Proof.
  intros H1%Is_true_true H2%Is_true_true. apply Is_true_true.
  exact (transitivity (R := String.le) H1 H2).
Qed.

Lemma leb_false_flip a b : String.leb a b = false -> String.leb b a = true.
Proof. intros H. destruct (String.leb_total a b); congruence. Qed.

Lemma leb_refl a : String.leb a a = true.
Proof. apply Is_true_true. exact (reflexivity (R := String.le) a). Qed.

Section Sorting.
Context {A : Type} (key : A -> string).

Local Abbreviation above := (fun a b : A => String.leb (key b) (key a) = true).

Lemma insert_desc_perm x l : insert_desc key x l ≡ₚ x :: l.
Proof.
  induction l as [|y l IH]; cbn; [done|].
  destruct (String.leb (key y) (key x)); [done|].
  rewrite IH. apply Permutation_swap.
Qed.

Lemma sorted_desc_perm l : sorted_desc key l ≡ₚ l.
Proof.
  induction l as [|x l IH]; cbn; [done|].
  fold (sorted_desc key l). by rewrite insert_desc_perm, IH.
Qed.

Lemma insert_desc_front x l :
  Forall (above x) l -> insert_desc key x l = x :: l.
Proof. intros H. destruct H as [|y l Hy _]; cbn; [done|]. by rewrite Hy. Qed.

Lemma insert_desc_sorted x l :
  descending key l -> descending key (insert_desc key x l).
Proof.
  unfold descending. induction 1 as [|y l Hl IH Hy]; cbn.
  - by repeat constructor.
  - destruct (String.leb (key y) (key x)) eqn:E.
    + constructor; [by constructor|]. constructor; [done|].
      eapply Forall_impl; [exact Hy|]. cbn. intros z Hz. by eapply leb_trans.
    + constructor; [done|]. rewrite insert_desc_perm.
      constructor; [by apply leb_false_flip|done].
Qed.

Lemma sorted_desc_sorted l : descending key (sorted_desc key l).
Proof.
  induction l as [|x l IH]; cbn; [constructor|].
  by apply insert_desc_sorted.
Qed.

Lemma filter_insert_desc (P : A -> bool) x l :
  descending key l ->
  List.filter P (insert_desc key x l) =
  if P x then insert_desc key x (List.filter P l) else List.filter P l.
Proof.
  unfold descending. induction 1 as [|y l Hl IH Hy]; cbn.
  - by destruct (P x).
  - destruct (String.leb (key y) (key x)) eqn:E; cbn.
    + destruct (P x); [|done]. symmetry. apply insert_desc_front.
      assert (Forall (above x) (y :: l)) as Hall.
      { constructor; [done|]. eapply Forall_impl; [exact Hy|].
        cbn. intros z Hz. by eapply leb_trans. }
      apply Forall_forall. intros z Hz%list_elem_of_In.
      change (In z (List.filter P (y :: l))) in Hz.
      apply filter_In in Hz as [Hz _].
      rewrite Forall_forall in Hall. by apply Hall, list_elem_of_In.
    + rewrite IH. destruct (P y), (P x); cbn; by rewrite ?E.
Qed.

Lemma filter_sorted_desc (P : A -> bool) l :
  List.filter P (sorted_desc key l) = sorted_desc key (List.filter P l).
Proof.
  induction l as [|x l IH]; cbn; [done|]. fold (sorted_desc key l).
  rewrite filter_insert_desc by apply sorted_desc_sorted.
  rewrite IH. by destruct (P x).
Qed.

(** sorting a list whose keys are all equal changes nothing *)
Lemma sorted_desc_same d l :
  Forall (fun x => key x = d) l -> sorted_desc key l = l.
Proof.
  induction 1 as [|x l Hx Hl IH]; cbn; [done|]. fold (sorted_desc key l).
  rewrite IH. apply insert_desc_front.
  eapply Forall_impl; [exact Hl|]. cbn. intros y ->. rewrite Hx. apply leb_refl.
Qed.
End Sorting.

Lemma fmap_sorted_desc {A B} (f : A -> B) (key : B -> string) l :
  f <$> sorted_desc (fun x => key (f x)) l = sorted_desc key (f <$> l).
Proof.
  induction l as [|x l IH]; cbn; [done|].
  fold (sorted_desc (fun x => key (f x)) l). fold (sorted_desc key (f <$> l)).
  rewrite <- IH. generalize (sorted_desc (fun x => key (f x)) l). intros k.
  induction k as [|y k IHk]; cbn; [done|].
  destruct (String.leb (key (f y)) (key (f x))); cbn; [done|]. by rewrite IHk.
Qed.

Lemma type_items_spec t m it :
  it ∈ type_items t m <->
  exists d l url, m !! d = Some l /\ url ∈ l /\ is_http url = true /\
    it = mkItem (type_name t) (safe_src url) d.
Proof.
  unfold type_items. rewrite list_elem_of_bind. split.
  - intros (d & Hit & Hd). rewrite sorted_desc_perm in Hd.
    apply list_elem_of_fmap in Hd as ([d' l] & -> & Hd%elem_of_map_to_list).
    cbn in *. rewrite Hd in Hit. cbn in Hit.
    apply list_elem_of_bind in Hit as (url & Hit & Hurl).
    destruct (is_http url) eqn:E; [|by apply elem_of_nil in Hit].
    apply list_elem_of_singleton in Hit. by exists d', l, url.
  - intros (d & l & url & Hd & Hurl & Hhttp & ->). exists d. split.
    + rewrite Hd. cbn. apply list_elem_of_bind. exists url. split; [|done].
      rewrite Hhttp. by apply list_elem_of_singleton.
    + rewrite sorted_desc_perm. apply list_elem_of_fmap. exists (d, l).
      split; [done|]. by apply elem_of_map_to_list.
Qed.

Lemma collected_spec store it :
  it ∈ collected store <->
  exists t d url, stored t d url store /\ is_http url = true /\
    it = mkItem (type_name t) (safe_src url) d.
Proof.
  unfold collected, stored. rewrite !elem_of_app, !type_items_spec. split.
  - intros [H|[H|H]]; destruct H as (d & l & url & Hd & Hurl & Hh & ->).
    + exists Images, d, url. split; [by exists l|done].
    + exists Videos, d, url. split; [by exists l|done].
    + exists Gifs, d, url. split; [by exists l|done].
  - intros (t & d & url & (l & Hd & Hurl) & Hh & ->).
    destruct t; cbn in Hd.
    + left. by exists d, l, url.
    + right; right. by exists d, l, url.
    + right; left. by exists d, l, url.
Qed.

(** X22.  The list create_html of app.py writes for a user holds
    exactly the stored URLs that start with http:// or https://, each
    with its media type, its date and its quotes escaped; it is ordered
    by date, newest first; and the items of one date stand in the order
    images, videos, gifs, each type in the order of filing. *)
Theorem media_list_contents store :
  (forall it, it ∈ App.media_list store <->
     exists t d url, stored t d url store /\ is_http url = true /\
       it = mkItem (type_name t) (safe_src url) d) /\
  descending item_date (App.media_list store) /\
  forall d,
    List.filter (fun it => String.eqb (item_date it) d) (App.media_list store) =
    List.filter (fun it => String.eqb (item_date it) d) (collected store).
Proof.
  unfold App.media_list. split; [|split].
  - intros it. by rewrite sorted_desc_perm, collected_spec.
  - apply sorted_desc_sorted.
  - intros d. rewrite filter_sorted_desc. apply (sorted_desc_same _ d).
    apply Forall_forall. intros it [_ H]%list_elem_of_In%filter_In.
    by apply String.eqb_eq.
Qed.

Lemma sum_zero (l : list Z) :
  Forall (fun n => 0 <= n) l ->
  0 <= foldr Z.add 0 l /\ (foldr Z.add 0 l = 0 <-> Forall (fun n => n = 0) l).
Proof.
  induction 1 as [|n l Hn Hl [IH0 IH]]; cbn; [by split|].
  split; [lia|]. rewrite Forall_cons, <- IH. lia.
Qed.

Lemma count_type_zero m :
  0 <= count_type m /\
  (count_type m = 0 <-> forall d l, m !! d = Some l -> l = []).
Proof.
  unfold count_type.
  destruct (sum_zero ((fun p => len p.2) <$> map_to_list m)) as [H0 H].
  { apply Forall_fmap, Forall_forall. intros p _. cbn. apply len_nonneg. }
  split; [done|]. rewrite H, Forall_fmap, Forall_forall. split.
  - intros Hall d l Hd. specialize (Hall (d, l)). cbn in Hall.
    apply elem_of_map_to_list in Hd. specialize (Hall Hd).
    destruct l; [done|]. unfold len in Hall. cbn in Hall. lia.
  - intros Hall [d l] Hd%elem_of_map_to_list. cbn.
    by rewrite (Hall d l Hd).
Qed.

Lemma count_zero store :
  0 <= count store /\
  (count store = 0 <-> forall t d url, ~ stored t d url store).
Proof.
  unfold count, stored.
  destruct (count_type_zero (images store)) as [Hi0 Hi].
  destruct (count_type_zero (gifs store)) as [Hg0 Hg].
  destruct (count_type_zero (videos store)) as [Hv0 Hv].
  split; [lia|]. split.
  - intros Hsum t d url (l & Hd & Hurl).
    assert (l = []) as ->; [|by apply elem_of_nil in Hurl].
    destruct t; cbn in Hd.
    + apply (proj1 Hi) in Hd; [done|lia].
    + apply (proj1 Hg) in Hd; [done|lia].
    + apply (proj1 Hv) in Hd; [done|lia].
  - intros Hno.
    assert (forall t d l, get t store !! d = Some l -> l = []) as Hall.
    { intros t d [|url l] Hd; [done|]. destruct (Hno t d url).
      exists (url :: l). split; [done|by left]. }
    rewrite (proj2 Hi (Hall Images)), (proj2 Hg (Hall Gifs)),
      (proj2 Hv (Hall Videos)). done.
Qed.

Lemma total_zero m us :
  foldr Z.add 0 ((fun u => count (Bot.store_of m u)) <$> us) = 0 <->
  forall u store t d url,
    u ∈ us -> m !! u = Some store -> ~ stored t d url store.
Proof.
  destruct (sum_zero ((fun u => count (Bot.store_of m u)) <$> us)) as [_ ->].
  { apply Forall_fmap, Forall_forall. intros u _. apply count_zero. }
  rewrite Forall_fmap, Forall_forall. split.
  - intros Hall u store t d url Hu Hs. specialize (Hall u Hu). cbn in Hall.
    unfold Bot.store_of in Hall. rewrite Hs in Hall. cbn in Hall.
    by apply count_zero.
  - intros Hno u Hu. cbn. apply count_zero. intros t d url.
    unfold Bot.store_of. destruct (m !! u) as [store|] eqn:E; cbn.
    + by eapply Hno.
    + intros (l & Hl & _). by destruct t.
Qed.

Lemma mapM_lookup_present (m : gmap string MediaStore) us :
  (forall u, u ∈ us -> is_Some (m !! u)) ->
  mapM (fun u => m !! u) us = Some (Bot.store_of m <$> us).
Proof.
  intros Hall. apply mapM_Some. apply Forall2_fmap_r, Forall_Forall2_diag.
  apply Forall_forall. intros u Hu. unfold Bot.store_of. cbn beta.
  destruct (Hall u Hu) as [store Hs]. unfold compose. by rewrite Hs.
Qed.

Lemma mapM_lookup_absent (m : gmap string MediaStore) us :
  ~ (forall u, u ∈ us -> is_Some (m !! u)) ->
  mapM (fun u => m !! u) us = None.
Proof.
  intros Hno. destruct (mapM _ us) as [stores|] eqn:E; [|done].
  destruct Hno. intros u Hu.
  assert (is_Some (mapM (fun u => m !! u) us)) as H by by rewrite E.
  apply mapM_is_Some in H. rewrite Forall_forall in H. exact (H u Hu).
Qed.

(** what create_html of app.py computes when every user has a store *)
Lemma app_create_html_present m us :
  (forall u, u ∈ us -> is_Some (m !! u)) ->
  App.create_html m us =
  if foldr Z.add 0 ((fun u => count (Bot.store_of m u)) <$> us) =? 0
  then NoHtml
  else Page ((fun u => (key_of u, App.media_list (Bot.store_of m u))) <$> us).
Proof.
  intros Hall. unfold App.create_html. rewrite (mapM_lookup_present m us Hall).
  rewrite <- list_fmap_compose.
  destruct (_ =? 0); [done|]. f_equal.
  clear Hall. induction us as [|u us IH]; cbn; [done|]. by rewrite IH.
Qed.

(** X23.  create_html gives no page exactly when nothing at all is
    stored for the users asked for, of whatever media type and whether
    or not the URLs are http(s); app.py raises KeyError before that
    when a user has no store, bot.py takes such a user as empty.  So a
    page is generated also when every stored URL is skipped. *)
Theorem create_html_none m us :
  (App.create_html m us = NoHtml <->
     (forall u, u ∈ us -> is_Some (m !! u)) /\
     forall u store t d url,
       u ∈ us -> m !! u = Some store -> ~ stored t d url store) /\
  (Bot.create_html m us = NoHtml <->
     forall u store t d url,
       u ∈ us -> m !! u = Some store -> ~ stored t d url store).
Proof.
  split.
  - destruct (decide (Forall (fun u => is_Some (m !! u)) us)) as [Hall|Hno].
    + rewrite Forall_forall in Hall.
      rewrite (app_create_html_present m us Hall), <- total_zero.
      destruct (Z.eqb_spec (foldr Z.add 0
                  ((fun u => count (Bot.store_of m u)) <$> us)) 0);
        [by split|]. split; [done|]. by intros [_ ?].
    + rewrite Forall_forall in Hno. unfold App.create_html.
      rewrite (mapM_lookup_absent m us Hno). split; [done|]. by intros [? _].
  - unfold Bot.create_html. rewrite <- total_zero.
    destruct (Z.eqb_spec (foldr Z.add 0
                ((fun u => count (Bot.store_of m u)) <$> us)) 0); by split.
Qed.

Lemma filter_user_other (u u' : string) (l : list Item) :
  u' <> u ->
  List.filter (fun x : string * Item => String.eqb x.1 u) (pair u' <$> l) = [].
Proof.
  intros Hne. induction l as [|it l IH]; cbn; [done|].
  by destruct (String.eqb_spec u' u).
Qed.

Lemma filter_user_same (u : string) (l : list Item) :
  snd <$> List.filter (fun x : string * Item => String.eqb x.1 u) (pair u <$> l)
  = l.
Proof.
  induction l as [|it l IH]; cbn; [done|].
  rewrite String.eqb_refl. cbn. by rewrite IH.
Qed.

Lemma filter_user_absent (f : string -> list Item) u us :
  u ∉ us ->
  List.filter (fun x : string * Item => String.eqb x.1 u)
    (u' ← us; pair u' <$> f u') = [].
Proof.
  induction us as [|u' us IH]; intros Hu; cbn; [done|].
  apply not_elem_of_cons in Hu as [Hne Hu].
  rewrite List.filter_app, filter_user_other by done. by apply IH.
Qed.

Lemma filter_user_present (f : string -> list Item) u us :
  NoDup us -> u ∈ us ->
  snd <$> List.filter (fun x : string * Item => String.eqb x.1 u)
            (u' ← us; pair u' <$> f u') = f u.
Proof.
  induction 1 as [|u' us Hu' Hnd IH]; intros Hu; [by apply elem_of_nil in Hu|].
  cbn. rewrite List.filter_app, fmap_app.
  destruct (decide (u' = u)) as [->|Hne].
  - rewrite filter_user_same, filter_user_absent by done.
    cbn. by rewrite app_nil_r.
  - apply elem_of_cons in Hu as [->|Hu]; [done|].
    rewrite filter_user_other by done. cbn. by apply IH.
Qed.

Lemma user_media_spec m us u :
  NoDup us -> u ∈ us ->
  Bot.user_media (Bot.all_media m us) u = App.media_list (Bot.store_of m u).
Proof.
  intros Hnd Hu. unfold Bot.user_media, Bot.all_media, App.media_list.
  rewrite filter_sorted_desc.
  rewrite (fmap_sorted_desc snd item_date).
  by rewrite (filter_user_present
    (fun u' => collected (Bot.store_of m u')) u us Hnd Hu).
Qed.

(** X24.  The two versions of create_html write the same data: for a
    list of different users that all have a store, sorting all items
    of all users at once and picking each user's items out of the
    result (bot.py) gives the lists that sorting each user's items
    gives (app.py). *)
Theorem create_html_versions_agree m us :
  NoDup us -> (forall u, u ∈ us -> is_Some (m !! u)) ->
  Bot.create_html m us = App.create_html m us.
Proof.
  intros Hnd Hall. rewrite (app_create_html_present m us Hall).
  unfold Bot.create_html. destruct (_ =? 0); [done|]. f_equal.
  apply list_fmap_ext. intros i u Hu%list_elem_of_lookup_2.
  by rewrite user_media_spec.
Qed.
End GalleryMore.

(** ** Sending the pictures *)
Section SenderMore.
Import PyMore Extractor ExtractorSpec Fetcher Sender.

Lemma timeouts_app tr1 tr2 : timeouts (tr1 ++ tr2) = timeouts tr1 ++ timeouts tr2.
Proof. unfold timeouts. apply omap_app. Qed.

Lemma sum_app (l k : list Z) :
  fold_right Z.add 0 (l ++ k) = fold_right Z.add 0 l + fold_right Z.add 0 k.
Proof. induction l as [|n l IH]; cbn; [done|]. rewrite IH. lia. Qed.

Lemma total_timeout_sleep tr1 n tr2 :
  total_timeout (tr1 ++ Sleep n :: tr2) = total_timeout tr1 + total_timeout tr2.
Proof. unfold total_timeout. by rewrite timeouts_app, sum_app. Qed.

Lemma total_sleep_sleep tr1 n tr2 :
  total_sleep (tr1 ++ Sleep n :: tr2) = total_sleep tr1 + n + total_sleep tr2.
Proof. unfold total_sleep. rewrite omap_app, sum_app. cbn. lia. Qed.

Lemma requests_sleep tr1 n tr2 :
  List.length (timeouts (tr1 ++ Sleep n :: tr2)) =
  (List.length (timeouts tr1) + List.length (timeouts tr2))%nat.
Proof. by rewrite timeouts_app, length_app. Qed.

Section Download.
Variable is_200 : string -> bool.

(** one round of download_image: a call of make_request, then either
    the picture or a pause and the next round *)
Lemma download_attempts_step url outcome attempt todo :
  let tr := (make_request url (outcome attempt)).1 in
  (exists body,
     download_attempts is_200 url outcome (attempt :: todo) = (tr, Some body) /\
     is_200 body = true) \/
  download_attempts is_200 url outcome (attempt :: todo) =
    (tr ++ Sleep (1 * (attempt + 1))
        :: (download_attempts is_200 url outcome todo).1,
     (download_attempts is_200 url outcome todo).2).
Proof.
  cbn zeta. cbn [download_attempts].
  destruct (make_request url (outcome attempt)) as [tr r]. cbn [fst].
  destruct (download_attempts is_200 url outcome todo) as [evs res].
  destruct r as [body| | |]; [|by right..].
  destruct (is_200 body) eqn:E; [left; by exists body|by right].
Qed.

(** X25.  download_image never raises; it calls make_request at most
    three times, so it sends between one and nine requests, waits for
    at most 117 seconds of timeouts and sleeps at most 105 seconds.  It
    returns only a response with status 200, and it gives up only after
    three rounds, with at least 1 + 2 + 3 seconds slept: the pause
    after the last round is taken before None is returned. *)
Theorem download_image_budget url outcome :
  let r := download_image is_200 url outcome in
  (1 <= List.length (timeouts r.1) <= 9)%nat /\
  total_timeout r.1 <= 117 /\
  0 <= total_sleep r.1 <= 105 /\
  match r.2 with
  | Some body => is_200 body = true
  | None => (3 <= List.length (timeouts r.1))%nat /\ 6 <= total_sleep r.1
  end.
Proof.
  cbn zeta. unfold download_image.
  change (Py.range MAX_IMAGE_RETRIES) with [0; 1; 2].
  pose proof (make_request_cost url (outcome 0)) as (H0 & T0 & S0 & _).
  pose proof (make_request_cost url (outcome 1)) as (H1 & T1 & S1 & _).
  pose proof (make_request_cost url (outcome 2)) as (H2 & T2 & S2 & _).
  destruct (download_attempts_step url outcome 2 []) as [(b2 & E2 & I2)|E2];
  destruct (download_attempts_step url outcome 1 [2]) as [(b1 & E1 & I1)|E1];
  destruct (download_attempts_step url outcome 0 [1; 2]) as [(b0 & E0 & I0)|E0];
  rewrite E0; try rewrite E1; try rewrite E2; cbn [fst snd download_attempts];
  rewrite ?requests_sleep, ?total_timeout_sleep, ?total_sleep_sleep;
  change (total_timeout []) with 0; change (total_sleep []) with 0;
  change (List.length (timeouts [])) with 0%nat;
  (split; [lia|]); (split; [lia|]); (split; [lia|]); first [done|lia].
Qed.
End Download.

Lemma elem_of_sorted_desc {A} (key : A -> string) (l : list A) x :
  x ∈ sorted_desc key l <-> x ∈ l.
Proof. by rewrite sorted_desc_perm. Qed.

Lemma user_pictures_spec store u sy ey (x : Picture) :
  x ∈ user_pictures store u sy ey <->
  exists d url, x = (url, u, d) /\ in_years sy ey d = true /\
    (stored Images d url store \/ stored Gifs d url store).
Proof.
  unfold user_pictures, stored. cbn [get]. rewrite list_elem_of_bind. split.
  - intros (d & Hx & _). destruct (in_years sy ey d) eqn:E;
      [|by apply elem_of_nil in Hx].
    apply list_elem_of_fmap in Hx as (url & -> & Hurl).
    exists d, url. split; [done|]. split; [done|].
    apply elem_of_app in Hurl as [Hurl|Hurl].
    + left. destruct (images store !! d) as [l|]; [by exists l|].
      by apply elem_of_nil in Hurl.
    + right. destruct (gifs store !! d) as [l|]; [by exists l|].
      by apply elem_of_nil in Hurl.
  - intros (d & url & -> & Hy & Hs). exists d. split.
    + rewrite Hy. apply list_elem_of_fmap. exists url. split; [done|].
      apply elem_of_app.
      destruct Hs as [(l & -> & Hurl)|(l & -> & Hurl)]; [by left|by right].
    + apply elem_of_sorted_desc, elem_of_elements, elem_of_union.
      destruct Hs as [(l & Hl & _)|(l & Hl & _)]; [left|right];
        by apply elem_of_dom.
Qed.

(** X26.  The pictures process_and_send_images sends are exactly the
    stored images and gifs (never the videos) of the users asked for
    whose date passes the year test, a comparison of the first four
    characters of the date with the years as strings; they are ordered
    by date, newest first. *)
Theorem all_media_contents m us sy ey :
  (forall url u d,
     (url, u, d) ∈ all_media m us sy ey <->
     u ∈ us /\ in_years sy ey d = true /\
     (stored Images d url (store_of m u) \/ stored Gifs d url (store_of m u))) /\
  descending (fun x : Picture => x.2) (all_media m us sy ey).
Proof.
  split; [|apply sorted_desc_sorted].
  intros url u d. unfold all_media.
  rewrite elem_of_sorted_desc, list_elem_of_bind. split.
  - intros (u' & (d' & url' & [= -> -> ->] & Hy & Hs)%user_pictures_spec & Hu).
    done.
  - intros (Hu & Hy & Hs). exists u. split; [|done].
    apply user_pictures_spec. by exists d, url.
Qed.

Lemma slice_nonneg {A} (l : list A) (lo hi : Z) :
  0 <= lo <= hi ->
  slice l lo hi = take (Z.to_nat (hi - lo)) (drop (Z.to_nat lo) l).
Proof.
  intros H. unfold slice, len.
  destruct (Z.ltb_spec lo 0); [lia|]. destruct (Z.ltb_spec hi 0); [lia|].
  destruct (decide (Z.of_nat (List.length l) <= lo)) as [Hge|Hlt].
  - rewrite !drop_ge by lia. by rewrite !take_nil.
  - rewrite (Z.min_l lo) by lia.
    destruct (decide (hi <= Z.of_nat (List.length l))) as [Hhi|Hhi].
    + by rewrite Z.min_l by lia.
    + rewrite Z.min_r by lia.
      rewrite !take_ge; [done|rewrite length_drop; lia..].
Qed.

Lemma range_step_5 (n : Z) :
  0 < n ->
  range_step 0 n 5 = 0 :: ((fun i => i + 5) <$> range_step 0 (Z.max 0 (n - 5)) 5).
Proof.
  intros Hn. unfold range_step.
  replace (Z.to_nat ((n - 0 + 5 - 1) / 5))
    with (S (Z.to_nat ((Z.max 0 (n - 5) - 0 + 5 - 1) / 5))).
  2:{ assert ((n - 0 + 5 - 1) / 5 = (Z.max 0 (n - 5) - 0 + 5 - 1) / 5 + 1) as ->;
        [|assert (0 <= (Z.max 0 (n - 5) - 0 + 5 - 1) / 5); [|lia]];
      destruct (Z.max_spec 0 (n - 5)) as [[? ->]|[? ->]];
      Z.div_mod_to_equations; lia. }
  cbn [seq fmap list_fmap]. f_equal. rewrite <- seq_shift, <- !list_fmap_compose.
  apply list_fmap_ext. intros i k _. cbn. lia.
Qed.

Lemma batches_step (p : Picture) (all : list Picture) :
  batches (p :: all) = take 5 (p :: all) :: batches (drop 5 (p :: all)).
Proof.
  unfold batches. rewrite range_step_5 by (unfold len; cbn [List.length]; lia).
  replace (Z.max 0 (len (p :: all) - 5)) with (len (drop 5 (p :: all))).
  2:{ unfold len. rewrite length_drop. lia. }
  cbn [fmap list_fmap]. f_equal.
  - rewrite slice_nonneg by (unfold BATCH_SIZE; lia). done.
  - rewrite <- list_fmap_compose. apply list_fmap_ext. intros i k Hk.
    unfold compose.
    assert (0 <= k) as Hk0.
    { unfold range_step in Hk.
      apply list_elem_of_lookup_2, list_elem_of_fmap in Hk as (j & Hj & _).
      rewrite Hj. unfold BATCH_SIZE. lia. }
    rewrite !slice_nonneg by (unfold BATCH_SIZE; lia).
    rewrite drop_drop. f_equal; [lia|]. f_equal. lia.
Qed.

Lemma batches_facts (n : nat) : forall all : list Picture,
  (List.length all <= n)%nat ->
  List.concat (batches all) = all /\
  Forall (fun b => 1 <= len b <= BATCH_SIZE) (batches all).
Proof.
  induction n as [|n IH]; intros [|p all] Hlen; try (by split);
    [cbn in Hlen; lia|].
  rewrite batches_step.
  destruct (IH (drop 5 (p :: all))) as [Hc Hf].
  { rewrite length_drop. cbn [List.length] in *. lia. }
  split.
  - cbn [List.concat]. rewrite Hc. apply take_drop.
  - constructor; [|done]. unfold len, BATCH_SIZE. rewrite length_take.
    cbn [List.length]. lia.
Qed.

Section Send.
Variable send_image_batch : nat -> list Picture -> bool.

Lemma send_from_bounds bs : forall k sent,
  sent <= send_from send_image_batch k bs sent <= sent + len (List.concat bs).
Proof.
  induction bs as [|b bs IH]; intros k sent; cbn [send_from List.concat].
  - unfold len. cbn. lia.
  - assert (len (b ++ List.concat bs) = len b + len (List.concat bs)) as ->.
    { unfold len. rewrite length_app. lia. }
    pose proof (len_nonneg b).
    destruct b as [|p b]; [apply IH|].
    destruct (send_image_batch k (p :: b)).
    + specialize (IH (S k) (sent + len (p :: b))). lia.
    + specialize (IH (S k) sent). lia.
Qed.

Lemma send_from_all bs (ok : bool) :
  (forall k b, send_image_batch k b = ok) ->
  forall k sent,
    send_from send_image_batch k bs sent =
    if ok then sent + len (List.concat bs) else sent.
Proof.
  intros Hok. induction bs as [|b bs IH]; intros k sent; cbn [send_from List.concat].
  - unfold len. cbn. destruct ok; lia.
  - assert (len (b ++ List.concat bs) = len b + len (List.concat bs)) as ->.
    { unfold len. rewrite length_app. lia. }
    destruct b as [|p b].
    + rewrite IH. unfold len at 2. cbn. destruct ok; lia.
    + rewrite Hok, !IH. destruct ok; lia.
Qed.

(** X27.  process_and_send_images cuts all_media into consecutive
    batches that are never empty and hold at most five pictures, and
    counts a whole batch as sent when send_image_batch reports success
    for it: sent_images lies between 0 and the number of pictures, is
    that number when every batch succeeds and 0 when none does. *)
Theorem sent_images_bounds m us sy ey :
  let all := all_media m us sy ey in
  let sent := process_and_send_images send_image_batch m us sy ey in
  List.concat (batches all) = all /\
  Forall (fun b => 1 <= len b <= BATCH_SIZE) (batches all) /\
  0 <= sent <= len all /\
  forall ok : bool, (forall k b, send_image_batch k b = ok) ->
    sent = if ok then len all else 0.
Proof.
  cbn zeta. unfold process_and_send_images.
  destruct (batches_facts _ (all_media m us sy ey) (le_n _)) as [Hc Hf].
  split; [done|]. split; [done|]. split.
  - pose proof (send_from_bounds (batches (all_media m us sy ey)) 0%nat 0) as H.
    rewrite Hc in H. lia.
  - intros ok Hok. rewrite (send_from_all _ ok Hok), Hc. by destruct ok.
Qed.
End Send.
End SenderMore.

(** ** Concrete runs of the further properties *)
Section MoreRuns.
Import Calendar Fetcher FetcherSpec Extractor ExtractorSpec.
Import PyMore Command Walker Gallery Sender Examples MoreExamples.

Local Abbreviation a_jpg := "https://desifakes.com/a.jpg".

Lemma make_request_first_answer_witness :
  timeouts (make_request "u" fails_once).1 = [8; 13] /\
  (make_request "u" fails_once).2 = Returned "page".
Proof.
  apply (make_request_first_answer "u" fails_once 1); [lia|].
  split.
  - intros [|j] Hj; [by eexists|lia].
  - intros text. discriminate.
Defined.

Lemma app_windows_not_in_future_witness :
  exists links l,
    App.generate_links today 2024 2024 "jane doe" false = Some links /\
    l ∈ links /\
    toordinal (link_start l) <= toordinal (link_end l) <= toordinal today /\
    newer_than l.1.1.2 = link_start l /\ older_than l.1.1.2 = link_end l.
Proof.
  destruct (App.generate_links today 2024 2024 "jane doe" false)
    as [[|l links]|] eqn:E; [vm_compute in E; discriminate| |vm_compute in E; discriminate].
  exists (l :: links), l. split; [reflexivity|].
  split; [apply list_elem_of_here|].
  exact (app_windows_not_in_future today 2024 2024 "jane doe" false
           (l :: links) l E (list_elem_of_here l links)).
Defined.

Lemma bot_windows_not_in_future_witness :
  exists links l,
    Bot.generate_links today 2024 2024 "jane doe" false = Some links /\
    l ∈ links /\
    toordinal (link_start l) <= toordinal (link_end l) <= toordinal today.
Proof.
  destruct (Bot.generate_links today 2024 2024 "jane doe" false)
    as [[|l links]|] eqn:E; [vm_compute in E; discriminate| |vm_compute in E; discriminate].
  exists (l :: links), l. split; [reflexivity|].
  split; [apply list_elem_of_here|].
  exact (bot_windows_not_in_future today 2024 2024 "jane doe" false
           (l :: links) l E (list_elem_of_here l links)).
Defined.

Lemma generate_links_years_witness :
  exists links l,
    App.generate_links today 2022 2030 "jane doe" false = Some links /\
    l ∈ links /\
    Forall (fun l => Z.max 2010 2022 <= link_year l <= Z.min 2030 (year today))
      links /\
    StronglySorted (fun a b => link_year b <= link_year a) links.
Proof.
  destruct (App.generate_links today 2022 2030 "jane doe" false)
    as [[|l links]|] eqn:E; [vm_compute in E; discriminate| |vm_compute in E; discriminate].
  exists (l :: links), l. split; [reflexivity|].
  split; [apply list_elem_of_here|].
  exact (proj1 (generate_links_years today 2022 2030 "jane doe" false)
           (l :: links) E).
Defined.

Lemma busy_above_20_settles : settles_within busy_above_20 10 19.
Proof.
  intros u Hu. right. exists 3. unfold busy_above_20.
  destruct (Z.gtb_spec (older_than u - newer_than u) 20); [lia|done].
Qed.

Lemma split_url_returns_witness :
  exists l, App.split_url today_ord busy_above_20 21 some_url jan13 feb03 10 = Some l.
Proof.
  apply (split_url_returns today_ord busy_above_20 10 20 busy_above_20_settles
           some_url jan13 feb03); [reflexivity|vm_compute; discriminate].
Defined.

Lemma ten_pages_always_over : always_over ten_pages 10.
Proof. intros u. by exists 10. Qed.

Lemma split_url_never_settles_witness :
  App.split_url today_ord ten_pages 1000 some_url jan13 feb03 10 = None.
Proof.
  apply (split_url_never_settles today_ord ten_pages 10 1000 some_url jan13 feb03
           ten_pages_always_over); [reflexivity|vm_compute; discriminate].
Defined.

Lemma bot_split_url_never_settles_witness :
  Bot.split_url ten_pages 1000 some_url jan13 (jan13 + 1) 10 = None.
Proof.
  apply (bot_split_url_never_settles ten_pages 1000 some_url jan13 (jan13 + 1) 10
           ten_pages_always_over). vm_compute. discriminate.
Defined.

Lemma split_url_within_crawlable_range_witness :
  exists l,
    App.split_url today_ord busy_above_20 20 some_url jan13 feb03 10 = Some l /\
    List.length l = 5%nat /\
    Forall (fun r => D2010 <= range_start r /\ range_end r <= today_ord) l.
Proof.
  destruct (App.split_url today_ord busy_above_20 20 some_url jan13 feb03 10)
    as [l|] eqn:E; [|vm_compute in E; discriminate].
  exists l. split; [reflexivity|].
  split; [vm_compute in E; by injection E as <-|].
  exact (split_url_within_crawlable_range today_ord busy_above_20 10 20
           some_url jan13 feb03 l eq_refl E).
Defined.

Lemma process_post_only_adds_witness :
  exists more,
    get Images (media_by_date
      (process fetch_dated thread_link (process fetch_dated jane_link empty_state)))
      !! "2020-03-04"
    = Some ([a_jpg; "data:application/octet-stream;base64,AAAA"] ++ more).
Proof.
  apply (proj1 (process_post_only_adds urljoin strptime_strftime fetch_dated
                  thread_link "Jane Doe" 2019 2020
                  (process fetch_dated jane_link empty_state))
           Images "2020-03-04").
  vm_compute. reflexivity.
Defined.

Lemma stored_url_kind_witness :
  exists soup a raw,
    fetch_dated jane_link = Some soup /\ a ∈ articles soup /\
    a_jpg = (if Py.startswith raw "/" then urljoin BASE_URL raw else raw) /\
    Py.endswith (Py.lower a_jpg) ".gif" = false /\ raw ∈ img_srcs a.
Proof.
  exact (stored_url_kind urljoin strptime_strftime fetch_dated jane_link
           "Jane Doe" 2019 2020 empty_state Images "2020-03-04" a_jpg
           dated_run_stores_a_jpg (nothing_stored_at_start _ _ _)).
Defined.

Lemma stored_url_passes_denylist_witness :
  Py.contains a_jpg "addonflare/awardsystem/icons/" = false /\
  Py.contains (Py.lower a_jpg) "avatars" = false /\
  Py.contains (Py.lower a_jpg) "ozzmodz_badges_badge" = false /\
  Py.contains (Py.lower a_jpg) "premium" = false /\
  Py.contains (Py.lower a_jpg) "likes" = false /\
  Py.startswith a_jpg "data:image" = false.
Proof.
  exact (stored_url_passes_denylist urljoin strptime_strftime fetch_dated
           jane_link "Jane Doe" 2019 2020 empty_state Images "2020-03-04" a_jpg
           dated_run_stores_a_jpg (nothing_stored_at_start _ _ _)).
Defined.

Lemma stored_date_in_year_range_witness : 2019 <= 2020 <= 2020.
Proof.
  exact (stored_date_in_year_range urljoin strptime_strftime fetch_dated
           jane_link "Jane Doe" 2019 2020 empty_state Images "2020-03-04" a_jpg
           2020 dated_run_stores_a_jpg (nothing_stored_at_start _ _ _) eq_refl).
Defined.

Lemma crawl_repeated_subject_witness :
  exists cs,
    Crawl.crawl urljoin strptime_strftime fetch_dated one_link 2019 2020 1
      ["Jane"; "Doe"; "Jane"] [fresh_post; seen_post; seen_post] = Some cs /\
    cs = serial_crawl_of ["Jane"; "Doe"].
Proof.
  destruct (Crawl.crawl urljoin strptime_strftime fetch_dated one_link 2019 2020 1
              ["Jane"; "Doe"; "Jane"] [fresh_post; seen_post; seen_post])
    as [cs|] eqn:E; [|vm_compute in E; discriminate].
  exists cs. split; [reflexivity|].
  exact (crawl_repeated_subject urljoin strptime_strftime fetch_dated one_link
           2019 2020 ["Jane"; "Doe"] "Jane" _ cs (list_elem_of_here _ _) E).
Defined.

Lemma parser_never_out_of_range_witness :
  handle_message 2026 false "jane 2019 2020" <> RaiseIndexError /\
  ["jane"] <> [].
Proof.
  destruct (parser_never_out_of_range 2026 false "jane 2019 2020")
    as (Hrange & _ & Hnames).
  split; [exact Hrange|]. exact (Hnames ["jane"] false 2019 2020 eq_refl).
Defined.

Lemma title_only_needs_both_years_witness :
  4 <= len (Py.split (Py.strip " jane doe  Y 2019 2020 ")).
Proof.
  exact (title_only_needs_both_years true 2026 false " jane doe  Y 2019 2020 "
           ["jane doe"] 2019 2020 (or_introl eq_refl)).
Defined.

Lemma full_usage_line_is_understood_witness :
  handle_message 2026 false "/start Jane Doe, Mary n 2019 2020"
    = Scrape ["Jane Doe"; "Mary"] false 2019 2020 /\
  telegram_webhook true 2026 false "/start Jane Doe, Mary n 2019 2020"
    = Scrape ["Jane Doe"; "Mary"] false 2019 2020.
Proof.
  apply (full_usage_line_is_understood 2026 "/start Jane Doe, Mary n 2019 2020"
           ["Jane"; "Doe,"; "Mary"] "n" "2019" "2020" 2019 2020);
    [discriminate|by right|reflexivity|reflexivity].
Defined.

Lemma fetch_page_data_links_witness :
  (fetch_page_data urljoin get_search_page some_url (Some 1)).1
    = ["https://desifakes.com/threads/jane-doe.1/post-5"] /\
  exists soup href,
    get_search_page some_url (full_url_page (Some 1)) = Some soup /\
    href ∈ hrefs soup /\
    Py.contains href "threads/" = true /\
    Py.startswith href "#" = false /\
    Py.contains href "page-" = false /\
    "https://desifakes.com/threads/jane-doe.1/post-5" = urljoin BASE_URL href.
Proof.
  split; [vm_compute; reflexivity|].
  apply (proj2 (fetch_page_data_links urljoin get_search_page some_url (Some 1))).
  vm_compute. apply list_elem_of_here.
Defined.


Lemma two_stores_present u :
  u ∈ ["Jane"; "Doe"] -> is_Some (two_stores !! u).
Proof.
  intros [->|[->|[]%elem_of_nil]%elem_of_cons]%elem_of_cons;
    vm_compute; by eexists.
Qed.

Lemma create_html_versions_agree_witness :
  Gallery.Bot.create_html two_stores ["Jane"; "Doe"]
  = Gallery.App.create_html two_stores ["Jane"; "Doe"] /\
  exists items,
    Gallery.App.create_html two_stores ["Jane"; "Doe"]
    = Page [("Jane", items); ("Doe", [])] /\ List.length items = 2%nat.
Proof.
  split.
  - apply create_html_versions_agree; [|exact two_stores_present].
    apply NoDup_cons. split; [|apply NoDup_singleton].
    intros H%list_elem_of_singleton. discriminate H.
  - eexists. split; [vm_compute; reflexivity|reflexivity].
Defined.

Lemma sent_images_bounds_witness :
  process_and_send_images always_sent two_stores ["Jane"; "Doe"] 2019 2020
  = len (all_media two_stores ["Jane"; "Doe"] 2019 2020) /\
  len (all_media two_stores ["Jane"; "Doe"] 2019 2020) = 2.
Proof.
  split; [|vm_compute; reflexivity].
  exact (proj2 (proj2 (proj2 (sent_images_bounds always_sent two_stores
                                ["Jane"; "Doe"] 2019 2020)))
           true (fun _ _ => eq_refl)).
Defined.
End MoreRuns.
